(** * Word-Navigate: settings registry, region classifier and navigation policy

    A shallow embedding of the Sublime Text plugin "Word Navigate"
    (plugin.py, python/word_navigate.py, python/sublime_util/*.py) together
    with the properties of its natural-language specification.

    Python integers are [Z], Python strings are [string], the host editor
    (module [sublime]) is a record of primitives, mutable state (the
    selection, the logger, listener invocations) is threaded through a
    state-and-exception monad. *)

From Stdlib Require Import ZArith List Bool String Ascii Lia DecimalString.
Import ListNotations.
Local Open Scope string_scope.
Local Open Scope list_scope.
Local Open Scope Z_scope.

(** String concatenation, Python's [+] and f-string juxtaposition. *)
Notation "x ^^ y" := (String.append x y) (at level 60, right associativity).

(** ** Python values, exceptions and the effect monad *)

(** The Python values the settings layer stores and compares. *)
Inductive pyval : Type :=
| VNone
| VBool (b : bool)
| VInt (z : Z)
| VStr (s : string).

(** The exception classes raised by the modelled code. *)
Inductive exn : Type :=
| ValueError (msg : string)
| NameError (msg : string)
| KeyError (msg : string)
| RuntimeError (msg : string)
| IndexError (msg : string)
| AttributeError (msg : string)
| TypeError (msg : string).

Inductive result (A : Type) : Type :=
| Ok (x : A)
| Raise (e : exn).
Arguments Ok {A} x.
Arguments Raise {A} e.

(** A computation over a mutable state [S]: mutations made before an
    exception is raised persist, as they do in Python. *)
Definition M (S A : Type) : Type := S -> result A * S.

Definition ret {S A} (x : A) : M S A := fun s => (Ok x, s).
Definition raise {S A} (e : exn) : M S A := fun s => (Raise e, s).
Definition bind {S A B} (m : M S A) (k : A -> M S B) : M S B :=
  fun s => match m s with
           | (Ok x, s') => k x s'
           | (Raise e, s') => (Raise e, s')
           end.
Definition get {S} : M S S := fun s => (Ok s, s).
Definition put {S} (s : S) : M S unit := fun _ => (Ok tt, s).
Definition modify {S} (f : S -> S) : M S unit := fun s => (Ok tt, f s).

Declare Scope monad_scope.
Delimit Scope monad_scope with monad.
Notation "x <- m ;; k" := (bind m (fun x => k))
  (at level 61, m at next level, right associativity) : monad_scope.
Notation "m ;;; k" := (bind m (fun _ => k))
  (at level 61, right associativity) : monad_scope.
Local Open Scope monad_scope.

(** ** Strings as Python sees them *)

Module pystr.

(** [str.lower()] on the ASCII range. *)
Definition lower_ascii (c : ascii) : ascii :=
  let n := nat_of_ascii c in
  if (65 <=? n)%nat && (n <=? 90)%nat then ascii_of_nat (n + 32) else c.

Fixpoint lower (s : string) : string :=
  match s with
  | EmptyString => EmptyString
  | String c s' => String (lower_ascii c) (lower s')
  end.

(** [str.upper()] on the ASCII range. *)
Definition upper_ascii (c : ascii) : ascii :=
  let n := nat_of_ascii c in
  if (97 <=? n)%nat && (n <=? 122)%nat then ascii_of_nat (n - 32) else c.

Fixpoint upper (s : string) : string :=
  match s with
  | EmptyString => EmptyString
  | String c s' => String (upper_ascii c) (upper s')
  end.

(** [str(n)] for an integer. *)
Definition of_Z (z : Z) : string := NilZero.string_of_int (Z.to_int z).

(** [str(v)]. *)
Definition str (v : pyval) : string :=
  match v with
  | VNone => "None"
  | VBool true => "True"
  | VBool false => "False"
  | VInt z => of_Z z
  | VStr s => s
  end.

Fixpoint prefix (p s : string) : bool :=
  match p, s with
  | EmptyString, _ => true
  | String c p', String d s' => Ascii.eqb c d && prefix p' s'
  | String _ _, EmptyString => false
  end.

End pystr.

(** ** Logging *)

Module logging.

Inductive level : Type := DEBUG | INFO | WARNING | ERROR.

Definition level_eqb (x y : level) : bool :=
  match x, y with
  | DEBUG, DEBUG | INFO, INFO | WARNING, WARNING | ERROR, ERROR => true
  | _, _ => false
  end.

Record record : Type := mk { lvl : level; msg : string }.

(** How many records of a level a log holds. *)
Definition count (l : level) (log : list record) : nat :=
  List.length (List.filter (fun r => level_eqb (lvl r) l) log).

End logging.

(** ** The host editor API (module [sublime])

    The text buffer, the word classification, the regex search and the
    viewport belong to the host; the plugin reaches them through the
    methods of a [View].  They are taken as the fields of a record. *)

Module sublime.

(** [sublime.Region]: two offsets, [b] being the caret side. *)
Record Region : Type := mkRegion { a : Z; b : Z }.

Definition begin (r : Region) : Z := Z.min (a r) (b r).
Definition end_ (r : Region) : Z := Z.max (a r) (b r).
Definition empty (r : Region) : bool := a r =? b r.

Definition Region_eqb (r1 r2 : Region) : bool :=
  (a r1 =? a r2) && (b r1 =? b r2).

(** [str(region)], as interpolated in log messages. *)
Definition Region_str (r : Region) : string :=
  "(" ^^ pystr.of_Z (a r) ^^ ", " ^^ pystr.of_Z (b r) ^^ ")".

(** [sublime.PointClassification] *)
Definition WORD_START : Z := 1.
Definition WORD_END : Z := 2.

(** [sublime.FindFlags] *)
Definition IGNORECASE : Z := 2.
Definition REVERSE : Z := 8.
Definition WRAP : Z := 16.

(** Truthiness of [flags & mask]. *)
Definition has (flags mask : Z) : bool := negb (Z.land flags mask =? 0).

(** The query methods of [sublime.View] the plugin calls. *)
Record View : Type := mkView {
  size : Z;
  buffer_id : Z;
  classify : Z -> Z;
  find_by_class : Z -> bool -> Z -> Z;
  expand_by_class : Z -> Z -> Region;
  rowcol : Z -> Z * Z;
  text_point : Z -> Z -> Z;
  substr : Region -> string;
  word : Region -> Region;
  find : string -> Z -> Z -> Region;
  find_all : string -> Z -> Region -> list Region
}.

(** What the host does to the viewport on the plugin's behalf. *)
Inductive effect : Type :=
| goto_line (line : Z)
| show_at_center (r : Region).

End sublime.

Import sublime.

(** The mutable world of a navigation command: the selection of the view
    ([view.sel()]), the records handed to the logger, and the viewport
    requests made to the host. *)
Record NavState : Type := mkNavState {
  sel : list Region;
  log : list logging.record;
  effects : list effect
}.

Definition nav_log (l : logging.level) (m : string) : M NavState unit :=
  modify (fun s => mkNavState (sel s) (log s ++ [logging.mk l m]) (effects s)).

Definition nav_effect (e : effect) : M NavState unit :=
  modify (fun s => mkNavState (sel s) (log s) (effects s ++ [e])).

(** [view.sel()] read as a list. *)
Definition view_sel : M NavState (list Region) :=
  fun s => (Ok (sel s), s).

(** [sel[0]] *)
Definition sel_item0 : M NavState Region :=
  fun s => match sel s with
           | r :: _ => (Ok r, s)
           | [] => (Raise (IndexError "list index out of range"), s)
           end.

(** [sel.clear()] *)
Definition sel_clear : M NavState unit :=
  modify (fun s => mkNavState [] (log s) (effects s)).

(** [sel.add(region)] *)
Definition sel_add (r : Region) : M NavState unit :=
  modify (fun s => mkNavState (sel s ++ [r]) (log s) (effects s)).

(** ** python/sublime_util/selection.py *)

Module selection.

Definition get_caret_points : M NavState (list Z) :=
  s <- view_sel ;; ret (List.map b s).

Definition is_multiple_regions_selected : M NavState bool :=
  s <- view_sel ;; ret (1 <? Z.of_nat (List.length s)).

Definition get_caret_point : M NavState Z :=
  multi <- is_multiple_regions_selected ;;
  if multi then raise (RuntimeError "Multiple regions selected!")
  else
    pts <- get_caret_points ;;
    match pts with
    | p :: _ => ret p
    | [] => raise (IndexError "list index out of range")
    end.

Definition get_first_selected_region : M NavState Region := sel_item0.

Definition get_single_selected_region : M NavState Region :=
  multi <- is_multiple_regions_selected ;;
  if multi then raise (RuntimeError "Multiple regions selected!")
  else get_first_selected_region.

Definition select_and_zoom_to_region (view : View) (region : Region)
  : M NavState unit :=
  r0 <- sel_item0 ;;
  let row := fst (rowcol view (begin r0)) in
  nav_effect (goto_line row) ;;;
  sel_clear ;;;
  sel_add region ;;;
  r1 <- sel_item0 ;;
  nav_effect (show_at_center r1).

Definition reverse_region (region : Region) : Region :=
  mkRegion (end_ region) (begin region).

End selection.

(** ** python/sublime_util/view.py *)

Module view_util.

Definition _get_word_region_near_pt (view : View) (pt : Z) (in_line : bool)
    (get_point : Z -> Region -> Z) : Region :=
  let expanded_region :=
    expand_by_class view pt (Z.lor WORD_START WORD_END) in
  let pt_classifier := classify view pt in
  if has pt_classifier WORD_START then
    mkRegion pt (end_ expanded_region)
  else if has pt_classifier WORD_END then
    mkRegion (begin expanded_region) pt
  else if has (classify view (begin expanded_region)) WORD_START then
    expanded_region
  else
    let start_line := fst (rowcol view pt) in
    let new_pt := get_point pt expanded_region in
    let new_line := fst (rowcol view new_pt) in
    let new_pt :=
      if in_line && negb (start_line =? new_line) then
        if new_line <? start_line then
          find_by_class view pt true WORD_START
        else
          find_by_class view pt false WORD_END
      else new_pt in
    if has (classify view new_pt) WORD_START then
      mkRegion new_pt (find_by_class view new_pt true WORD_END)
    else
      mkRegion (find_by_class view new_pt false WORD_START) new_pt.

Definition get_closest_point (pt : Z) (region : Region) : Z :=
  let from_start := pt - begin region in
  let from_end := end_ region - pt in
  if from_start <=? from_end then begin region else end_ region.

Definition get_closest_word_region_from_pt (view : View) (pt : Z)
    (in_line : bool) : Region :=
  _get_word_region_near_pt view pt in_line
    (fun pt r => get_closest_point pt r).

Definition get_next_word_region_from_pt (view : View) (pt : Z)
    (in_line : bool) : Region :=
  _get_word_region_near_pt view pt in_line (fun pt r => end_ r).

Definition get_previous_word_region_from_pt (view : View) (pt : Z)
    (in_line : bool) : Region :=
  _get_word_region_near_pt view pt in_line (fun pt r => begin r).

Definition is_not_part_of_any_word (view : View) (region : Region) : bool :=
  let start_class := classify view (begin region) in
  if has start_class WORD_START && empty region then true
  else
    let exp_start_pt :=
      find_by_class view (begin region) true (Z.lor WORD_START WORD_END) in
    let exp_class := classify view exp_start_pt in
    if has exp_class WORD_START then
      if exp_start_pt >=? end_ region then true else false
    else false.

Definition is_single_complete_word (view : View) (region : Region) : bool :=
  let start_class := classify view (begin region) in
  if has start_class WORD_START then
    let word_end_pt := find_by_class view (begin region) true WORD_END in
    word_end_pt =? end_ region
  else false.

Definition is_multiple_complete_words (view : View) (region : Region)
  : bool :=
  let start_class := classify view (begin region) in
  if has start_class WORD_START then
    let end_class := classify view (end_ region) in
    if has end_class WORD_END then
      negb (is_single_complete_word view region)
    else false
  else false.

Definition is_part_of_multiple_words (view : View) (region : Region)
  : bool :=
  let end_point := find_by_class view (begin region) true WORD_END in
  let start_point := find_by_class view end_point true WORD_START in
  end_ region >=? start_point + 1.

(** The word [Next]/[Previous] and position report both searches log. *)
Definition log_adjacent_word (view : View) (forward : bool)
    (region : Region) : M NavState unit :=
  let rowcol_ := rowcol view (begin region) in
  let line := fst rowcol_ + 1 in
  let col_start := snd rowcol_ + 1 in
  let col_end := snd (rowcol view (end_ region)) in
  let adj_word := substr view region in
  let txt := if forward then "Next" else "Previous" in
  nav_log logging.DEBUG
    (txt ^^ " word is '" ^^ adj_word ^^ "' (" ^^ pystr.of_Z line ^^ ", ["
         ^^ pystr.of_Z col_start ^^ ":" ^^ pystr.of_Z col_end ^^ "]).").

(** The point the same-word search starts from. *)
Definition search_point (word_region : Region) (forward : bool) : Z :=
  if forward then end_ word_region else begin word_region.

(** The flags the same-word search passes to [view.find]. *)
Definition search_flags (forward wrap case_sensitive : bool) : Z :=
  let flags := 0 in
  let flags := if negb forward then Z.lor flags REVERSE else flags in
  let flags := if negb case_sensitive then Z.lor flags IGNORECASE
               else flags in
  let flags := if wrap then Z.lor flags WRAP else flags in
  flags.

(** The pattern the same-word search passes to [view.find]. *)
Definition search_regex (word : string) : string :=
  "\b" ^^ word ^^ "\b".

Definition get_region_of_closet_same_word (view : View)
    (word_region : Region) (forward wrap case_sensitive : bool)
  : M NavState (option Region) :=
  let point := search_point word_region forward in
  let word := substr view word_region in
  let flags := search_flags forward wrap case_sensitive in
  let regex := search_regex word in
  let region := find view regex point flags in
  if empty region then ret None
  else
    log_adjacent_word view forward region ;;;
    ret (Some region).

(** The pattern of the in-line word search. *)
Definition word_regex : string := "\b(\w+)\b".

(** The flags the in-line search passes to [view.find_all]. *)
Definition line_flags (forward : bool) : Z :=
  let flags := 0 in
  let flags := if negb forward then Z.lor flags REVERSE else flags in
  flags.

(** The span of the line the in-line search looks at: from the column to
    the start of the next line when forward, from the start of the line
    to the column otherwise. *)
Definition line_region (view : View) (forward : bool) (line col : Z)
  : Region :=
  if forward then
    mkRegion (text_point view line col) (text_point view (line + 1) 0)
  else
    mkRegion (text_point view line 0) (text_point view line col).

(** The nested helper of [get_region_of_closest_word_in_line]. *)
Definition _get_region_of_closet_word_in_line (view : View)
    (forward : bool) (line col : Z) : M NavState (list Region) :=
  let flags := line_flags forward in
  let regex := word_regex in
  let line_region := line_region view forward line col in
  nav_log logging.DEBUG
    ("Searching region " ^^ Region_str line_region ^^ " ('"
       ^^ substr view line_region ^^ "').") ;;;
  ret (find_all view regex flags line_region).

(** [regions[0]] when forward, the reverse of [regions[-1]] otherwise;
    [None] for an empty list. *)
Definition choose_region (view : View) (forward : bool)
    (regions : list Region) : M NavState (option Region) :=
  match regions with
  | [] => ret None
  | first :: _ =>
      let region :=
        if forward then first
        else selection.reverse_region (List.last regions first) in
      log_adjacent_word view forward region ;;;
      ret (Some region)
  end.

Definition get_region_of_closest_word_in_line (view : View) (point : Z)
    (forward wrap : bool) : M NavState (option Region) :=
  let rowcol_ := rowcol view point in
  let line := fst rowcol_ in
  let col := snd rowcol_ in
  nav_log logging.DEBUG
    ("Finding closest word in line from " ^^ pystr.of_Z (line + 1) ^^ ":"
       ^^ pystr.of_Z col ^^ ".") ;;;
  regions <- _get_region_of_closet_word_in_line view forward line col ;;
  match regions with
  | [] =>
      nav_log logging.DEBUG "No region found." ;;;
      if negb wrap then ret None
      else
        let '(line, new_col) :=
          if forward then (line, 0)
          else rowcol view (text_point view (line + 1) 0 - 1) in
        if col =? new_col then ret None
        else
          let col := new_col in
          regions <-
            _get_region_of_closet_word_in_line view forward line col ;;
          choose_region view forward regions
  | _ :: _ => choose_region view forward regions
  end.

End view_util.

(** ** python/index.py

    The module is imported by word_navigate.py and is not among the
    sources.  Its [get_index] is taken as a parameter of the navigation
    code: a lookup either raises [KeyError] or returns a value, which may
    be [None]. *)

Module index.

Inductive lookup : Type :=
| raises_KeyError (msg : string)
| returns (idx : pyval).

End index.

(** ** python/word_navigate.py *)

Module word_navigate.

(** The truth values of the plugin's boolean settings, as read through
    [settings.<name>] (python/settings.py gives the defaults). *)
Record Settings : Type := mkSettings {
  use_index : bool;
  allow_multiple_words : bool;
  expand_first : bool;
  wrap_buffer : bool;
  wrap_line : bool;
  case_sensitive : bool
}.

Definition default_settings : Settings :=
  mkSettings true true true true true false.

(** What the branch chain of [_get_region_of_word_closest_to_region]
    ends in: a [return] of a region, or a [word_region] handed to the
    search below the chain. *)
Inductive pivot : Type :=
| Return (region : Region)
| WordRegion (word_region : Region).

Section Commands.

Variable view : View.
Variable settings : Settings.
Variable get_index : Z -> index.lookup.

Definition debug (m : string) : M NavState unit :=
  nav_log logging.DEBUG m.
Definition warning (m : string) : M NavState unit :=
  nav_log logging.WARNING m.

(** Lines 42-100: the classification of the selected region. *)
Definition pivot_of_region (region : Region) (forward : bool)
  : M NavState pivot :=
  let txt := substr view region in
  if view_util.is_not_part_of_any_word view region then
    debug ("No word selected ('" ^^ txt ^^ "') - finding closest.") ;;;
    caret_pt <- selection.get_caret_point ;;
    if forward then
      ret (Return
             (view_util.get_next_word_region_from_pt view caret_pt false))
    else
      ret (Return
             (view_util.get_previous_word_region_from_pt
                view caret_pt false))
  else if view_util.is_single_complete_word view region then
    debug ("Single word '" ^^ txt ^^ "' selected - finding closest.") ;;;
    ret (WordRegion region)
  else if view_util.is_multiple_complete_words view region then
    if negb (allow_multiple_words settings) then
      if expand_first settings then
        debug ("Multiple words ('" ^^ txt ^^ "') selected "
                 ^^ "- expanding to single word under caret.") ;;;
        caret_pt <- selection.get_caret_point ;;
        ret (Return
               (view_util.get_closest_word_region_from_pt
                  view caret_pt false))
      else
        debug ("Multiple words ('" ^^ txt ^^ "') selected "
                 ^^ "- finding next closest single word from caret.") ;;;
        caret_pt <- selection.get_caret_point ;;
        ret (WordRegion
               (view_util.get_closest_word_region_from_pt
                  view caret_pt false))
    else
      debug ("Multiple words ('" ^^ txt ^^ "') selected "
               ^^ "- finding next closest combination of words.") ;;;
      ret (WordRegion region)
  else if view_util.is_part_of_multiple_words view region then
    if negb (allow_multiple_words settings) then
      if expand_first settings then
        debug ("Part of multiple words ('" ^^ txt ^^ "') selected "
                 ^^ "- expanding to single word under caret.") ;;;
        caret_pt <- selection.get_caret_point ;;
        ret (Return
               (view_util.get_closest_word_region_from_pt
                  view caret_pt false))
      else
        debug ("Part of multiple words ('" ^^ txt ^^ "') selected "
                 ^^ "- finding next closest single word from caret.") ;;;
        caret_pt <- selection.get_caret_point ;;
        ret (WordRegion
               (view_util.get_closest_word_region_from_pt
                  view caret_pt false))
    else if expand_first settings then
      debug ("Part of multiple words ('" ^^ txt ^^ "') selected "
               ^^ "- expanding to words.") ;;;
      ret (Return (word view region))
    else
      debug ("Part of multiple words ('" ^^ txt ^^ "') selected "
               ^^ "- finding next closest combination of words.") ;;;
      ret (WordRegion region)
  else if expand_first settings then
    debug ("Part of single word ('" ^^ txt ^^ "') selected "
             ^^ "- expanding to word") ;;;
    ret (Return (word view region))
  else
    debug ("Part of single word ('" ^^ txt ^^ "') selected "
             ^^ "- finding closest.") ;;;
    ret (WordRegion (word view region)).

(** Lines 102-118: the index lookup and the direct search. *)
Definition search_from_word_region (word_region : Region)
    (forward : bool) : M NavState (option Region) :=
  let _id := buffer_id view in
  idx <-
    (if use_index settings then
       match get_index _id with
       | index.returns idx => ret idx
       | index.raises_KeyError e =>
           warning ("Failed getting index: " ^^ e) ;;;
           ret VNone
       end
     else ret VNone) ;;
  match idx with
  | VNone =>
      debug "No index - navigating manually." ;;;
      view_util.get_region_of_closet_same_word view word_region forward
        (wrap_buffer settings) (case_sensitive settings)
  | _ =>
      warning "Not implemented." ;;;
      ret None
  end.

Definition _get_region_of_word_closest_to_region (region : Region)
    (forward : bool) : M NavState (option Region) :=
  p <- pivot_of_region region forward ;;
  match p with
  | Return r => ret (Some r)
  | WordRegion word_region => search_from_word_region word_region forward
  end.

Definition _get_region_of_word_closest_to_selection (forward : bool)
  : M NavState (option Region) :=
  multi <- selection.is_multiple_regions_selected ;;
  if multi then
    warning "Multiple regions selected - doing nothing." ;;;
    ret None
  else
    sel_region <- selection.get_single_selected_region ;;
    _get_region_of_word_closest_to_region sel_region forward.

(** The tail shared by [_navigate] and [_navigate_in_line]. *)
Definition apply_region (region : option Region) (forward : bool)
  : M NavState unit :=
  match region with
  | Some region =>
      let word := substr view region in
      (if forward then debug ("Next word is '" ^^ word ^^ "'.")
       else debug ("Previous word is '" ^^ word ^^ "'.")) ;;;
      selection.select_and_zoom_to_region view region
  | None => ret tt
  end.

Definition _navigate (forward : bool) : M NavState unit :=
  region <- _get_region_of_word_closest_to_selection forward ;;
  apply_region region forward.

(** [view_util.is_single_word]: view.py defines no such function, so
    the attribute lookup raises. *)
Definition is_single_word : M NavState (View -> Region -> bool) :=
  raise (AttributeError
           "module 'view' has no attribute 'is_single_word'").

Definition _get_region_of_closest_word_in_line (forward : bool)
  : M NavState (option Region) :=
  multi <- selection.is_multiple_regions_selected ;;
  if multi then
    warning "Multiple regions selected - doing nothing." ;;;
    ret None
  else
    region <- selection.get_single_selected_region ;;
    let txt := substr view region in
    if view_util.is_not_part_of_any_word view region then
      debug ("No word selected ('" ^^ txt ^^ "').") ;;;
      caret_pt <- selection.get_caret_point ;;
      view_util.get_region_of_closest_word_in_line
        view caret_pt forward (wrap_line settings)
    else
      single <- is_single_word ;;
      let continue_ : M NavState (option Region) :=
        caret_pt <- selection.get_caret_point ;;
        view_util.get_region_of_closest_word_in_line
          view caret_pt forward (wrap_line settings) in
      if single view region then
        debug ("Single word '" ^^ txt ^^ "' selected.") ;;;
        continue_
      else
        debug ("Multiple or parts of word(s) selected ('" ^^ txt
                 ^^ "').") ;;;
        if expand_first settings then
          debug ("'" ^^ txt ^^ "' not a word - expanding to word.") ;;;
          caret_pt <- selection.get_caret_point ;;
          ret (Some
                 (view_util.get_closest_word_region_from_pt
                    view caret_pt true))
        else
          debug ("Text within a word ('" ^^ txt ^^ "') selected.") ;;;
          continue_.

Definition _navigate_in_line (forward : bool) : M NavState unit :=
  region <- _get_region_of_closest_word_in_line forward ;;
  apply_region region forward.

Definition navigate_backward : M NavState unit := _navigate false.
Definition navigate_forward : M NavState unit := _navigate true.
Definition navigate_backward_in_line : M NavState unit :=
  _navigate_in_line false.
Definition navigate_forward_in_line : M NavState unit :=
  _navigate_in_line true.

End Commands.

End word_navigate.

(** ** plugin.py: the four window commands

    Each [run] logs one INFO record and calls the navigation function
    inside [util.time_this], which only prints the elapsed time. *)

Module plugin.

Section Run.

Variable view : View.
Variable settings : word_navigate.Settings.
Variable get_index : Z -> index.lookup.

Definition WordNavigatePreviousCommand_run : M NavState unit :=
  nav_log logging.INFO "Running command to find previous word." ;;;
  word_navigate.navigate_backward view settings get_index.

Definition WordNavigateNextCommand_run : M NavState unit :=
  nav_log logging.INFO "Running command to find next word." ;;;
  word_navigate.navigate_forward view settings get_index.

Definition WordNavigatePreviousInLineCommand_run : M NavState unit :=
  nav_log logging.INFO
    "Running command to find previous word on the same line." ;;;
  word_navigate.navigate_backward_in_line view settings.

Definition WordNavigateNextInLineCommand_run : M NavState unit :=
  nav_log logging.INFO
    "Running command to find next word on the same line." ;;;
  word_navigate.navigate_forward_in_line view settings.

End Run.

End plugin.

(** ** python/sublime_util/validators.py *)

Module validators.

(** The validator objects: the fields a constructed instance holds. *)
Inductive Validator : Type :=
| ListValidator (_allowed_values : list string)
| IntegerRangeValidator (_min _max : Z)
| BooleanValidator.

(** [ListValidator.__init__] *)
Definition ListValidator_init (allowed_values : list string)
  : result Validator :=
  Ok (ListValidator allowed_values).

(** [IntegerRangeValidator.__init__(self, min, max)]: the body reads the
    names [minimum] and [maximum], which are bound nowhere. *)
Definition IntegerRangeValidator_init (min max : Z) : result Validator :=
  Raise (NameError "name 'minimum' is not defined").

(** [BooleanValidator()] *)
Definition BooleanValidator_init : result Validator :=
  Ok BooleanValidator.

Fixpoint ListValidator_validate (allowed : list string) (value : string)
  : option pyval :=
  match allowed with
  | [] => None
  | val :: rest =>
      if String.eqb (pystr.lower value) val then Some (VStr val)
      else ListValidator_validate rest value
  end.

(** [value >= self._min and value <= self._max] on Python values:
    booleans compare as the integers 0 and 1, strings and [None] do not
    compare with integers. *)
Definition IntegerRangeValidator_validate (_min _max : Z) (value : pyval)
  : result (option pyval) :=
  let check (n : Z) :=
    if (n >=? _min) && (n <=? _max) then Some value else None in
  match value with
  | VInt n => Ok (check n)
  | VBool bv => Ok (check (if bv then 1 else 0))
  | VStr _ =>
      Raise (TypeError
               "'>=' not supported between instances of 'str' and 'int'")
  | VNone =>
      Raise (TypeError
               "'>=' not supported between instances of 'NoneType' and 'int'")
  end.

Definition BooleanValidator_validate (value : pyval) : option pyval :=
  let value := pystr.lower (pystr.str value) in
  if String.eqb value "true" then Some (VBool true)
  else if String.eqb value "false" then Some (VBool false)
  else None.

(** [validator.validate(value)]; [Ok None] is the rejection.  The list
    validator evaluates [value.lower()] in the body of its loop over the
    allowed values: a value that is no string raises [AttributeError] at
    the first allowed value, and falls through an empty list. *)
Definition validate (v : Validator) (value : pyval)
  : result (option pyval) :=
  match v with
  | ListValidator allowed =>
      match value with
      | VStr s => Ok (ListValidator_validate allowed s)
      | _ =>
          match allowed with
          | [] => Ok None
          | _ :: _ => Raise (AttributeError "object has no attribute 'lower'")
          end
      end
  | IntegerRangeValidator _min _max =>
      IntegerRangeValidator_validate _min _max value
  | BooleanValidator => Ok (BooleanValidator_validate value)
  end.

Definition allowed_values_as_string (v : Validator) : string :=
  match v with
  | ListValidator allowed =>
      "[" ^^ String.concat ", "
               (List.map (fun s => "'" ^^ s ^^ "'") allowed) ^^ "]"
  | IntegerRangeValidator _min _max =>
      pystr.of_Z _min ^^ " to " ^^ pystr.of_Z _max
  | BooleanValidator => "'true' or 'false'"
  end.

End validators.

(** ** python/sublime_util/settings.py *)

Module settings.

(** A change listener is an opaque callable that returns and leaves the
    setting alone; calling it is recorded. *)
Record callback : Type := mkCallback { cb_id : nat }.

(** One call [v(name, old_value, new_value)] of the listener registered
    under [tag]. *)
Record invocation : Type := mkInvocation {
  inv_tag : string;
  inv_callback : callback;
  inv_name : string;
  inv_old : pyval;
  inv_new : pyval
}.

(** The fields of a [SingleSetting]; [_callbacks] is a dict and keeps
    its keys in insertion order. *)
Record SingleSetting : Type := mkSingleSetting {
  _name : string;
  _value : pyval;
  _validator : validators.Validator;
  _callbacks : list (string * callback)
}.

(** The setting object together with what its methods act upon. *)
Record State : Type := mkState {
  self : SingleSetting;
  log : list logging.record;
  calls : list invocation
}.

Definition debug (m : string) : M State unit :=
  modify (fun s => mkState (self s) (log s ++ [logging.mk logging.DEBUG m])
                     (calls s)).

Definition call (tag : string) (v : callback) (name : string)
    (old new : pyval) : M State unit :=
  modify (fun s => mkState (self s) (log s)
                     (calls s ++ [mkInvocation tag v name old new])).

Definition set_value (v : pyval) : M State unit :=
  modify (fun s =>
    mkState (mkSingleSetting (_name (self s)) v (_validator (self s))
               (_callbacks (self s)))
            (log s) (calls s)).

Definition set_callbacks (c : list (string * callback)) : M State unit :=
  modify (fun s =>
    mkState (mkSingleSetting (_name (self s)) (_value (self s))
               (_validator (self s)) c)
            (log s) (calls s)).

(** [d[tag]] *)
Fixpoint dict_get (d : list (string * callback)) (tag : string)
  : option callback :=
  match d with
  | [] => None
  | (k, v) :: rest => if String.eqb k tag then Some v else dict_get rest tag
  end.

(** [d[tag] = v] *)
Fixpoint dict_set (d : list (string * callback)) (tag : string)
    (v : callback) : list (string * callback) :=
  match d with
  | [] => [(tag, v)]
  | (k, w) :: rest =>
      if String.eqb k tag then (k, v) :: rest
      else (k, w) :: dict_set rest tag v
  end.

(** [del d[tag]] *)
Fixpoint dict_del (d : list (string * callback)) (tag : string)
  : list (string * callback) :=
  match d with
  | [] => []
  | (k, w) :: rest =>
      if String.eqb k tag then rest else (k, w) :: dict_del rest tag
  end.

Definition value : M State pyval :=
  s <- get ;; ret (_value (self s)).

Definition validate (value : pyval) : M State (option pyval) :=
  fun s => (validators.validate (_validator (self s)) value, s).

Definition add_on_change (tag : string) (cb : callback) : M State unit :=
  s <- get ;;
  match dict_get (_callbacks (self s)) tag with
  | None =>
      debug ("Adding callback '" ^^ tag ^^ "' for setting '"
               ^^ _name (self s) ^^ "'.") ;;;
      set_callbacks (dict_set (_callbacks (self s)) tag cb)
  | Some _ =>
      raise (ValueError
               ("Tag '" ^^ tag
                  ^^ "' already registered a callback for change of setting '"
                  ^^ _name (self s) ^^ "'."))
  end.

Definition clear_on_change (tag : string) : M State unit :=
  s <- get ;;
  match dict_get (_callbacks (self s)) tag with
  | None =>
      raise (ValueError
               ("Tag '" ^^ tag
                  ^^ "' not registered a callback for change of setting '"
                  ^^ _name (self s) ^^ "'."))
  | Some _ =>
      debug ("Removing callback '" ^^ tag ^^ "' for setting '"
               ^^ _name (self s) ^^ "'.") ;;;
      set_callbacks (dict_del (_callbacks (self s)) tag)
  end.

(** [for k, v in self._callbacks.items(): v(name, old_value, self._value)] *)
Fixpoint notify (items : list (string * callback)) (name : string)
    (old new : pyval) : M State unit :=
  match items with
  | [] => ret tt
  | (k, v) :: rest => call k v name old new ;;; notify rest name old new
  end.

Definition _update (value : pyval) : M State unit :=
  s <- get ;;
  if negb (String.eqb (pystr.lower (pystr.str value))
                      (pystr.lower (pystr.str (_value (self s))))) then
    encoded_value <- validate value ;;
    match encoded_value with
    | Some encoded_value =>
        debug ("Changed setting '" ^^ _name (self s) ^^ "' from '"
                 ^^ pystr.str (_value (self s)) ^^ "' to '"
                 ^^ pystr.str encoded_value ^^ "'.") ;;;
        let old_value := _value (self s) in
        set_value encoded_value ;;;
        notify (_callbacks (self s)) (_name (self s)) old_value
               encoded_value
    | None =>
        raise (ValueError
                 ("Value '" ^^ pystr.str value ^^ "' for setting '"
                    ^^ _name (self s) ^^ "' not supported. "
                    ^^ "Allowed values are "
                    ^^ validators.allowed_values_as_string
                         (_validator (self s)) ^^ "."))
    end
  else ret tt.

(** [SingleSetting.__init__(self, name, value, validator)], run on the
    fresh object. *)
Definition SingleSetting_init (name : string) (value : pyval)
    (validator : validators.Validator) : M State unit :=
  modify (fun s => mkState (mkSingleSetting name VNone validator [])
                     (log s) (calls s)) ;;;
  _update (VStr (pystr.str value)).

(** A constructor call whose validator argument is itself a constructor
    call: the validator is built first. *)
Definition with_validator (v : result validators.Validator)
    (k : validators.Validator -> M State unit) : M State unit :=
  match v with
  | Ok validator => k validator
  | Raise e => raise e
  end.

Definition EnumSetting_init (name : string) (allowed_values : list string)
    (value : pyval) : M State unit :=
  with_validator (validators.ListValidator_init allowed_values)
    (SingleSetting_init name value).

Definition LogLevelSetting_init (name : string) (value : pyval)
  : M State unit :=
  EnumSetting_init name ["debug"; "info"; "warning"; "error"] value.

Definition IntegerRangeSetting_init (name : string) (value : pyval)
    (minimum maximum : Z) : M State unit :=
  with_validator (validators.IntegerRangeValidator_init minimum maximum)
    (SingleSetting_init name value).

Definition BooleanSetting_init (name : string) (value : pyval)
  : M State unit :=
  with_validator validators.BooleanValidator_init
    (SingleSetting_init name value).

(** [SettingsList], a dict from setting names to setting objects, in
    insertion order. *)
Definition SettingsList : Type := list (string * SingleSetting).

(** [d[name]] *)
Fixpoint list_get (d : SettingsList) (name : string) : option SingleSetting :=
  match d with
  | [] => None
  | (k, s) :: rest => if String.eqb k name then Some s else list_get rest name
  end.

(** [d[name] = setting] *)
Fixpoint list_set (d : SettingsList) (name : string) (setting : SingleSetting)
  : SettingsList :=
  match d with
  | [] => [(name, setting)]
  | (k, s) :: rest =>
      if String.eqb k name then (k, setting) :: rest
      else (k, s) :: list_set rest name setting
  end.

(** [SettingsList.add] *)
Definition SettingsList_add (d : SettingsList) (setting : SingleSetting)
  : SettingsList :=
  list_set d (_name setting) setting.

(** A [Settings] object ([_settings]) with the logger and the record of
    listener calls its methods act upon. *)
Record Registry : Type := mkRegistry {
  _settings : SettingsList;
  reg_log : list logging.record;
  reg_calls : list invocation
}.

(** The host's settings file: [self._settings_file[name]] raises
    [KeyError] for a name the file does not hold. *)
Definition SettingsFile : Type := string -> option pyval.

(** The body of [Settings.__getattr__(name)], which Python runs for a
    name its own attribute lookup does not find; it falls off its end,
    returning [None], for a name that starts with an underscore. *)
Definition Settings_getattr (name : string)
  : M Registry (option SingleSetting) :=
  r <- get ;;
  if negb (pystr.prefix "_" name) then
    match list_get (_settings r) name with
    | Some setting => ret (Some setting)
    | None => raise (NameError ("Nu such setting '" ^^ name ^^ "'."))
    end
  else ret None.

(** What reading an attribute of a [Settings] object gives: a method of
    the object, a setting, or [Private], which stands for whatever a name
    that starts with an underscore reads as. *)
Inductive attribute : Type :=
| BoundMethod (name : string)
| Setting (setting : SingleSetting)
| Private.

(** [settings_object.<name>].  Python looks the name up on the object and
    its classes first and calls [__getattr__] only when that finds
    nothing.  Of the names that lookup finds only the method [deinit]
    starts without an underscore: the others are the fields
    [_settings_file] and [_settings], the methods [__init__],
    [__getattr__] and [_on_settings_change], and the attributes every
    Python object has.  A name that starts with an underscore and is not
    found gives the [None] of [__getattr__].  What the names that start
    with an underscore read as is not told apart: it is [Private], never
    a setting. *)
Definition Settings_read (name : string) : M Registry attribute :=
  if String.eqb name "deinit" then ret (BoundMethod name)
  else if pystr.prefix "_" name then ret Private
  else
    found <- Settings_getattr name ;;
    match found with
    | Some setting => ret (Setting setting)
    | None => ret Private
    end.

(** The loop of [_on_settings_change] over the items of the dict: each
    setting object is updated in place; a [KeyError] is passed over, any
    other exception ends the loop. *)
Fixpoint reload_items (file : SettingsFile) (items : SettingsList)
    (log : list logging.record) (calls : list invocation)
  : result unit * (SettingsList * list logging.record * list invocation) :=
  match items with
  | [] => (Ok tt, ([], log, calls))
  | (name, setting) :: rest =>
      let continue_ (setting' : SingleSetting) log' calls' :=
        let '(r, (rest', log'', calls'')) :=
          reload_items file rest log' calls' in
        (r, ((name, setting') :: rest', log'', calls'')) in
      match file name with
      | None => continue_ setting log calls
      | Some value =>
          match _update value (mkState setting log calls) with
          | (Ok _, st) => continue_ (self st) (settings.log st) (settings.calls st)
          | (Raise (KeyError _), st) =>
              continue_ (self st) (settings.log st) (settings.calls st)
          | (Raise e, st) =>
              (Raise e,
               ((name, self st) :: rest, settings.log st, settings.calls st))
          end
      end
  end.

(** [Settings._on_settings_change] *)
Definition _on_settings_change (file : SettingsFile) : M Registry unit :=
  fun r =>
    let log := reg_log r ++ [logging.mk logging.DEBUG "Reloading settings."] in
    let '(res, (items, log', calls')) :=
      reload_items file (_settings r) log (reg_calls r) in
    (res, mkRegistry items log' calls').

(** [self._settings.add(Constructor(...))]: the setting is constructed,
    which may raise, and then added. *)
Definition add_new (init : M State unit) : M Registry unit :=
  fun r =>
    let fresh := mkSingleSetting "" VNone validators.BooleanValidator [] in
    match init (mkState fresh (reg_log r) (reg_calls r)) with
    | (Ok _, st) =>
        (Ok tt,
         mkRegistry (SettingsList_add (_settings r) (self st))
           (settings.log st) (settings.calls st))
    | (Raise e, st) =>
        (Raise e, mkRegistry (_settings r) (settings.log st) (settings.calls st))
    end.

(** [bool(setting)], that is [bool(setting.value)]. *)
Definition SingleSetting_bool (s : SingleSetting) : bool :=
  match _value s with
  | VNone => false
  | VBool bv => bv
  | VInt z => negb (z =? 0)
  | VStr str => negb (String.eqb str "")
  end.

End settings.

(** ** python/settings.py: the settings of the plugin *)

Module plugin_settings.

(** What the global [settings] of the module is bound to: the module
    [sublime_util.settings], by the import, or the [Settings] object that
    [init] has put in its place. *)
Inductive binding : Type :=
| SettingsModule
| SettingsObject (settings_obj : settings.Registry).

(** The globals of the module, and its logger. *)
Record Globals : Type := mkGlobals {
  global_settings : binding;
  initialized : bool;
  module_log : list logging.record
}.

(** The module as imported. *)
Definition imported : Globals := mkGlobals SettingsModule false [].

(** [init(settings_obj)] *)
Definition init (settings_obj : settings.Registry) : M Globals unit :=
  modify (fun g =>
            mkGlobals (global_settings g) (initialized g)
              (module_log g
                 ++ [logging.mk logging.DEBUG "Initializing setting."])) ;;;
  modify (fun g =>
            mkGlobals (SettingsObject settings_obj) (initialized g)
              (module_log g)) ;;;
  modify (fun g => mkGlobals (global_settings g) true (module_log g)).

(** [self._settings.add(settings.<constructor>(...))] in
    [Settings.__init__].  The name [settings] is the global of the module,
    read when the call runs.  While it is the module, the constructor is
    found, and the setting is constructed and added.  Once it is a
    [Settings] object, [settings.<constructor>] reads an attribute of that
    object, which raises [NameError] when the object holds no setting of
    that name, and gives no callable when it does (the message of that
    [TypeError] names the class of the setting, which a setting does not
    record here). *)
Definition add_constructed (global : binding) (constructor : string)
    (init : M settings.State unit) : M settings.Registry unit :=
  match global with
  | SettingsModule => settings.add_new init
  | SettingsObject settings_obj =>
      match fst (settings.Settings_read constructor settings_obj) with
      | Raise e => raise e
      | Ok _ => raise (TypeError "object is not callable")
      end
  end.

(** [Settings.__init__(self, default_log_level)] over the settings file
    [file], with the global [settings] of the module bound to [global]. *)
Definition Settings_init (global : binding) (default_log_level : pyval)
    (file : settings.SettingsFile) : M settings.Registry unit :=
  modify (fun r => settings.mkRegistry [] (settings.reg_log r)
                     (settings.reg_calls r)) ;;;
  add_constructed global "LogLevelSetting"
    (settings.LogLevelSetting_init "log_level" default_log_level) ;;;
  add_constructed global "BooleanSetting"
    (settings.BooleanSetting_init "use_index" (VBool true)) ;;;
  add_constructed global "BooleanSetting"
    (settings.BooleanSetting_init "allow_multiple_words" (VBool true)) ;;;
  add_constructed global "BooleanSetting"
    (settings.BooleanSetting_init "expand_first" (VBool true)) ;;;
  add_constructed global "BooleanSetting"
    (settings.BooleanSetting_init "wrap_buffer" (VBool true)) ;;;
  add_constructed global "BooleanSetting"
    (settings.BooleanSetting_init "wrap_line" (VBool true)) ;;;
  add_constructed global "BooleanSetting"
    (settings.BooleanSetting_init "case_sensitive" (VBool false)) ;;;
  settings._on_settings_change file.

(** [bool(settings.<name>)], where the read gives a setting. *)
Definition truth (r : settings.Registry) (name : string) : option bool :=
  match fst (settings.Settings_read name r) with
  | Ok (settings.Setting setting) =>
      Some (settings.SingleSetting_bool setting)
  | _ => None
  end.

(** The booleans the navigation code reads off the settings. *)
Definition navigation_settings (r : settings.Registry)
  : option word_navigate.Settings :=
  match truth r "use_index", truth r "allow_multiple_words",
        truth r "expand_first", truth r "wrap_buffer", truth r "wrap_line",
        truth r "case_sensitive" with
  | Some use_index, Some allow_multiple_words, Some expand_first,
    Some wrap_buffer, Some wrap_line, Some case_sensitive =>
      Some (word_navigate.mkSettings use_index allow_multiple_words
              expand_first wrap_buffer wrap_line case_sensitive)
  | _, _, _, _, _, _ => None
  end.

End plugin_settings.

(** ** python/sublime_util/log.py: the listener of the log level *)

Module log.

(** The level of the package logger, the level of the root logger it
    falls back to while its own is [NOTSET], and the records that passed
    the level test. *)
Record State : Type := mkState {
  package_level : Z;
  root_level : Z;
  emitted : list logging.record
}.

Definition DEBUG : Z := 10.
Definition INFO : Z := 20.
Definition WARNING : Z := 30.
Definition ERROR : Z := 40.
Definition CRITICAL : Z := 50.
Definition NOTSET : Z := 0.

(** [getattr(logging, name)] for a [name] in upper case: the level
    constants and [BASIC_FORMAT] are the upper-case attributes of the
    module. *)
Definition logging_getattr (name : string) : result pyval :=
  if String.eqb name "DEBUG" then Ok (VInt DEBUG)
  else if String.eqb name "INFO" then Ok (VInt INFO)
  else if String.eqb name "WARNING" then Ok (VInt WARNING)
  else if String.eqb name "WARN" then Ok (VInt WARNING)
  else if String.eqb name "ERROR" then Ok (VInt ERROR)
  else if String.eqb name "CRITICAL" then Ok (VInt CRITICAL)
  else if String.eqb name "FATAL" then Ok (VInt CRITICAL)
  else if String.eqb name "NOTSET" then Ok (VInt NOTSET)
  else if String.eqb name "BASIC_FORMAT"
  then Ok (VStr "%(levelname)s:%(name)s:%(message)s")
  else Raise (AttributeError
                ("module 'logging' has no attribute '" ^^ name ^^ "'")).

(** [getattr(logging, val.upper())] *)
Definition level_of (val : pyval) : M State pyval :=
  match val with
  | VStr s =>
      match logging_getattr (pystr.upper s) with
      | Ok v => ret v
      | Raise e => raise e
      end
  | _ => raise (AttributeError "object has no attribute 'upper'")
  end.

(** [level > _settings_change_dbg_lvl] *)
Definition above (level : pyval) (bound : Z) : M State bool :=
  match level with
  | VInt n => ret (n >? bound)
  | VBool bv => ret ((if bv then 1 else 0) >? bound)
  | _ => raise (TypeError "'>' not supported between instances")
  end.

(** [package_logger.setLevel(level)] *)
Definition setLevel (level : pyval) : M State unit :=
  match level with
  | VInt n =>
      modify (fun st => mkState n (root_level st) (emitted st))
  | VBool bv =>
      modify (fun st => mkState (if bv then 1 else 0) (root_level st)
                          (emitted st))
  | VStr s => raise (ValueError ("Unknown level: '" ^^ s ^^ "'"))
  | VNone => raise (TypeError "Level not an integer or a valid string: None")
  end.

(** The level a logger of the package works at. *)
Definition effective_level (st : State) : Z :=
  if package_level st =? NOTSET then root_level st else package_level st.

(** [logger.log(level, msg)] *)
Definition logger_log (level : Z) (lvl : logging.level) (msg : string)
  : M State unit :=
  st <- get ;;
  if level >=? effective_level st then
    put (mkState (package_level st) (root_level st)
           (emitted st ++ [logging.mk lvl msg]))
  else ret tt.

Definition _on_log_lvl_change (name : string) (old_val new_val : pyval)
  : M State unit :=
  old_val_level <- level_of old_val ;;
  new_val_level <- level_of new_val ;;
  let _settings_change_dbg_lvl := INFO in
  old_above <- above old_val_level _settings_change_dbg_lvl ;;
  update_level <-
    (if old_above then
       new_above <- above new_val_level _settings_change_dbg_lvl ;;
       if new_above then
         setLevel (VInt _settings_change_dbg_lvl) ;;;
         ret true
       else
         setLevel new_val_level ;;;
         ret false
     else ret true) ;;
  logger_log _settings_change_dbg_lvl logging.INFO
    ("Changing log level from " ^^ pystr.str old_val ^^ " to "
       ^^ pystr.str new_val ^^ ".") ;;;
  if update_level then setLevel new_val_level else ret tt.

End log.

(** ** A reference host: a view over a plain text buffer

    The host is external to the plugin.  This model of it follows the
    documented behaviour of the Sublime Text API on a buffer of ASCII
    characters whose words are the maximal runs of letters, digits and
    underscores.  It is the host the concrete scenarios below run on. *)

Module TextHost.

Definition is_word_char (c : ascii) : bool :=
  let n := nat_of_ascii c in
  ((48 <=? n) && (n <=? 57) || (65 <=? n) && (n <=? 90)
   || (97 <=? n) && (n <=? 122) || (n =? 95))%nat.

Definition newline : ascii := ascii_of_nat 10.

Definition char_at (buf : list ascii) (p : Z) : option ascii :=
  if p <? 0 then None else List.nth_error buf (Z.to_nat p).

(** Whether offset [p] holds a word character. *)
Definition word_at (buf : list ascii) (p : Z) : bool :=
  match char_at buf p with
  | Some c => is_word_char c
  | None => false
  end.

Definition size (buf : list ascii) : Z := Z.of_nat (List.length buf).

(** [view.classify(pt)], restricted to the two word classes. *)
Definition classify (buf : list ascii) (pt : Z) : Z :=
  Z.lor
    (if negb (word_at buf (pt - 1)) && word_at buf pt
     then WORD_START else 0)
    (if word_at buf (pt - 1) && negb (word_at buf pt)
     then WORD_END else 0).

(** Whether the class of offset [q] meets [classes]. *)
Definition hit (buf : list ascii) (classes : Z) (q : nat) : bool :=
  has (classify buf (Z.of_nat q)) classes.

(** [view.find_by_class(pt, forward, classes)]: the first offset
    strictly beyond [pt] whose class meets [classes]; the end of the
    buffer (forward) or its start (backward) when there is none. *)
Definition find_by_class (buf : list ascii) (pt : Z) (forward : bool)
    (classes : Z) : Z :=
  if forward then
    let from := Z.to_nat (pt + 1) in
    match List.find (hit buf classes)
            (List.seq from (List.length buf - from)) with
    | Some q => Z.of_nat q
    | None => size buf
    end
  else
    let upto := Z.to_nat (Z.min pt (size buf + 1)) in
    match List.find (hit buf classes) (List.rev (List.seq 0 upto)) with
    | Some q => Z.of_nat q
    | None => 0
    end.

(** [view.expand_by_class(pt, classes)] *)
Definition expand_by_class (buf : list ascii) (pt : Z) (classes : Z)
  : Region :=
  mkRegion (find_by_class buf pt false classes)
           (find_by_class buf pt true classes).

Fixpoint rowcol_from (l : list ascii) (n : nat) (row col : Z) : Z * Z :=
  match n, l with
  | S n', c :: l' =>
      if Ascii.eqb c newline then rowcol_from l' n' (row + 1) 0
      else rowcol_from l' n' row (col + 1)
  | _, _ => (row, col)
  end.

(** [view.rowcol(pt)] *)
Definition rowcol (buf : list ascii) (pt : Z) : Z * Z :=
  rowcol_from buf (Z.to_nat pt) 0 0.

Fixpoint row_start (l : list ascii) (row : nat) (off : Z) : Z :=
  match l with
  | [] => off
  | c :: l' =>
      match row with
      | O => off
      | S r =>
          if Ascii.eqb c newline then row_start l' r (off + 1)
          else row_start l' row (off + 1)
      end
  end.

(** [view.text_point(row, col)] *)
Definition text_point (buf : list ascii) (row col : Z) : Z :=
  Z.min (size buf) (row_start buf (Z.to_nat row) 0 + col).

Definition slice (buf : list ascii) (from to : Z) : list ascii :=
  List.firstn (Z.to_nat to - Z.to_nat from)
    (List.skipn (Z.to_nat from) buf).

(** [view.substr(region)] *)
Definition substr (buf : list ascii) (r : Region) : string :=
  string_of_list_ascii (slice buf (begin r) (end_ r)).

(** The maximal word runs [(from, to)] of the buffer, in order. *)
Fixpoint word_runs (l : list ascii) (pos : Z) (open : option Z)
  : list Region :=
  match l with
  | [] =>
      match open with
      | Some from => [mkRegion from pos]
      | None => []
      end
  | c :: l' =>
      if is_word_char c then
        word_runs l' (pos + 1)
          (match open with Some from => Some from | None => Some pos end)
      else
        match open with
        | Some from => mkRegion from pos :: word_runs l' (pos + 1) None
        | None => word_runs l' (pos + 1) None
        end
  end.

(** [view.word(region)]: both ends moved outwards to the boundaries of
    the words they cut. *)
Definition word (buf : list ascii) (r : Region) : Region :=
  let inside (p : Z) := word_at buf (p - 1) && word_at buf p in
  mkRegion
    (if inside (begin r)
     then find_by_class buf (begin r) false WORD_START else begin r)
    (if inside (end_ r)
     then find_by_class buf (end_ r) true WORD_END else end_ r).

(** The literal between the two [\b] of a whole-word pattern. *)
Definition whole_word_literal (regex : string) : option string :=
  let n := String.length regex in
  if (pystr.prefix "\b" regex
      && String.eqb (String.substring (n - 2) 2 regex) "\b"
      && (4 <=? n))%nat
  then Some (String.substring 2 (n - 4) regex)
  else None.

Definition all_word_chars (s : string) : bool :=
  List.forallb is_word_char (list_ascii_of_string s).

Definition same_text (ignore_case : bool) (s t : string) : bool :=
  if ignore_case then String.eqb (pystr.lower s) (pystr.lower t)
  else String.eqb s t.

Definition not_found : Region := mkRegion (-1) (-1).

(** [view.find(regex, pt, flags)] for the patterns [\bWORD\b] with a
    [WORD] of word characters: the nearest whole word equal to [WORD]
    that starts at or after [pt], or with the [REVERSE] flag ends at or
    before it; with [WRAP] the search goes on from the other end of the
    buffer.  [(-1, -1)] when there is no match. *)
Definition find (buf : list ascii) (regex : string) (pt flags : Z)
  : Region :=
  match whole_word_literal regex with
  | None => not_found
  | Some w =>
      if negb (all_word_chars w) then not_found
      else
        let matches :=
          List.filter
            (fun r => same_text (has flags IGNORECASE) (substr buf r) w)
            (word_runs buf 0 None) in
        if has flags REVERSE then
          let before := List.filter (fun r => b r <=? pt) matches in
          match List.rev before, List.rev matches with
          | r :: _, _ => r
          | [], r :: _ => if has flags WRAP then r else not_found
          | [], [] => not_found
          end
        else
          let after := List.filter (fun r => pt <=? a r) matches in
          match after, matches with
          | r :: _, _ => r
          | [], r :: _ => if has flags WRAP then r else not_found
          | [], [] => not_found
          end
  end.

(** [view.find_all(regex, flags, within=region)] for the word pattern:
    the words lying inside [within], in buffer order. *)
Definition find_all (buf : list ascii) (regex : string) (flags : Z)
    (within : Region) : list Region :=
  if String.eqb regex view_util.word_regex then
    List.filter
      (fun r => (begin within <=? a r) && (b r <=? end_ within))
      (word_runs buf 0 None)
  else [].

(** The view over the text [text]. *)
Definition view (text : string) : View :=
  let buf := list_ascii_of_string text in
  mkView (size buf) 1 (classify buf) (find_by_class buf)
    (expand_by_class buf) (rowcol buf) (text_point buf) (substr buf)
    (word buf) (find buf) (find_all buf).

End TextHost.

(** * The vocabulary of the properties *)

(** Whether a point starts a word, ends a word. *)
Definition starts_word (v : View) (p : Z) : bool :=
  has (classify v p) WORD_START.
Definition ends_word (v : View) (p : Z) : bool :=
  has (classify v p) WORD_END.

(** The classes of a word boundary. *)
Definition word_boundary : Z := Z.lor WORD_START WORD_END.

(** What the classifier relies on from the host: a point is not both the
    start and the end of a word, a word starts before the end of the
    buffer, and the forward boundary search returns the first point
    strictly beyond its origin that meets the classes, or the end of the
    buffer. *)
Record WordClassLaws (v : View) : Prop := mkWordClassLaws {
  start_excludes_end : forall p,
    has (classify v p) WORD_START = true ->
    has (classify v p) WORD_END = false;
  start_inside : forall p,
    has (classify v p) WORD_START = true -> p < size v;
  forward_le_size : forall p c, find_by_class v p true c <= size v;
  forward_progress : forall p c,
    p < size v -> p < find_by_class v p true c;
  forward_at_end : forall p c,
    size v <= p -> find_by_class v p true c = size v;
  forward_hit : forall p c,
    find_by_class v p true c < size v ->
    has (classify v (find_by_class v p true c)) c = true;
  forward_first : forall p c q,
    p < q < find_by_class v p true c -> has (classify v q) c = false
}.

(** The four category tests of a region, in the order the navigation
    policy asks them. *)
Definition categories (v : View) (r : Region) : list bool :=
  [ view_util.is_not_part_of_any_word v r;
    view_util.is_single_complete_word v r;
    view_util.is_multiple_complete_words v r;
    view_util.is_part_of_multiple_words v r ].

(** Exactly one test of a list holds. *)
Definition exactly_one (l : list bool) : bool :=
  (List.length (List.filter (fun x => x) l) =? 1)%nat.

(** The state after [records] were logged. *)
Definition logged (st : NavState) (records : list logging.record)
  : NavState :=
  mkNavState (sel st) (log st ++ records) (effects st).

Definition multiple_regions_warning : logging.record :=
  logging.mk logging.WARNING "Multiple regions selected - doing nothing.".

(** The region the directional locator gives for a caret. *)
Definition directional_word (v : View) (caret_pt : Z) (forward : bool)
  : Region :=
  if forward then view_util.get_next_word_region_from_pt v caret_pt false
  else view_util.get_previous_word_region_from_pt v caret_pt false.

Definition finding_record (line col : Z) : logging.record :=
  logging.mk logging.DEBUG
    ("Finding closest word in line from " ^^ pystr.of_Z (line + 1) ^^ ":"
       ^^ pystr.of_Z col ^^ ".").

Definition searching_record (v : View) (forward : bool) (line col : Z)
  : logging.record :=
  logging.mk logging.DEBUG
    ("Searching region "
       ^^ Region_str (view_util.line_region v forward line col) ^^ " ('"
       ^^ substr v (view_util.line_region v forward line col) ^^ "').").

Definition no_region_record : logging.record :=
  logging.mk logging.DEBUG "No region found.".

(** The words the in-line search finds from a line and column. *)
Definition words_in_line (v : View) (forward : bool) (line col : Z)
  : list Region :=
  find_all v view_util.word_regex (view_util.line_flags forward)
    (view_util.line_region v forward line col).

(** Every match the host reports runs forward. *)
Definition host_matches_forward (v : View) : Prop :=
  forall regex flags within m,
    In m (find_all v regex flags within) -> a m <= b m.

(** The keys of a dict are distinct. *)
Definition unique_tags (d : list (string * settings.callback)) : Prop :=
  NoDup (List.map fst d).

(** The listeners called by [notify], in dict order. *)
Definition notifications (items : list (string * settings.callback))
    (name : string) (old new : pyval) : list settings.invocation :=
  List.map (fun kv => settings.mkInvocation (fst kv) (snd kv) name old new)
    items.

(** The invocations made on behalf of one tag. *)
Definition invocations_of (tag : string) (l : list settings.invocation)
  : list settings.invocation :=
  List.filter (fun i => String.eqb (settings.inv_tag i) tag) l.

(** The guard of [_update]: the raw value and the stored value differ as
    lower-cased strings. *)
Definition differs (raw stored : pyval) : bool :=
  negb (String.eqb (pystr.lower (pystr.str raw))
                   (pystr.lower (pystr.str stored))).

Definition changed_record (name : string) (old new : pyval)
  : logging.record :=
  logging.mk logging.DEBUG
    ("Changed setting '" ^^ name ^^ "' from '" ^^ pystr.str old ^^ "' to '"
       ^^ pystr.str new ^^ "'.").

Definition not_supported (s : settings.SingleSetting) (raw : pyval) : exn :=
  ValueError
    ("Value '" ^^ pystr.str raw ^^ "' for setting '" ^^ settings._name s
       ^^ "' not supported. " ^^ "Allowed values are "
       ^^ validators.allowed_values_as_string (settings._validator s) ^^ ".").

(** Two setting objects that differ at most in the value they hold. *)
Definition same_setup (s s' : settings.SingleSetting) : Prop :=
  settings._name s' = settings._name s
  /\ settings._validator s' = settings._validator s
  /\ settings._callbacks s' = settings._callbacks s.

(** The settings file holds nothing for the setting, or a value that is
    the stored one up to case, or a value the validator accepts. *)
Definition loads (file : settings.SettingsFile)
    (item : string * settings.SingleSetting) : Prop :=
  match file (fst item) with
  | None => True
  | Some v =>
      differs v (settings._value (snd item)) = false
      \/ exists enc,
           validators.validate (settings._validator (snd item)) v
           = Ok (Some enc)
  end.

(** The value a setting holds after a reload that went through. *)
Definition loaded (file : settings.SettingsFile)
    (item : string * settings.SingleSetting) : pyval :=
  match file (fst item) with
  | None => settings._value (snd item)
  | Some v =>
      if differs v (settings._value (snd item)) then
        match validators.validate (settings._validator (snd item)) v with
        | Ok (Some enc) => enc
        | _ => settings._value (snd item)
        end
      else settings._value (snd item)
  end.

(** An item and what a reload made of it: the same key and setup, and the
    same setting when the file holds nothing for the key. *)
Definition reloaded (file : settings.SettingsFile)
    (old new : string * settings.SingleSetting) : Prop :=
  fst new = fst old
  /\ same_setup (snd old) (snd new)
  /\ (file (fst old) = None -> snd new = snd old).

(** The file holds nothing for the item that differs from its value. *)
Definition settled (file : settings.SettingsFile)
    (item : string * settings.SingleSetting) : Prop :=
  match file (fst item) with
  | None => True
  | Some v => differs v (settings._value (snd item)) = false
  end.

(** A registry of two boolean settings, and a settings file that names
    the second one. *)
Definition two_settings (first second : pyval) : settings.Registry :=
  settings.mkRegistry
    [("wrap_buffer",
      settings.mkSingleSetting "wrap_buffer" first
        validators.BooleanValidator []);
     ("wrap_line",
      settings.mkSingleSetting "wrap_line" second
        validators.BooleanValidator [("view", settings.mkCallback 1)])]
    [] [].

Definition file_of (name : string) (value : pyval) : settings.SettingsFile :=
  fun k => if String.eqb k name then Some value else None.

(** The names of the settings of the plugin, in the order they are added. *)
Definition setting_names : list string :=
  ["log_level"; "use_index"; "allow_multiple_words"; "expand_first";
   "wrap_buffer"; "wrap_line"; "case_sensitive"].

(** The number of the level a setting value names. *)
Definition level_value (name : string) : Z :=
  match log.logging_getattr (pystr.upper name) with
  | Ok (VInt n) => n
  | _ => log.NOTSET
  end.

(** The record the listener of the log level announces a change with. *)
Definition level_change_record (old new : string) : logging.record :=
  logging.mk logging.INFO
    ("Changing log level from " ^^ old ^^ " to " ^^ new ^^ ".").

(** What the index lookup of the navigation yields, [None] when the index
    is not used or the lookup raises [KeyError], and what it logs. *)
Definition index_of (v : View) (settings : word_navigate.Settings)
    (get_index : Z -> index.lookup) : pyval * list logging.record :=
  if word_navigate.use_index settings then
    match get_index (buffer_id v) with
    | index.returns idx => (idx, [])
    | index.raises_KeyError e =>
        (VNone,
         [logging.mk logging.WARNING ("Failed getting index: " ^^ e)])
    end
  else (VNone, []).

(** The region the host finds for the word in [word_region]. *)
Definition found_region (v : View) (settings : word_navigate.Settings)
    (word_region : Region) (forward : bool) : Region :=
  find v (view_util.search_regex (substr v word_region))
    (view_util.search_point word_region forward)
    (view_util.search_flags forward (word_navigate.wrap_buffer settings)
       (word_navigate.case_sensitive settings)).

(** The record both searches log for the word they found. *)
Definition adjacent_record (v : View) (forward : bool) (region : Region)
  : logging.record :=
  logging.mk logging.DEBUG
    ((if forward then "Next" else "Previous") ^^ " word is '"
       ^^ substr v region ^^ "' ("
       ^^ pystr.of_Z (fst (rowcol v (begin region)) + 1) ^^ ", ["
       ^^ pystr.of_Z (snd (rowcol v (begin region)) + 1) ^^ ":"
       ^^ pystr.of_Z (snd (rowcol v (end_ region))) ^^ "]).").

(** The record the navigation logs for the region it applies. *)
Definition applied_record (v : View) (forward : bool) (region : Region)
  : logging.record :=
  logging.mk logging.DEBUG
    ((if forward then "Next" else "Previous") ^^ " word is '"
       ^^ substr v region ^^ "'.").

Definition not_implemented_record : logging.record :=
  logging.mk logging.WARNING "Not implemented.".

Definition no_index_record : logging.record :=
  logging.mk logging.DEBUG "No index - navigating manually.".

(** What a navigation may do to the state: add records to the log, add
    requests to the viewport, and replace the selection by one region. *)
Definition extends (st st' : NavState) : Prop :=
  (exists records, log st' = log st ++ records)
  /\ (exists requests, effects st' = effects st ++ requests)
  /\ (sel st' = sel st \/ exists r, sel st' = [r]).

Definition index_error : exn := IndexError "list index out of range".

Definition is_single_word_error : exn :=
  AttributeError "module 'view' has no attribute 'is_single_word'".

(** Whether the classification hands a word region to the search. *)
Definition hands_to_search (p : word_navigate.pivot) : bool :=
  match p with
  | word_navigate.WordRegion _ => true
  | word_navigate.Return _ => false
  end.

(** The region is a maximal run of word characters of the buffer. *)
Definition is_word_run (buf : list ascii) (r : Region) : Prop :=
  begin r < end_ r
  /\ (forall p, begin r <= p < end_ r -> TextHost.word_at buf p = true)
  /\ TextHost.word_at buf (begin r - 1) = false
  /\ TextHost.word_at buf (end_ r) = false.

(** The record [_on_settings_change] starts with. *)
Definition reloading_record : logging.record :=
  logging.mk logging.DEBUG "Reloading settings.".

(** The names of the levels a [LogLevelSetting] allows. *)
Definition level_names : list string := ["debug"; "info"; "warning"; "error"].

(** * Properties *)

(** ** Flags *)

Lemma has_lor (x m1 m2 : Z) : has x (Z.lor m1 m2) = has x m1 || has x m2.
Proof.
  unfold has. rewrite Z.land_lor_distr_r.
  destruct (Z.land x m1 =? 0) eqn:E1, (Z.land x m2 =? 0) eqn:E2; simpl;
    rewrite ?Z.eqb_eq, ?Z.eqb_neq in *.
  - rewrite E1, E2. reflexivity.
  - apply negb_true_iff, Z.eqb_neq. rewrite Z.lor_eq_0_iff. tauto.
  - apply negb_true_iff, Z.eqb_neq. rewrite Z.lor_eq_0_iff. tauto.
  - apply negb_true_iff, Z.eqb_neq. rewrite Z.lor_eq_0_iff. tauto.
Qed.

Lemma begin_le_end (r : Region) : begin r <= end_ r.
Proof. unfold begin, end_. lia. Qed.

Lemma empty_begin_end (r : Region) : empty r = true -> end_ r = begin r.
Proof. unfold empty, begin, end_. rewrite Z.eqb_eq. lia. Qed.

(** ** The region classifier (view.py, lines 120-223) *)

Section Classifier.

Variable v : View.
Hypothesis laws : WordClassLaws v.

Lemma forward_ge (p c : Z) :
  p <= size v -> p <= find_by_class v p true c.
Proof.
  intros Hp. destruct (Z.eq_dec p (size v)) as [->|Hne].
  - rewrite (forward_at_end v laws) by lia. lia.
  - pose proof (forward_progress v laws p c). lia.
Qed.

(** The first word_boundary after a point is not beyond the first word end
    after it. *)
Lemma boundary_before_word_end (p : Z) :
  find_by_class v p true word_boundary <= find_by_class v p true WORD_END.
Proof.
  set (x := find_by_class v p true word_boundary).
  set (e := find_by_class v p true WORD_END).
  destruct (Z_le_gt_dec x e) as [|Hgt]; [assumption|exfalso].
  pose proof (forward_le_size v laws p word_boundary) as Hx. fold x in Hx.
  assert (He : has (classify v e) WORD_END = true)
    by (apply (forward_hit v laws); fold e; lia).
  destruct (Z_lt_le_dec p e) as [Hpe|Hpe].
  - pose proof (forward_first v laws p word_boundary e) as Hf.
    fold x in Hf. unfold word_boundary in Hf. rewrite has_lor, He in Hf.
    rewrite orb_true_r in Hf. assert (true = false) by (apply Hf; lia).
    discriminate.
  - destruct (Z_lt_le_dec p (size v)) as [Hps|Hps].
    + pose proof (forward_progress v laws p WORD_END Hps) as Hp.
      fold e in Hp. lia.
    + pose proof (forward_at_end v laws p WORD_END Hps) as Hp.
      fold e in Hp. lia.
Qed.

(** A word_boundary strictly beyond [p] bounds the forward search from [p]. *)
Lemma forward_bounded (p q c : Z) :
  p < q -> has (classify v q) c = true -> find_by_class v p true c <= q.
Proof.
  intros Hpq Hq.
  destruct (Z_le_gt_dec (find_by_class v p true c) q) as [|Hgt];
    [assumption|exfalso].
  rewrite (forward_first v laws p c q) in Hq by lia. discriminate.
Qed.

(** The second disjunct of [is_not_part_of_any_word]. *)
Lemma no_word_cases (r : Region) :
  view_util.is_not_part_of_any_word v r = true ->
  (starts_word v (begin r) = true /\ empty r = true) \/
  (starts_word v (find_by_class v (begin r) true word_boundary) = true /\
   end_ r <= find_by_class v (begin r) true word_boundary).
Proof.
  unfold view_util.is_not_part_of_any_word. fold (starts_word v (begin r)).
  destruct (starts_word v (begin r) && empty r) eqn:H1.
  - apply andb_true_iff in H1. intros _. left. exact H1.
  - fold word_boundary. fold (starts_word v (find_by_class v (begin r) true word_boundary)).
    destruct (starts_word v (find_by_class v (begin r) true word_boundary)) eqn:Hx;
      [|discriminate].
    destruct (find_by_class v (begin r) true word_boundary >=? end_ r) eqn:Hge;
      [|discriminate].
    intros _. right. split; [reflexivity|]. apply Z.geb_le in Hge. lia.
Qed.

Lemma single_cases (r : Region) :
  view_util.is_single_complete_word v r = true ->
  starts_word v (begin r) = true /\ find_by_class v (begin r) true WORD_END = end_ r.
Proof.
  unfold view_util.is_single_complete_word. fold (starts_word v (begin r)).
  destruct (starts_word v (begin r)); [|discriminate].
  rewrite Z.eqb_eq. auto.
Qed.

Lemma multiple_cases (r : Region) :
  view_util.is_multiple_complete_words v r = true ->
  starts_word v (begin r) = true /\ ends_word v (end_ r) = true /\
  view_util.is_single_complete_word v r = false.
Proof.
  unfold view_util.is_multiple_complete_words.
  fold (starts_word v (begin r)) (ends_word v (end_ r)).
  destruct (starts_word v (begin r)); [|discriminate].
  destruct (ends_word v (end_ r)); [|discriminate].
  rewrite negb_true_iff. auto.
Qed.

Lemma part_cases (r : Region) :
  view_util.is_part_of_multiple_words v r = true ->
  find_by_class v (find_by_class v (begin r) true WORD_END) true WORD_START
    < end_ r.
Proof.
  unfold view_util.is_part_of_multiple_words. intros H.
  apply Z.geb_le in H. lia.
Qed.

Lemma no_word_not_single (r : Region) :
  view_util.is_not_part_of_any_word v r = true ->
  view_util.is_single_complete_word v r = false.
Proof.
  intros Hn. destruct (view_util.is_single_complete_word v r) eqn:Hs;
    [exfalso|reflexivity].
  apply single_cases in Hs. destruct Hs as [Hb He].
  pose proof (start_inside v laws _ Hb) as Hbs.
  pose proof (forward_progress v laws (begin r) WORD_END Hbs) as Hp.
  apply no_word_cases in Hn. destruct Hn as [[_ Hemp]|[Hx Hge]].
  - apply empty_begin_end in Hemp. lia.
  - pose proof (boundary_before_word_end (begin r)) as Hle.
    pose proof (start_inside v laws _ Hx) as Hxs.
    assert (Heq : find_by_class v (begin r) true word_boundary = end_ r) by lia.
    rewrite Heq in Hx.
    assert (Hend : has (classify v (end_ r)) WORD_END = true).
    { rewrite <- He. apply (forward_hit v laws). lia. }
    rewrite (start_excludes_end v laws _ Hx) in Hend. discriminate.
Qed.

Lemma no_word_not_multiple (r : Region) :
  view_util.is_not_part_of_any_word v r = true ->
  view_util.is_multiple_complete_words v r = false.
Proof.
  intros Hn. destruct (view_util.is_multiple_complete_words v r) eqn:Hm;
    [exfalso|reflexivity].
  apply multiple_cases in Hm. destruct Hm as (Hb & He & _).
  pose proof (start_excludes_end v laws _ Hb) as Hbe. fold (ends_word v (begin r)) in Hbe.
  apply no_word_cases in Hn. destruct Hn as [[_ Hemp]|[Hx Hge]].
  - apply empty_begin_end in Hemp. rewrite Hemp in He. congruence.
  - assert (Hlt : begin r < end_ r).
    { pose proof (begin_le_end r).
      destruct (Z.eq_dec (begin r) (end_ r)) as [Heq|]; [|lia].
      rewrite <- Heq in He. congruence. }
    assert (Hbd : has (classify v (end_ r)) word_boundary = true).
    { unfold word_boundary. rewrite has_lor. fold (ends_word v (end_ r)). rewrite He.
      apply orb_true_r. }
    pose proof (forward_bounded _ _ _ Hlt Hbd) as Hle.
    assert (Heq : find_by_class v (begin r) true word_boundary = end_ r) by lia.
    rewrite Heq in Hx.
    pose proof (start_excludes_end v laws _ Hx) as Hc.
    fold (ends_word v (end_ r)) in Hc. congruence.
Qed.

Lemma no_word_not_part (r : Region) :
  view_util.is_not_part_of_any_word v r = true ->
  view_util.is_part_of_multiple_words v r = false.
Proof.
  intros Hn. destruct (view_util.is_part_of_multiple_words v r) eqn:Hp;
    [exfalso|reflexivity].
  apply part_cases in Hp.
  set (ep := find_by_class v (begin r) true WORD_END) in *.
  pose proof (forward_le_size v laws (begin r) WORD_END) as Hep.
  fold ep in Hep.
  pose proof (forward_ge ep WORD_START Hep) as Hsp.
  apply no_word_cases in Hn. destruct Hn as [[Hb Hemp]|[Hx Hge]].
  - apply empty_begin_end in Hemp.
    pose proof (start_inside v laws _ Hb) as Hbs.
    pose proof (forward_progress v laws (begin r) WORD_END Hbs) as Hgt.
    fold ep in Hgt. lia.
  - pose proof (boundary_before_word_end (begin r)) as Hle.
    fold ep in Hle. lia.
Qed.

Lemma single_not_multiple (r : Region) :
  view_util.is_single_complete_word v r = true ->
  view_util.is_multiple_complete_words v r = false.
Proof.
  intros Hs. destruct (view_util.is_multiple_complete_words v r) eqn:Hm;
    [|reflexivity].
  apply multiple_cases in Hm. destruct Hm as (_ & _ & Hm). congruence.
Qed.

Lemma single_not_part (r : Region) :
  view_util.is_single_complete_word v r = true ->
  view_util.is_part_of_multiple_words v r = false.
Proof.
  intros Hs. destruct (view_util.is_part_of_multiple_words v r) eqn:Hp;
    [exfalso|reflexivity].
  apply part_cases in Hp. apply single_cases in Hs. destruct Hs as [_ He].
  rewrite He in Hp.
  pose proof (forward_le_size v laws (begin r) WORD_END) as Hep.
  rewrite He in Hep.
  pose proof (forward_ge (end_ r) WORD_START Hep). lia.
Qed.

End Classifier.

(** ** The reference host obeys the word-class laws *)

Section TextHostLaws.

Variable buf : list ascii.

Lemma word_at_inside (p : Z) :
  TextHost.word_at buf p = true -> 0 <= p < TextHost.size buf.
Proof.
  unfold TextHost.word_at, TextHost.char_at, TextHost.size.
  destruct (p <? 0) eqn:Hneg; [discriminate|].
  apply Z.ltb_ge in Hneg.
  destruct (nth_error buf (Z.to_nat p)) eqn:Hn; [|discriminate].
  intros _. assert (Hlt : (Z.to_nat p < List.length buf)%nat).
  { apply nth_error_Some. congruence. }
  lia.
Qed.

Lemma classify_start (p : Z) :
  has (TextHost.classify buf p) WORD_START = true ->
  TextHost.word_at buf (p - 1) = false /\ TextHost.word_at buf p = true.
Proof.
  unfold TextHost.classify.
  destruct (TextHost.word_at buf (p - 1)), (TextHost.word_at buf p);
    simpl; intros H; try discriminate; auto.
Qed.

Lemma classify_end (p : Z) :
  has (TextHost.classify buf p) WORD_END = true ->
  TextHost.word_at buf (p - 1) = true /\ TextHost.word_at buf p = false.
Proof.
  unfold TextHost.classify.
  destruct (TextHost.word_at buf (p - 1)), (TextHost.word_at buf p);
    simpl; intros H; try discriminate; auto.
Qed.

Lemma classify_negative (q c : Z) :
  q < 0 -> has (TextHost.classify buf q) c = false.
Proof.
  intros Hq. unfold TextHost.classify, TextHost.word_at, TextHost.char_at.
  assert (H1 : (q - 1 <? 0) = true) by (apply Z.ltb_lt; lia).
  assert (H2 : (q <? 0) = true) by (apply Z.ltb_lt; lia).
  rewrite H1, H2. reflexivity.
Qed.

(** [find] on an ascending range returns its first hit. *)
Lemma find_seq_first (f : nat -> bool) (len start x : nat) :
  List.find f (List.seq start len) = Some x ->
  (start <= x < start + len)%nat /\ f x = true /\
  forall y, (start <= y < x)%nat -> f y = false.
Proof.
  revert start. induction len as [|len IH]; intros start; simpl.
  - discriminate.
  - destruct (f start) eqn:Hf.
    + intros [= <-]. repeat split; try lia; assumption.
    + intros H. apply IH in H. destruct H as (Hr & Hx & Hy).
      repeat split; try lia; try assumption.
      intros y Hy'. destruct (Nat.eq_dec y start) as [->|]; [assumption|].
      apply Hy. lia.
Qed.

(** The forward search, read off its definition. *)
Lemma forward_spec (p c : Z) :
  let r := TextHost.find_by_class buf p true c in
  r <= TextHost.size buf /\
  (p < TextHost.size buf -> p < r) /\
  (TextHost.size buf <= p -> r = TextHost.size buf) /\
  (r < TextHost.size buf -> has (TextHost.classify buf r) c = true) /\
  (forall q, p < q < r -> has (TextHost.classify buf q) c = false).
Proof.
  unfold TextHost.find_by_class.
  set (from := Z.to_nat (p + 1)).
  destruct (List.find (TextHost.hit buf c)
              (List.seq from (List.length buf - from)))
    as [x|] eqn:Hfind; cbv zeta.
  - apply find_seq_first in Hfind. destruct Hfind as (Hr & Hx & Hy).
    unfold TextHost.size. repeat split.
    + lia.
    + intros _. lia.
    + intros Hp. lia.
    + intros _. exact Hx.
    + intros q Hq.
      destruct (Z_lt_le_dec q 0) as [Hneg|Hq0];
        [apply classify_negative; assumption|].
      specialize (Hy (Z.to_nat q)). unfold TextHost.hit in Hy.
      rewrite Z2Nat.id in Hy by assumption. apply Hy. lia.
  - unfold TextHost.size. repeat split; try lia.
    intros q Hq.
    destruct (Z_lt_le_dec q 0) as [Hneg|Hq0];
      [apply classify_negative; assumption|].
    pose proof (List.find_none _ _ Hfind (Z.to_nat q)) as Hn.
    unfold TextHost.hit in Hn. rewrite Z2Nat.id in Hn by assumption.
    apply Hn. apply in_seq. lia.
Qed.

End TextHostLaws.

Lemma TextHost_laws (text : string) : WordClassLaws (TextHost.view text).
Proof.
  set (buf := list_ascii_of_string text).
  constructor; simpl; fold buf.
  - intros p H. apply classify_start in H. destruct H as [H1 H2].
    unfold TextHost.classify. rewrite H1, H2. reflexivity.
  - intros p H. apply classify_start in H. destruct H as [_ H].
    apply word_at_inside in H. lia.
  - intros p c. apply (forward_spec buf p c).
  - intros p c. apply (forward_spec buf p c).
  - intros p c. apply (forward_spec buf p c).
  - intros p c. apply (forward_spec buf p c).
  - intros p c. apply (forward_spec buf p c).
Qed.

(** ** Running the monadic code *)

Ltac run :=
  unfold bind, ret, raise, get, put, modify, nav_log, nav_effect, view_sel,
    sel_item0, sel_clear, sel_add, word_navigate.debug,
    word_navigate.warning; simpl.

(** ** C1: the four categories of the region classifier *)

(** C1, as stated, fails on the buffer "flagpole banana".  The region
    "f[lagpole] banana" (offsets 1 to 8) is in none of the four
    categories, and the region "[flagpole banana]" (offsets 0 to 15) is in
    two of them: multiple-complete-words and partial-word-selection. *)
Lemma classifier_categories_gap_and_overlap :
  let v := TextHost.view "flagpole banana" in
  categories v (mkRegion 1 8) = [false; false; false; false] /\
  exactly_one (categories v (mkRegion 1 8)) = false /\
  categories v (mkRegion 0 15) = [false; false; true; true] /\
  exactly_one (categories v (mkRegion 0 15)) = false.
Proof. vm_compute. repeat split; reflexivity. Qed.

(** C1, amended.  On a host that obeys the word-class laws, for every region:
    no-word, single-complete-word and multiple-complete-words are pairwise
    exclusive, and no-word and single-complete-word each exclude the
    partial-word-selection test.  The four tests are not exhaustive: a
    region that passes none of them is the policy's fifth case, part of a
    single word, whose pivot is [view.word(region)]. *)
Theorem classifier_categories_exclusive (v : View) (laws : WordClassLaws v)
    (r : Region) :
  let no_word := view_util.is_not_part_of_any_word v r in
  let single := view_util.is_single_complete_word v r in
  let multiple := view_util.is_multiple_complete_words v r in
  let part := view_util.is_part_of_multiple_words v r in
  (no_word = true -> single = false /\ multiple = false /\ part = false) /\
  (single = true -> no_word = false /\ multiple = false /\ part = false) /\
  (multiple = true -> no_word = false /\ single = false) /\
  (no_word = false -> single = false -> multiple = false -> part = false ->
   forall settings forward st,
     fst (word_navigate.pivot_of_region v settings r forward st) =
     Ok (if word_navigate.expand_first settings
         then word_navigate.Return (word v r)
         else word_navigate.WordRegion (word v r))).
Proof.
  cbv zeta. repeat split.
  - apply no_word_not_single; assumption.
  - apply no_word_not_multiple; assumption.
  - apply no_word_not_part; assumption.
  - destruct (view_util.is_not_part_of_any_word v r) eqn:Hn; [|reflexivity].
    rewrite (no_word_not_single v laws r Hn) in H. discriminate.
  - apply single_not_multiple; assumption.
  - apply single_not_part; assumption.
  - destruct (view_util.is_not_part_of_any_word v r) eqn:Hn; [|reflexivity].
    rewrite (no_word_not_multiple v laws r Hn) in H. discriminate.
  - destruct (view_util.is_single_complete_word v r) eqn:Hs; [|reflexivity].
    rewrite (single_not_multiple v r Hs) in H. discriminate.
  - intros Hn Hs Hm Hp settings forward st.
    unfold word_navigate.pivot_of_region. rewrite Hn, Hs, Hm, Hp.
    destruct (word_navigate.expand_first settings); reflexivity.
Qed.

Lemma classifier_categories_exclusive_witness :
  let v := TextHost.view "flagpole banana" in
  let r := mkRegion 0 8 in
  WordClassLaws v /\
  view_util.is_single_complete_word v r = true /\
  view_util.is_not_part_of_any_word v r = false /\
  view_util.is_multiple_complete_words v r = false /\
  view_util.is_part_of_multiple_words v r = false.
Proof.
  cbv zeta. split; [apply TextHost_laws|].
  split; [vm_compute; reflexivity|].
  apply (classifier_categories_exclusive
           (TextHost.view "flagpole banana")
           (TextHost_laws "flagpole banana") (mkRegion 0 8)).
  vm_compute. reflexivity.
Defined.

(** ** The selection helpers on a known selection *)

Lemma multiple_regions_selected (st : NavState) :
  selection.is_multiple_regions_selected st =
  (Ok (1 <? Z.of_nat (List.length (sel st))), st).
Proof. reflexivity. Qed.

Lemma single_selected_region (st : NavState) (region : Region) :
  sel st = [region] ->
  selection.get_single_selected_region st = (Ok region, st).
Proof.
  intros H. unfold selection.get_single_selected_region,
    selection.is_multiple_regions_selected,
    selection.get_first_selected_region.
  run. rewrite H. simpl. rewrite H. reflexivity.
Qed.

Lemma caret_point_of_single (st : NavState) (region : Region) :
  sel st = [region] ->
  selection.get_caret_point st = (Ok (b region), st).
Proof.
  intros H. unfold selection.get_caret_point,
    selection.is_multiple_regions_selected, selection.get_caret_points.
  run. rewrite H. simpl. rewrite H. reflexivity.
Qed.

Lemma logged_nil (st : NavState) : logged st [] = st.
Proof. destruct st. unfold logged. simpl. rewrite app_nil_r. reflexivity. Qed.

Lemma logged_logged (st : NavState) (l1 l2 : list logging.record) :
  logged (logged st l1) l2 = logged st (l1 ++ l2).
Proof. unfold logged. simpl. rewrite app_assoc. reflexivity. Qed.

Lemma nav_log_logged (l : logging.level) (m : string) (st : NavState) :
  nav_log l m st = (Ok tt, logged st [logging.mk l m]).
Proof. reflexivity. Qed.

(** Applying a region to a non-empty selection. *)
Lemma select_and_zoom (v : View) (region r0 : Region) (rest : list Region)
    (st : NavState) :
  sel st = r0 :: rest ->
  selection.select_and_zoom_to_region v region st =
  (Ok tt,
   mkNavState [region] (log st)
     (effects st ++ [goto_line (fst (rowcol v (begin r0)));
                     show_at_center region])).
Proof.
  intros H. unfold selection.select_and_zoom_to_region. run. rewrite H.
  simpl. unfold modify. simpl. rewrite <- app_assoc. reflexivity.
Qed.

(** ** C2: same-word navigation from a no-word selection *)

(** C2, as stated, fails on the buffer "foo   bar bar" with the caret at
    offset 4, inside the blanks, going forward.  The word after the caret
    is "bar" at offsets 6 to 9 and the next occurrence of its text is at
    offsets 10 to 13; the code selects the word at 6 to 9 itself. *)
Lemma no_word_destination_is_not_searched :
  let v := TextHost.view "foo   bar bar" in
  let st := mkNavState [mkRegion 4 4] [] [] in
  let settings := word_navigate.default_settings in
  let get_index := fun _ : Z => index.raises_KeyError "1" in
  let pivot := view_util.get_next_word_region_from_pt v 4 false in
  view_util.is_not_part_of_any_word v (mkRegion 4 4) = true /\
  pivot = mkRegion 6 9 /\
  fst (view_util.get_region_of_closet_same_word v pivot true
         (word_navigate.wrap_buffer settings)
         (word_navigate.case_sensitive settings) st)
  = Ok (Some (mkRegion 10 13)) /\
  fst (word_navigate._get_region_of_word_closest_to_selection
         v settings get_index true st)
  = Ok (Some (mkRegion 6 9)) /\
  sel (snd (word_navigate.navigate_forward v settings get_index st))
  = [mkRegion 6 9].
Proof. vm_compute. repeat split; reflexivity. Qed.

(** C2, amended.  For every same-word navigation whose single selected
    region classifies as no-word, the region that the directional locator
    returns for the caret (the next word's when going forward, the
    previous word's when going backward) is itself the destination: it
    becomes the selection, and no same-word search is made. *)
Theorem no_word_destination (v : View) (settings : word_navigate.Settings)
    (get_index : Z -> index.lookup) (forward : bool) (st : NavState)
    (region : Region) :
  sel st = [region] ->
  view_util.is_not_part_of_any_word v region = true ->
  let dest := directional_word v (b region) forward in
  let found :=
    logged st [logging.mk logging.DEBUG
                 ("No word selected ('" ^^ substr v region
                    ^^ "') - finding closest.")] in
  word_navigate._get_region_of_word_closest_to_selection
    v settings get_index forward st = (Ok (Some dest), found) /\
  word_navigate._navigate v settings get_index forward st =
  (Ok tt,
   mkNavState [dest]
     (log found ++
        [logging.mk logging.DEBUG
           ((if forward then "Next" else "Previous") ^^ " word is '"
              ^^ substr v dest ^^ "'.")])
     (effects st ++ [goto_line (fst (rowcol v (begin region)));
                     show_at_center dest])).
Proof.
  intros Hsel Hno dest found.
  assert (Hget : word_navigate._get_region_of_word_closest_to_selection
                   v settings get_index forward st = (Ok (Some dest), found)).
  { unfold word_navigate._get_region_of_word_closest_to_selection.
    unfold bind at 1. rewrite multiple_regions_selected, Hsel. simpl.
    unfold bind at 1. rewrite (single_selected_region st region Hsel).
    unfold word_navigate._get_region_of_word_closest_to_region,
      word_navigate.pivot_of_region.
    rewrite Hno. unfold bind at 1. unfold bind at 1.
    unfold word_navigate.debug. rewrite nav_log_logged.
    unfold bind at 1.
    rewrite (caret_point_of_single _ region) by exact Hsel.
    unfold dest, directional_word. destruct forward; reflexivity. }
  split; [exact Hget|].
  unfold word_navigate._navigate. unfold bind at 1. rewrite Hget.
  unfold word_navigate.apply_region. unfold bind at 1.
  unfold word_navigate.debug.
  destruct forward; rewrite nav_log_logged;
    rewrite (select_and_zoom v dest region []) by exact Hsel;
    reflexivity.
Qed.

Lemma no_word_destination_witness :
  let v := TextHost.view "foo   bar bar" in
  let st := mkNavState [mkRegion 4 4] [] [] in
  sel (snd (word_navigate._navigate v word_navigate.default_settings
              (fun _ => index.raises_KeyError "1") true st))
  = [mkRegion 6 9].
Proof.
  cbv zeta.
  rewrite (proj2 (no_word_destination
                    (TextHost.view "foo   bar bar")
                    word_navigate.default_settings
                    (fun _ => index.raises_KeyError "1") true
                    (mkNavState [mkRegion 4 4] [] []) (mkRegion 4 4)
                    eq_refl eq_refl)).
  reflexivity.
Defined.

(** ** C5: several regions selected *)

Lemma count_app (l : logging.level) (l1 l2 : list logging.record) :
  logging.count l (l1 ++ l2) = (logging.count l l1 + logging.count l l2)%nat.
Proof.
  unfold logging.count. rewrite filter_app, length_app. reflexivity.
Qed.

Lemma multiple_is_true (st : NavState) :
  (1 < List.length (sel st))%nat ->
  selection.is_multiple_regions_selected st = (Ok true, st).
Proof.
  intros H. rewrite multiple_regions_selected.
  replace (1 <? Z.of_nat (List.length (sel st))) with true; [reflexivity|].
  symmetry. apply Z.ltb_lt. lia.
Qed.

(** C5.  When more than one region is selected, each of the four
    navigation functions returns normally, leaves the selection and the
    viewport as they were, and logs one record, a warning; each of the
    four window commands does the same after its INFO record. *)
Theorem multiple_regions_no_op (v : View)
    (settings : word_navigate.Settings) (get_index : Z -> index.lookup)
    (st : NavState) :
  (1 < List.length (sel st))%nat ->
  let warned := logged st [multiple_regions_warning] in
  let ran (m : string) :=
    logged st [logging.mk logging.INFO m; multiple_regions_warning] in
  (word_navigate.navigate_backward v settings get_index st = (Ok tt, warned)
   /\ word_navigate.navigate_forward v settings get_index st = (Ok tt, warned)
   /\ word_navigate.navigate_backward_in_line v settings st = (Ok tt, warned)
   /\ word_navigate.navigate_forward_in_line v settings st = (Ok tt, warned))
  /\ (sel warned = sel st /\ effects warned = effects st
      /\ logging.count logging.WARNING (log warned)
         = S (logging.count logging.WARNING (log st)))
  /\ (plugin.WordNavigatePreviousCommand_run v settings get_index st
      = (Ok tt, ran "Running command to find previous word.")
      /\ plugin.WordNavigateNextCommand_run v settings get_index st
         = (Ok tt, ran "Running command to find next word.")
      /\ plugin.WordNavigatePreviousInLineCommand_run v settings st
         = (Ok tt,
            ran "Running command to find previous word on the same line.")
      /\ plugin.WordNavigateNextInLineCommand_run v settings st
         = (Ok tt, ran "Running command to find next word on the same line."))
  /\ (forall m, sel (ran m) = sel st /\ effects (ran m) = effects st
                /\ logging.count logging.WARNING (log (ran m))
                   = S (logging.count logging.WARNING (log st))).
Proof.
  intros Hmulti warned ran.
  assert (Hnav : forall forward s, (1 < List.length (sel s))%nat ->
            word_navigate._navigate v settings get_index forward s
            = (Ok tt, logged s [multiple_regions_warning])).
  { intros forward s Hs. unfold word_navigate._navigate,
      word_navigate._get_region_of_word_closest_to_selection.
    unfold bind at 1. unfold bind at 1.
    rewrite (multiple_is_true s Hs). reflexivity. }
  assert (Hline : forall forward s, (1 < List.length (sel s))%nat ->
            word_navigate._navigate_in_line v settings forward s
            = (Ok tt, logged s [multiple_regions_warning])).
  { intros forward s Hs. unfold word_navigate._navigate_in_line,
      word_navigate._get_region_of_closest_word_in_line.
    unfold bind at 1. unfold bind at 1.
    rewrite (multiple_is_true s Hs). reflexivity. }
  assert (Hinfo : forall m,
            (1 < List.length (sel (logged st [logging.mk logging.INFO m])))%nat)
    by (intros m; exact Hmulti).
  split; [|split; [|split]].
  - unfold word_navigate.navigate_backward, word_navigate.navigate_forward,
      word_navigate.navigate_backward_in_line,
      word_navigate.navigate_forward_in_line.
    rewrite !Hnav, !Hline by assumption. repeat split.
  - repeat split. unfold warned, logged. simpl. rewrite count_app.
    unfold logging.count at 2, multiple_regions_warning. simpl. lia.
  - unfold plugin.WordNavigatePreviousCommand_run,
      plugin.WordNavigateNextCommand_run,
      plugin.WordNavigatePreviousInLineCommand_run,
      plugin.WordNavigateNextInLineCommand_run,
      word_navigate.navigate_backward, word_navigate.navigate_forward,
      word_navigate.navigate_backward_in_line,
      word_navigate.navigate_forward_in_line.
    unfold bind. rewrite !nav_log_logged.
    rewrite !Hnav, !Hline by apply Hinfo.
    rewrite !logged_logged. repeat split.
  - intros m. repeat split. unfold ran, logged. simpl. rewrite count_app.
    unfold logging.count at 2, multiple_regions_warning. simpl. lia.
Qed.

Lemma multiple_regions_no_op_witness :
  let v := TextHost.view "flagpole banana flagpole" in
  let st := mkNavState [mkRegion 0 8; mkRegion 16 24] [] [] in
  word_navigate.navigate_forward v word_navigate.default_settings
    (fun _ => index.raises_KeyError "1") st
  = (Ok tt, mkNavState [mkRegion 0 8; mkRegion 16 24]
              [multiple_regions_warning] []).
Proof.
  cbv zeta.
  refine (proj1 (proj2 (proj1
    (multiple_regions_no_op (TextHost.view "flagpole banana flagpole")
       word_navigate.default_settings (fun _ => index.raises_KeyError "1")
       (mkNavState [mkRegion 0 8; mkRegion 16 24] [] []) _)))).
  simpl. lia.
Defined.

(** ** C6: a same-word search that finds nothing *)

Lemma caret_point_state (st : NavState) :
  snd (selection.get_caret_point st) = st.
Proof.
  unfold selection.get_caret_point, selection.is_multiple_regions_selected,
    selection.get_caret_points.
  run. destruct (1 <? Z.of_nat (List.length (sel st))); simpl;
    [reflexivity|].
  destruct (List.map b (sel st)); reflexivity.
Qed.

(** The classification of the region only reads the selection and logs. *)
Lemma pivot_of_region_logs (v : View) (settings : word_navigate.Settings)
    (region : Region) (forward : bool) (st : NavState) :
  exists records,
    snd (word_navigate.pivot_of_region v settings region forward st)
    = logged st records.
Proof.
  unfold word_navigate.pivot_of_region.
  repeat match goal with
  | |- context [if ?c then _ else _] => destruct c
  end;
  unfold bind at 1; unfold word_navigate.debug; rewrite nav_log_logged;
  cbv beta iota;
  try (eexists; reflexivity);
  unfold bind at 1;
  match goal with
  | |- context [selection.get_caret_point ?s] =>
      pose proof (caret_point_state s) as Hc;
      destruct (selection.get_caret_point s) as [[p|e] s'];
      simpl in Hc; subst s'; eexists; reflexivity
  end.
Qed.

(** The search below the branch chain, when the host finds no match. *)
Lemma search_from_word_region_miss (v : View)
    (settings : word_navigate.Settings) (get_index : Z -> index.lookup)
    (w : Region) (forward : bool) (st : NavState) :
  empty (find v (view_util.search_regex (substr v w))
           (view_util.search_point w forward)
           (view_util.search_flags forward
              (word_navigate.wrap_buffer settings)
              (word_navigate.case_sensitive settings))) = true ->
  exists records,
    word_navigate.search_from_word_region v settings get_index w forward st
    = (Ok None, logged st records).
Proof.
  intros Hmiss. unfold word_navigate.search_from_word_region.
  assert (Hsearch : forall s,
    view_util.get_region_of_closet_same_word v w forward
      (word_navigate.wrap_buffer settings)
      (word_navigate.case_sensitive settings) s = (Ok None, s)).
  { intros s. unfold view_util.get_region_of_closet_same_word.
    rewrite Hmiss. reflexivity. }
  destruct (word_navigate.use_index settings).
  - destruct (get_index (buffer_id v)) as [msg|idx].
    + unfold bind at 1. unfold bind at 1. unfold word_navigate.warning.
      rewrite nav_log_logged. simpl. unfold bind at 1.
      unfold word_navigate.debug. rewrite nav_log_logged, Hsearch.
      rewrite logged_logged. eexists; reflexivity.
    + unfold bind at 1. simpl.
      destruct idx; unfold bind at 1;
        unfold word_navigate.debug, word_navigate.warning;
        rewrite nav_log_logged; rewrite ?Hsearch; eexists; reflexivity.
  - unfold bind at 1. simpl. unfold bind at 1.
    unfold word_navigate.debug. rewrite nav_log_logged, Hsearch.
    eexists; reflexivity.
Qed.

(** C6.  When the region classification hands a pivot word to the search
    and the host finds no match for it (an empty region), the search
    returns [None] without raising, and the navigation returns normally
    with the selection and the viewport as they were. *)
Theorem search_miss_keeps_selection (v : View)
    (settings : word_navigate.Settings) (get_index : Z -> index.lookup)
    (forward : bool) (st st1 : NavState) (region w : Region) :
  sel st = [region] ->
  word_navigate.pivot_of_region v settings region forward st
  = (Ok (word_navigate.WordRegion w), st1) ->
  empty (find v (view_util.search_regex (substr v w))
           (view_util.search_point w forward)
           (view_util.search_flags forward
              (word_navigate.wrap_buffer settings)
              (word_navigate.case_sensitive settings))) = true ->
  (forall s,
     view_util.get_region_of_closet_same_word v w forward
       (word_navigate.wrap_buffer settings)
       (word_navigate.case_sensitive settings) s = (Ok None, s))
  /\ exists st2,
       word_navigate._navigate v settings get_index forward st = (Ok tt, st2)
       /\ sel st2 = sel st /\ effects st2 = effects st.
Proof.
  intros Hsel Hpivot Hmiss. split.
  - intros s. unfold view_util.get_region_of_closet_same_word.
    rewrite Hmiss. reflexivity.
  - destruct (pivot_of_region_logs v settings region forward st)
      as [records Hlog].
    rewrite Hpivot in Hlog. simpl in Hlog. subst st1.
    destruct (search_from_word_region_miss v settings get_index w forward
                (logged st records) Hmiss) as [records' Hsearch].
    exists (logged (logged st records) records').
    split; [|split; reflexivity].
    unfold word_navigate._navigate,
      word_navigate._get_region_of_word_closest_to_selection.
    unfold bind at 1. unfold bind at 1.
    rewrite multiple_regions_selected, Hsel. simpl.
    unfold bind at 1. rewrite (single_selected_region st region Hsel).
    unfold word_navigate._get_region_of_word_closest_to_region.
    unfold bind at 1. rewrite Hpivot, Hsearch. reflexivity.
Qed.

Lemma search_miss_keeps_selection_witness :
  let v := TextHost.view "foo bar" in
  let settings := word_navigate.mkSettings true true true false true false in
  let st := mkNavState [mkRegion 0 3] [] [] in
  exists st2,
    word_navigate._navigate v settings (fun _ => index.raises_KeyError "1")
      true st = (Ok tt, st2)
    /\ sel st2 = sel st /\ effects st2 = effects st.
Proof.
  cbv zeta.
  refine (proj2
    (search_miss_keeps_selection (TextHost.view "foo bar")
       (word_navigate.mkSettings true true true false true false)
       (fun _ => index.raises_KeyError "1") true
       (mkNavState [mkRegion 0 3] [] [])
       (snd (word_navigate.pivot_of_region (TextHost.view "foo bar")
               (word_navigate.mkSettings true true true false true false)
               (mkRegion 0 3) true (mkNavState [mkRegion 0 3] [] [])))
       (mkRegion 0 3) (mkRegion 0 3) eq_refl _ _)).
  - vm_compute. reflexivity.
  - vm_compute. reflexivity.
Defined.

(** ** C7: the in-line search wraps once *)

Lemma search_in_line (v : View) (forward : bool) (line col : Z)
    (st : NavState) :
  view_util._get_region_of_closet_word_in_line v forward line col st
  = (Ok (words_in_line v forward line col),
     logged st [searching_record v forward line col]).
Proof. reflexivity. Qed.

(** Forward, the second search is as the comments of the code describe
    it: it is made from column 0 of the same line, over the whole line,
    and it is not made when the caret is at column 0. *)
Lemma inline_wrap_forward (v : View) (point : Z) (st : NavState) :
  let line := fst (rowcol v point) in
  let col := snd (rowcol v point) in
  let first :=
    [finding_record line col; searching_record v true line col;
     no_region_record] in
  words_in_line v true line col = [] ->
  (col = 0 ->
   view_util.get_region_of_closest_word_in_line v point true true st
   = (Ok None, logged st first))
  /\ (col <> 0 ->
      view_util.get_region_of_closest_word_in_line v point true true st
      = view_util.choose_region v true (words_in_line v true line 0)
          (logged st (first ++ [searching_record v true line 0]))).
Proof.
  intros line col first Hnone.
  assert (Hrun :
    view_util.get_region_of_closest_word_in_line v point true true st
    = (if col =? 0 then ret None
       else
         regions <- view_util._get_region_of_closet_word_in_line
                      v true line 0 ;;
         view_util.choose_region v true regions) (logged st first)).
  { unfold view_util.get_region_of_closest_word_in_line.
    fold line col. unfold bind at 1. rewrite nav_log_logged.
    unfold bind at 1. rewrite search_in_line, Hnone.
    unfold bind at 1. rewrite nav_log_logged, !logged_logged.
    reflexivity. }
  split.
  - intros Heq. rewrite Hrun. apply Z.eqb_eq in Heq. rewrite Heq.
    reflexivity.
  - intros Hne. rewrite Hrun. apply Z.eqb_neq in Hne. rewrite Hne.
    unfold bind at 1. rewrite search_in_line, logged_logged. reflexivity.
Qed.

(** C7.  Backward, the column of the second search is read off the point
    before the start of the next line.  On a last line that no newline
    closes that point is the last character of the line, one short of its
    end, and the second search does not start from the end of the line:
    - on "foo bar", from the caret at column 0, the second search covers
      columns 0 to 6 and answers "foo", where the line, searched from its
      end at column 7, gives "bar";
    - on "  x", from the caret at column 2, no second search is made and
      the answer is [None], though the word "x" at columns 2 to 3 was not
      searched;
    - on "   ", from the caret at the end of the line, a second search is
      made, over columns 0 to 2, which the first search had covered;
    - on the empty last line after "foo", the second search is made in
      the line before, and answers its word.
    On a line that a newline closes the second search starts from the
    end of the line: on "foo bar" followed by a line "baz" it answers
    "bar".  With the default settings the command
    [navigate_backward_in_line] so selects "foo" on "foo bar", and leaves
    the caret where it is on "  x". *)
Theorem inline_wrap_backward_on_the_last_line :
  let backward (text : string) (point : Z) :=
    view_util.get_region_of_closest_word_in_line (TextHost.view text) point
      false true (mkNavState [mkRegion point point] [] []) in
  let answer (text : string) (point : Z) := fst (backward text point) in
  let messages (text : string) (point : Z) :=
    List.map logging.msg (log (snd (backward text point))) in
  let end_of_buffer (text : string) :=
    rowcol (TextHost.view text) (size (TextHost.view text)) in
  let command (text : string) (point : Z) :=
    word_navigate.navigate_backward_in_line (TextHost.view text)
      word_navigate.default_settings (mkNavState [mkRegion point point] [] []) in
  let closed := String TextHost.newline "" in
  (end_of_buffer "foo bar" = (0, 7)
   /\ fst (view_util.choose_region (TextHost.view "foo bar") false
             (words_in_line (TextHost.view "foo bar") false 0 7)
             (mkNavState [] [] []))
      = Ok (Some (mkRegion 7 4))
   /\ answer "foo bar" 0 = Ok (Some (mkRegion 3 0))
   /\ messages "foo bar" 0
      = ["Finding closest word in line from 1:0.";
         "Searching region (0, 0) ('').";
         "No region found.";
         "Searching region (0, 6) ('foo ba').";
         "Previous word is 'foo' (1, [1:3])."]
   /\ fst (command "foo bar" 0) = Ok tt
   /\ sel (snd (command "foo bar" 0)) = [mkRegion 3 0])
  /\ (end_of_buffer "  x" = (0, 3)
      /\ words_in_line (TextHost.view "  x") false 0 3 = [mkRegion 2 3]
      /\ answer "  x" 2 = Ok None
      /\ messages "  x" 2
         = ["Finding closest word in line from 1:2.";
            "Searching region (0, 2) ('  ').";
            "No region found."]
      /\ fst (command "  x" 2) = Ok tt
      /\ sel (snd (command "  x" 2)) = [mkRegion 2 2])
  /\ (end_of_buffer "   " = (0, 3)
      /\ answer "   " 3 = Ok None
      /\ messages "   " 3
         = ["Finding closest word in line from 1:3.";
            "Searching region (0, 3) ('   ').";
            "No region found.";
            "Searching region (0, 2) ('  ')."])
  /\ (end_of_buffer ("foo" ^^ closed) = (1, 0)
      /\ answer ("foo" ^^ closed) 4 = Ok (Some (mkRegion 3 0))
      /\ messages ("foo" ^^ closed) 4
         = ["Finding closest word in line from 2:0.";
            "Searching region (4, 4) ('').";
            "No region found.";
            "Searching region (0, 3) ('foo').";
            "Previous word is 'foo' (1, [1:3])."])
  /\ (rowcol (TextHost.view ("foo bar" ^^ closed ^^ "baz")) 7 = (0, 7)
      /\ rowcol (TextHost.view ("foo bar" ^^ closed ^^ "baz")) 8 = (1, 0)
      /\ answer ("foo bar" ^^ closed ^^ "baz") 0
         = Ok (Some (mkRegion 7 4))
      /\ messages ("foo bar" ^^ closed ^^ "baz") 0
         = ["Finding closest word in line from 1:0.";
            "Searching region (0, 0) ('').";
            "No region found.";
            "Searching region (0, 7) ('foo bar').";
            "Previous word is 'bar' (1, [5:7])."]).
Proof.
  cbv zeta.
  repeat match goal with |- _ /\ _ => split end; vm_compute; reflexivity.
Qed.

(** ** C10: the direction of the region an in-line navigation applies *)

Lemma reverse_region_span (x : Region) :
  begin (selection.reverse_region x) = begin x
  /\ end_ (selection.reverse_region x) = end_ x.
Proof. unfold selection.reverse_region, begin, end_. simpl. lia. Qed.

Lemma log_adjacent_word_logs (v : View) (forward : bool) (region : Region)
    (s : NavState) :
  exists record,
    view_util.log_adjacent_word v forward region s
    = (Ok tt, logged s [record]).
Proof.
  unfold view_util.log_adjacent_word. rewrite nav_log_logged.
  eexists; reflexivity.
Qed.

(** What [choose_region] answers with, when it answers with a region. *)
Lemma choose_region_some (v : View) (forward : bool) (regions : list Region)
    (s s' : NavState) (r : Region) :
  view_util.choose_region v forward regions s = (Ok (Some r), s') ->
  (exists w, In w regions
             /\ r = (if forward then w else selection.reverse_region w))
  /\ exists records, s' = logged s records.
Proof.
  destruct regions as [|first rest]; [discriminate|].
  unfold view_util.choose_region.
  set (region := if forward then first
                 else selection.reverse_region (last (first :: rest) first)).
  destruct (log_adjacent_word_logs v forward region s) as [record Hlog].
  unfold bind at 1. rewrite Hlog. unfold ret. intros [= Hr Hs].
  split; [|exists [record]; symmetry; exact Hs].
  subst r. unfold region. destruct forward.
  - exists first. split; [left; reflexivity|reflexivity].
  - exists (last (first :: rest) first). split; [|reflexivity].
    destruct (exists_last (l := first :: rest)) as (l' & x & Hl);
      [discriminate|].
    rewrite Hl, last_last. apply in_or_app. right. left. reflexivity.
Qed.

(** A region the in-line search returns is a word the host found in some
    span of a line, reversed when going backward. *)
Lemma closest_word_in_line_some (v : View) (point : Z) (forward wrap : bool)
    (s s' : NavState) (r : Region) :
  view_util.get_region_of_closest_word_in_line v point forward wrap s
  = (Ok (Some r), s') ->
  (exists line col w,
     In w (words_in_line v forward line col)
     /\ r = (if forward then w else selection.reverse_region w))
  /\ exists records, s' = logged s records.
Proof.
  unfold view_util.get_region_of_closest_word_in_line.
  set (line := fst (rowcol v point)). set (col := snd (rowcol v point)).
  unfold bind at 1. rewrite nav_log_logged.
  unfold bind at 1. rewrite search_in_line, logged_logged.
  destruct (words_in_line v forward line col) as [|w0 ws] eqn:Hwords.
  - unfold bind at 1. rewrite nav_log_logged, logged_logged.
    destruct wrap; [|discriminate].
    destruct (if forward then (line, 0)
              else rowcol v (text_point v (line + 1) 0 - 1)) as [l c].
    change (negb true) with false. cbv beta iota.
    destruct (col =? c); [discriminate|].
    unfold bind at 1. rewrite search_in_line, logged_logged.
    intros H. apply choose_region_some in H.
    destruct H as ((w & Hin & Hr) & records & Hs). split.
    + exists l, c, w. auto.
    + subst s'. rewrite logged_logged. eexists; reflexivity.
  - intros H. apply choose_region_some in H.
    destruct H as ((w & Hin & Hr) & records & Hs). split.
    + exists line, col, w. rewrite Hwords. auto.
    + subst s'. rewrite logged_logged. eexists; reflexivity.
Qed.

(** The in-line policy answers with a region only through the in-line
    search from the caret of a single no-word selection. *)
Lemma inline_policy_some (v : View) (settings : word_navigate.Settings)
    (forward : bool) (st st1 : NavState) (r : Region) :
  word_navigate._get_region_of_closest_word_in_line v settings forward st
  = (Ok (Some r), st1) ->
  exists region records,
    sel st = [region]
    /\ view_util.is_not_part_of_any_word v region = true
    /\ view_util.get_region_of_closest_word_in_line v (b region) forward
         (word_navigate.wrap_line settings) (logged st records)
       = (Ok (Some r), st1).
Proof.
  unfold word_navigate._get_region_of_closest_word_in_line.
  unfold bind at 1. rewrite multiple_regions_selected.
  destruct (sel st) as [|region [|r2 rest]] eqn:Hsel.
  - simpl. unfold bind at 1.
    unfold selection.get_single_selected_region. unfold bind at 1.
    rewrite multiple_regions_selected, Hsel. simpl.
    unfold selection.get_first_selected_region, sel_item0.
    rewrite Hsel. discriminate.
  - simpl. unfold bind at 1.
    rewrite (single_selected_region st region Hsel).
    destruct (view_util.is_not_part_of_any_word v region) eqn:Hno.
    + unfold bind at 1. unfold word_navigate.debug.
      rewrite nav_log_logged. unfold bind at 1.
      rewrite (caret_point_of_single _ region) by exact Hsel.
      intros H. exists region. eexists.
      split; [reflexivity|split; [exact Hno|exact H]].
    + unfold bind at 1. unfold word_navigate.is_single_word, raise.
      discriminate.
  - replace (1 <? Z.of_nat (List.length (region :: r2 :: rest))) with true
      by (symmetry; apply Z.ltb_lt; simpl List.length; lia).
    unfold bind at 1. unfold word_navigate.warning.
    rewrite nav_log_logged. discriminate.
Qed.

(** C10.  When an in-line navigation finds a word, the region it selects
    is a word the host found on the line: unchanged, hence forward, when
    going forward; reversed when going backward, its first coordinate the
    end of the word and its second, the caret, the start of the word.
    Reversing a region keeps its begin and its end. *)
Theorem inline_navigation_direction (v : View)
    (settings : word_navigate.Settings) (forward : bool)
    (st st1 : NavState) (r : Region) :
  host_matches_forward v ->
  word_navigate._get_region_of_closest_word_in_line v settings forward st
  = (Ok (Some r), st1) ->
  (exists st2,
     word_navigate._navigate_in_line v settings forward st = (Ok tt, st2)
     /\ sel st2 = [r])
  /\ (exists line col w,
        In w (words_in_line v forward line col)
        /\ (forward = true -> r = w /\ a r <= b r)
        /\ (forward = false ->
            r = selection.reverse_region w
            /\ a r = end_ w /\ b r = begin w /\ b r <= a r))
  /\ (forall x, begin (selection.reverse_region x) = begin x
                /\ end_ (selection.reverse_region x) = end_ x).
Proof.
  intros Hhost Hfound. split; [|split].
  - destruct (inline_policy_some _ _ _ _ _ _ Hfound)
      as (region & records & Hsel & _ & Hsearch).
    apply closest_word_in_line_some in Hsearch.
    destruct Hsearch as (_ & records' & Hst1).
    rewrite logged_logged in Hst1.
    unfold word_navigate._navigate_in_line. unfold bind at 1.
    rewrite Hfound. unfold word_navigate.apply_region.
    unfold bind at 1. unfold word_navigate.debug.
    assert (Hsel1 : forall rec, sel (logged st1 rec) = [region])
      by (intros rec; subst st1; exact Hsel).
    destruct forward; rewrite nav_log_logged;
      rewrite (select_and_zoom v r region []) by apply Hsel1;
      eexists; split; reflexivity.
  - destruct (inline_policy_some _ _ _ _ _ _ Hfound)
      as (region & records & _ & _ & Hsearch).
    apply closest_word_in_line_some in Hsearch.
    destruct Hsearch as ((line & col & w & Hin & Hr) & _).
    exists line, col, w. split; [exact Hin|].
    pose proof (Hhost _ _ _ _ Hin) as Hw.
    split; intros ->; subst r.
    + split; [reflexivity|exact Hw].
    + unfold selection.reverse_region, begin, end_. simpl.
      repeat split; lia.
  - apply reverse_region_span.
Qed.

Lemma word_runs_forward (l : list ascii) (pos : Z) (open : option Z)
    (m : Region) :
  (forall from, open = Some from -> from <= pos) ->
  In m (TextHost.word_runs l pos open) -> a m <= b m.
Proof.
  revert pos open. induction l as [|c l IH]; intros pos open Hopen; simpl.
  - destruct open as [from|]; simpl; [|tauto].
    intros [<-|[]]. simpl. apply Hopen. reflexivity.
  - destruct (TextHost.is_word_char c).
    + apply IH. intros from. destruct open as [from'|].
      * intros [= <-]. specialize (Hopen from' eq_refl). lia.
      * intros [= <-]. lia.
    + destruct open as [from|]; simpl.
      * intros [<-|Hin]; [simpl; apply Hopen; reflexivity|].
        revert Hin. apply IH. discriminate.
      * apply IH. discriminate.
Qed.

Lemma TextHost_matches_forward (text : string) :
  host_matches_forward (TextHost.view text).
Proof.
  intros regex flags within m. simpl. unfold TextHost.find_all.
  destruct (String.eqb regex view_util.word_regex); [|intros []].
  intros Hin. apply filter_In in Hin. destruct Hin as [Hin _].
  revert Hin. apply word_runs_forward. discriminate.
Qed.

Lemma inline_navigation_direction_witness :
  let v := TextHost.view "foo   bar bar" in
  let st := mkNavState [mkRegion 4 4] [] [] in
  exists st2,
    word_navigate._navigate_in_line v word_navigate.default_settings false st
    = (Ok tt, st2)
    /\ sel st2 = [mkRegion 3 0].
Proof.
  cbv zeta.
  refine (proj1
    (inline_navigation_direction (TextHost.view "foo   bar bar")
       word_navigate.default_settings false
       (mkNavState [mkRegion 4 4] [] [])
       (snd (word_navigate._get_region_of_closest_word_in_line
               (TextHost.view "foo   bar bar")
               word_navigate.default_settings false
               (mkNavState [mkRegion 4 4] [] [])))
       (mkRegion 3 0) (TextHost_matches_forward "foo   bar bar") _)).
  vm_compute. reflexivity.
Defined.

(** ** The settings registry (settings.py, validators.py) *)

Lemma lower_ascii_idempotent (c : ascii) :
  pystr.lower_ascii (pystr.lower_ascii c) = pystr.lower_ascii c.
Proof. destruct c as [[] [] [] [] [] [] [] []]; reflexivity. Qed.

Lemma lower_idempotent (s : string) :
  pystr.lower (pystr.lower s) = pystr.lower s.
Proof.
  induction s as [|c s IH]; simpl; [reflexivity|].
  rewrite lower_ascii_idempotent, IH. reflexivity.
Qed.

Lemma ListValidator_validate_some (allowed : list string) (s : string)
    (enc : pyval) :
  validators.ListValidator_validate allowed s = Some enc ->
  enc = VStr (pystr.lower s) /\ In (pystr.lower s) allowed.
Proof.
  induction allowed as [|val rest IH]; simpl; [discriminate|].
  destruct (String.eqb (pystr.lower s) val) eqn:E.
  - apply String.eqb_eq in E. intros [= <-]. subst val. auto.
  - intros H. apply IH in H. tauto.
Qed.

(** A value a validator accepts has, up to case, the string form of the
    value it is encoded to. *)
Lemma valid_same_string (v : validators.Validator) (raw enc : pyval) :
  validators.validate v raw = Ok (Some enc) ->
  pystr.lower (pystr.str raw) = pystr.lower (pystr.str enc).
Proof.
  destruct v as [allowed|lo hi|]; simpl.
  - destruct raw; try (destruct allowed; discriminate). intros [= H].
    apply ListValidator_validate_some in H. destruct H as [-> _].
    simpl. symmetry. apply lower_idempotent.
  - unfold validators.IntegerRangeValidator_validate.
    destruct raw; try discriminate.
    + destruct ((if b0 then 1 else 0) >=? lo); simpl;
        [destruct ((if b0 then 1 else 0) <=? hi); simpl|];
        try discriminate. intros [= <-]. reflexivity.
    + destruct (z >=? lo); simpl; [destruct (z <=? hi); simpl|];
        try discriminate. intros [= <-]. reflexivity.
  - unfold validators.BooleanValidator_validate.
    destruct (String.eqb (pystr.lower (pystr.str raw)) "true") eqn:Et.
    + apply String.eqb_eq in Et. intros [= <-]. rewrite Et. reflexivity.
    + destruct (String.eqb (pystr.lower (pystr.str raw)) "false") eqn:Ef;
        [|discriminate].
      apply String.eqb_eq in Ef. intros [= <-]. rewrite Ef. reflexivity.
Qed.

Lemma dict_get_none (d : list (string * settings.callback)) (tag : string) :
  settings.dict_get d tag = None <-> ~ In tag (List.map fst d).
Proof.
  induction d as [|[k w] rest IH]; simpl; [tauto|].
  destruct (String.eqb k tag) eqn:E.
  - apply String.eqb_eq in E. split; [discriminate|]. intros H.
    exfalso. apply H. left. exact E.
  - apply String.eqb_neq in E. rewrite IH. tauto.
Qed.

Lemma notify_calls (items : list (string * settings.callback))
    (name : string) (old new : pyval) (st : settings.State) :
  settings.notify items name old new st
  = (Ok tt,
     settings.mkState (settings.self st) (settings.log st)
       (settings.calls st ++ notifications items name old new)).
Proof.
  revert st. induction items as [|[k w] rest IH]; intros st; simpl.
  - unfold ret. rewrite app_nil_r. destruct st; reflexivity.
  - unfold bind at 1. unfold settings.call, modify. rewrite IH. simpl.
    rewrite <- app_assoc. reflexivity.
Qed.

Lemma invocations_of_absent (items : list (string * settings.callback))
    (tag name : string) (old new : pyval) :
  ~ In tag (List.map fst items) ->
  invocations_of tag (notifications items name old new) = [].
Proof.
  induction items as [|[k w] rest IH]; simpl; [reflexivity|].
  intros H. destruct (String.eqb k tag) eqn:E.
  - apply String.eqb_eq in E. tauto.
  - apply IH. tauto.
Qed.

Lemma invocations_of_registered (items : list (string * settings.callback))
    (tag name : string) (cb : settings.callback) (old new : pyval) :
  NoDup (List.map fst items) -> In (tag, cb) items ->
  invocations_of tag (notifications items name old new)
  = [settings.mkInvocation tag cb name old new].
Proof.
  induction items as [|[k w] rest IH]; simpl; [tauto|].
  intros Hnd Hin. inversion Hnd as [|? ? Hk Hrest]; subst.
  destruct Hin as [[= -> ->]|Hin].
  - rewrite String.eqb_refl.
    fold (notifications rest name old new).
    fold (invocations_of tag (notifications rest name old new)).
    rewrite invocations_of_absent by exact Hk. reflexivity.
  - destruct (String.eqb k tag) eqn:E.
    + apply String.eqb_eq in E. subst k. exfalso. apply Hk.
      apply (in_map fst) in Hin. exact Hin.
    + apply IH; assumption.
Qed.

(** [_update], case by case. *)
Lemma update_cases (raw : pyval) (st : settings.State) :
  let s := settings.self st in
  settings._update raw st =
  if differs raw (settings._value s) then
    match validators.validate (settings._validator s) raw with
    | Ok (Some enc) =>
        (Ok tt,
         settings.mkState
           (settings.mkSingleSetting (settings._name s) enc
              (settings._validator s) (settings._callbacks s))
           (settings.log st
              ++ [changed_record (settings._name s) (settings._value s) enc])
           (settings.calls st
              ++ notifications (settings._callbacks s) (settings._name s)
                   (settings._value s) enc))
    | Ok None => (Raise (not_supported s raw), st)
    | Raise e => (Raise e, st)
    end
  else (Ok tt, st).
Proof.
  cbv zeta. unfold settings._update. unfold bind at 1. unfold get.
  fold (differs raw (settings._value (settings.self st))).
  destruct (differs raw (settings._value (settings.self st)));
    [|reflexivity].
  unfold bind at 1. unfold settings.validate.
  destruct (validators.validate
              (settings._validator (settings.self st)) raw) as [[enc|]|e];
    try reflexivity.
  unfold bind at 1. unfold settings.debug, modify.
  unfold bind at 1. unfold settings.set_value, modify.
  rewrite notify_calls. reflexivity.
Qed.

(** ** C3: a value the validator rejects *)



(** ** C4: a value the validator accepts *)

(** C4.  When the validator accepts a raw value and encodes it to a new
    value: if the new value differs from the old one as lower-cased
    strings, the new value is stored and every registered listener is
    called, in registration order, exactly once, with the name of the
    setting, the old value and the new value; if it does not differ,
    nothing is stored and no listener is called. *)
Theorem valid_change_notifies (st : settings.State) (raw enc : pyval) :
  validators.validate (settings._validator (settings.self st)) raw
  = Ok (Some enc) ->
  unique_tags (settings._callbacks (settings.self st)) ->
  let s := settings.self st in
  let name := settings._name s in
  let old := settings._value s in
  (pystr.lower (pystr.str enc) <> pystr.lower (pystr.str old) ->
   exists st',
     settings._update raw st = (Ok tt, st')
     /\ settings._value (settings.self st') = enc
     /\ settings._callbacks (settings.self st') = settings._callbacks s
     /\ settings.calls st'
        = settings.calls st
            ++ notifications (settings._callbacks s) name old enc
     /\ (forall tag cb, In (tag, cb) (settings._callbacks s) ->
         invocations_of tag
           (notifications (settings._callbacks s) name old enc)
         = [settings.mkInvocation tag cb name old enc])
     /\ (forall tag, ~ In tag (List.map fst (settings._callbacks s)) ->
         invocations_of tag
           (notifications (settings._callbacks s) name old enc) = []))
  /\ (pystr.lower (pystr.str enc) = pystr.lower (pystr.str old) ->
      settings._update raw st = (Ok tt, st)).
Proof.
  intros Hvalid Hnodup s name old.
  pose proof (update_cases raw st) as Hu. cbv zeta in Hu.
  rewrite Hvalid in Hu. fold s in Hu. fold old in Hu. fold name in Hu.
  pose proof (valid_same_string _ _ _ Hvalid) as Hsame.
  unfold differs in Hu. rewrite Hsame in Hu. split.
  - intros Hne. apply String.eqb_neq in Hne. rewrite Hne in Hu.
    simpl in Hu. eexists. split; [exact Hu|]. simpl.
    repeat split.
    + intros tag cb Hin. apply invocations_of_registered; assumption.
    + intros tag Hout. apply invocations_of_absent. exact Hout.
  - intros Heq. apply String.eqb_eq in Heq. rewrite Heq in Hu.
    exact Hu.
Qed.

Lemma valid_change_notifies_witness :
  let st :=
    settings.mkState
      (settings.mkSingleSetting "wrap_line" (VBool false)
         validators.BooleanValidator
         [("view", settings.mkCallback 1); ("log", settings.mkCallback 2)])
      [] [] in
  exists st',
    settings._update (VStr "TRUE") st = (Ok tt, st')
    /\ settings._value (settings.self st') = VBool true
    /\ settings.calls st'
       = [settings.mkInvocation "view" (settings.mkCallback 1) "wrap_line"
            (VBool false) (VBool true);
          settings.mkInvocation "log" (settings.mkCallback 2) "wrap_line"
            (VBool false) (VBool true)].
Proof.
  cbv zeta.
  destruct (proj1
    (valid_change_notifies
       (settings.mkState
          (settings.mkSingleSetting "wrap_line" (VBool false)
             validators.BooleanValidator
             [("view", settings.mkCallback 1);
              ("log", settings.mkCallback 2)]) [] [])
       (VStr "TRUE") (VBool true) eq_refl
       ltac:(repeat constructor; simpl; intuition discriminate))
    ltac:(vm_compute; discriminate))
    as (st' & Hupd & Hval & _ & Hcalls & _).
  exists st'. repeat split; assumption.
Defined.

(** ** C8: registering and unregistering listeners *)

(** C8.  Registering a listener under a tag that is already registered
    for the setting raises [ValueError] and leaves the setting, with its
    registrations, as it was; so does unregistering a tag that is not
    registered. *)
Theorem listener_registration_errors (st : settings.State) (tag : string)
    (cb : settings.callback) :
  let registered :=
    List.map fst (settings._callbacks (settings.self st)) in
  (In tag registered ->
   exists msg, settings.add_on_change tag cb st = (Raise (ValueError msg), st))
  /\ (~ In tag registered ->
      exists msg, settings.clear_on_change tag st
                  = (Raise (ValueError msg), st)).
Proof.
  cbv zeta. split.
  - intros Hin. unfold settings.add_on_change. unfold bind at 1. unfold get.
    destruct (settings.dict_get (settings._callbacks (settings.self st)) tag)
      eqn:Hget.
    + unfold raise. eexists; reflexivity.
    + apply dict_get_none in Hget. contradiction.
  - intros Hout. unfold settings.clear_on_change. unfold bind at 1.
    unfold get. apply dict_get_none in Hout. rewrite Hout.
    unfold raise. eexists; reflexivity.
Qed.

Lemma listener_registration_errors_witness :
  let st :=
    settings.mkState
      (settings.mkSingleSetting "log_level" (VStr "warning")
         (validators.ListValidator ["debug"; "info"; "warning"; "error"])
         [("log", settings.mkCallback 1)]) [] [] in
  (exists msg, settings.add_on_change "log" (settings.mkCallback 2) st
               = (Raise (ValueError msg), st))
  /\ (exists msg, settings.clear_on_change "view" st
                  = (Raise (ValueError msg), st)).
Proof.
  cbv zeta.
  pose proof
    (listener_registration_errors
       (settings.mkState
          (settings.mkSingleSetting "log_level" (VStr "warning")
             (validators.ListValidator ["debug"; "info"; "warning"; "error"])
             [("log", settings.mkCallback 1)]) [] []))
    as H.
  split.
  - apply (proj1 (H "log" (settings.mkCallback 2))). simpl. left.
    reflexivity.
  - apply (proj2 (H "view" (settings.mkCallback 2))). simpl.
    intros [Heq|[]]. discriminate Heq.
Defined.

(** *** The registrations stay a dict *)

Lemma dict_set_fresh (d : list (string * settings.callback)) (tag : string)
    (cb : settings.callback) :
  settings.dict_get d tag = None ->
  settings.dict_set d tag cb = d ++ [(tag, cb)].
Proof.
  induction d as [|[k w] rest IH]; simpl; [reflexivity|].
  destruct (String.eqb k tag); [discriminate|].
  intros H. rewrite (IH H). reflexivity.
Qed.

Lemma dict_del_keys (d : list (string * settings.callback)) (tag x : string) :
  In x (List.map fst (settings.dict_del d tag)) -> In x (List.map fst d).
Proof.
  induction d as [|[k w] rest IH]; simpl; [tauto|].
  destruct (String.eqb k tag); simpl; tauto.
Qed.

Lemma dict_del_unique (d : list (string * settings.callback)) (tag : string) :
  unique_tags d -> unique_tags (settings.dict_del d tag).
Proof.
  unfold unique_tags. induction d as [|[k w] rest IH]; simpl; [tauto|].
  intros Hnd. inversion Hnd as [|? ? Hk Hrest]; subst.
  destruct (String.eqb k tag); [exact Hrest|]. simpl.
  constructor; [|apply IH; exact Hrest].
  intros Hin. apply Hk. apply (dict_del_keys _ _ _ Hin).
Qed.

(** A fresh setting has no registrations, and no method of the setting
    registers a tag twice. *)
Lemma registrations_stay_unique (st : settings.State) :
  (forall name value validator,
     unique_tags
       (settings._callbacks
          (settings.self
             (snd (settings.SingleSetting_init name value validator st)))))
  /\ (unique_tags (settings._callbacks (settings.self st)) ->
      (forall tag cb,
         unique_tags
           (settings._callbacks
              (settings.self (snd (settings.add_on_change tag cb st)))))
      /\ (forall tag,
            unique_tags
              (settings._callbacks
                 (settings.self (snd (settings.clear_on_change tag st)))))
      /\ (forall raw,
            unique_tags
              (settings._callbacks
                 (settings.self (snd (settings._update raw st)))))).
Proof.
  assert (Hupdate : forall raw s,
            settings._callbacks (settings.self (snd (settings._update raw s)))
            = settings._callbacks (settings.self s)).
  { intros raw s. pose proof (update_cases raw s) as Hu. cbv zeta in Hu.
    rewrite Hu.
    destruct (differs raw (settings._value (settings.self s)));
      [|reflexivity].
    destruct (validators.validate (settings._validator (settings.self s)) raw)
      as [[enc|]|e]; reflexivity. }
  split.
  - intros name value validator. unfold settings.SingleSetting_init.
    unfold bind at 1. unfold modify. rewrite Hupdate. simpl. constructor.
  - intros Hnd. split; [|split].
    + intros tag cb. unfold settings.add_on_change. unfold bind at 1.
      unfold get.
      destruct (settings.dict_get (settings._callbacks (settings.self st)) tag)
        eqn:Hget; [exact Hnd|].
      unfold bind at 1. unfold settings.debug, modify.
      unfold settings.set_callbacks, modify. simpl.
      rewrite (dict_set_fresh _ _ cb Hget). unfold unique_tags.
      rewrite map_app. simpl. apply NoDup_app; [exact Hnd| |].
      * constructor; [intros []|constructor].
      * intros x Hx [<-|[]]. apply dict_get_none in Hget. contradiction.
    + intros tag. unfold settings.clear_on_change. unfold bind at 1.
      unfold get.
      destruct (settings.dict_get (settings._callbacks (settings.self st)) tag)
        eqn:Hget; [|exact Hnd].
      unfold bind at 1. unfold settings.debug, modify.
      unfold settings.set_callbacks, modify. simpl.
      apply dict_del_unique. exact Hnd.
    + intros raw. rewrite Hupdate. exact Hnd.
Qed.

(** ** C9: the integer-range validator *)

(** The [validate] method of an integer-range validator holding the
    bounds [lo] and [hi], on an integer. *)
Lemma integer_range_validate (lo hi n : Z) :
  validators.validate (validators.IntegerRangeValidator lo hi) (VInt n)
  = Ok (if (lo <=? n) && (n <=? hi) then Some (VInt n) else None).
Proof.
  simpl. unfold validators.IntegerRangeValidator_validate.
  rewrite Z.geb_leb. reflexivity.
Qed.

(** C9 fails at the construction: [IntegerRangeValidator(minimum, maximum)]
    raises [NameError] for all bounds, and so does the construction of an
    [IntegerRangeSetting]; no validator is there to validate a value. *)
Theorem integer_range_validator_construction (minimum maximum : Z) :
  (exists msg,
     validators.IntegerRangeValidator_init minimum maximum
     = Raise (NameError msg))
  /\ (forall name value st,
        exists msg,
          settings.IntegerRangeSetting_init name value minimum maximum st
          = (Raise (NameError msg), st)).
Proof.
  split.
  - eexists; reflexivity.
  - intros name value st. eexists; reflexivity.
Qed.

(** * Further properties of the code *)

(** ** validators.py *)

Lemma ListValidator_validate_complete (allowed : list string) (s : string) :
  In (pystr.lower s) allowed ->
  validators.ListValidator_validate allowed s = Some (VStr (pystr.lower s)).
Proof.
  induction allowed as [|val rest IH]; simpl; [tauto|].
  destruct (String.eqb (pystr.lower s) val) eqn:E.
  - apply String.eqb_eq in E. subst val. reflexivity.
  - apply String.eqb_neq in E. intros [H|H]; [congruence|]. apply IH, H.
Qed.

(** X1.  A list validator accepts a string exactly when its lower-case
    form is one of the allowed values, and then returns that lower-case
    form; so an allowed value that holds an upper-case letter is never
    returned, whatever the input. *)
Theorem list_validator_accepts (allowed : list string) (s : string) :
  (forall x,
     validators.validate (validators.ListValidator allowed) (VStr s)
     = Ok (Some x)
     <-> x = VStr (pystr.lower s) /\ In (pystr.lower s) allowed)
  /\ (validators.validate (validators.ListValidator allowed) (VStr s)
      = Ok None
      <-> ~ In (pystr.lower s) allowed)
  /\ (forall val, pystr.lower val <> val ->
      validators.validate (validators.ListValidator allowed) (VStr s)
      <> Ok (Some (VStr val))).
Proof.
  simpl. split; [|split].
  - intros x. split.
    + intros [= H]. apply ListValidator_validate_some in H. exact H.
    + intros [-> Hin]. rewrite ListValidator_validate_complete by exact Hin.
      reflexivity.
  - split.
    + intros [= H] Hin.
      rewrite ListValidator_validate_complete in H by exact Hin.
      discriminate.
    + intros Hout.
      destruct (validators.ListValidator_validate allowed s) as [x|] eqn:E;
        [|reflexivity].
      apply ListValidator_validate_some in E. tauto.
  - intros val Hval [= H]. apply ListValidator_validate_some in H.
    destruct H as [[= ->] _]. apply Hval. apply lower_idempotent.
Qed.

(** X2.  What a validator returns for an accepted value it accepts again,
    unchanged: the encoded values are fixed points of the validator. *)
Theorem validator_fixed_point (v : validators.Validator) (raw enc : pyval) :
  validators.validate v raw = Ok (Some enc) ->
  validators.validate v enc = Ok (Some enc).
Proof.
  destruct v as [allowed|lo hi|]; simpl.
  - destruct raw; try (destruct allowed; discriminate). intros [= H].
    apply ListValidator_validate_some in H. destruct H as [-> Hin].
    rewrite <- (lower_idempotent s) in Hin.
    rewrite (ListValidator_validate_complete _ _ Hin), lower_idempotent.
    reflexivity.
  - unfold validators.IntegerRangeValidator_validate.
    destruct raw; try discriminate.
    + destruct (((if b0 then 1 else 0) >=? lo)
                && ((if b0 then 1 else 0) <=? hi)) eqn:E;
        [|discriminate].
      intros [= <-]. rewrite E. reflexivity.
    + destruct ((z >=? lo) && (z <=? hi)) eqn:E; [|discriminate].
      intros [= <-]. rewrite E. reflexivity.
  - unfold validators.BooleanValidator_validate.
    destruct (String.eqb (pystr.lower (pystr.str raw)) "true").
    + intros [= <-]. reflexivity.
    + destruct (String.eqb (pystr.lower (pystr.str raw)) "false");
        [|discriminate].
      intros [= <-]. reflexivity.
Qed.

Lemma validator_fixed_point_witness :
  validators.validate
    (validators.ListValidator ["debug"; "info"; "warning"; "error"])
    (VStr "warning")
  = Ok (Some (VStr "warning")).
Proof.
  apply (validator_fixed_point
           (validators.ListValidator ["debug"; "info"; "warning"; "error"])
           (VStr "WARNING") (VStr "warning")).
  vm_compute. reflexivity.
Defined.

(** ** settings.py: one setting *)

(** X3.  An update that returned normally, made again with the same raw
    value, does nothing: no value is stored, no record logged, no
    listener called. *)
Theorem update_twice (st st' : settings.State) (raw : pyval) :
  settings._update raw st = (Ok tt, st') ->
  settings._update raw st' = (Ok tt, st').
Proof.
  intros H. pose proof (update_cases raw st) as Hu. cbv zeta in Hu.
  rewrite H in Hu.
  pose proof (update_cases raw st') as Hu'. cbv zeta in Hu'.
  destruct (differs raw (settings._value (settings.self st))) eqn:Hd.
  - destruct (validators.validate
                (settings._validator (settings.self st)) raw)
      as [[enc|]|e] eqn:Hv; try discriminate.
    injection Hu as Hst. subst st'. simpl in Hu'. simpl.
    pose proof (valid_same_string _ _ _ Hv) as Hsame.
    unfold differs in Hu'. rewrite Hsame, String.eqb_refl in Hu'.
    exact Hu'.
  - injection Hu as Hst. subst st'. rewrite Hd in Hu'. exact Hu'.
Qed.

Lemma update_twice_witness :
  let st' :=
    settings.mkState
      (settings.mkSingleSetting "wrap_line" (VBool true)
         validators.BooleanValidator [("view", settings.mkCallback 1)])
      [changed_record "wrap_line" (VBool false) (VBool true)]
      [settings.mkInvocation "view" (settings.mkCallback 1) "wrap_line"
         (VBool false) (VBool true)] in
  settings._update (VStr "True") st' = (Ok tt, st').
Proof.
  cbv zeta.
  apply (update_twice
           (settings.mkState
              (settings.mkSingleSetting "wrap_line" (VBool false)
                 validators.BooleanValidator
                 [("view", settings.mkCallback 1)]) [] [])).
  vm_compute. reflexivity.
Defined.

Lemma dict_get_append (d : list (string * settings.callback)) (tag : string)
    (cb : settings.callback) :
  settings.dict_get d tag = None ->
  settings.dict_get (d ++ [(tag, cb)]) tag = Some cb.
Proof.
  induction d as [|[k w] rest IH]; simpl.
  - rewrite String.eqb_refl. reflexivity.
  - destruct (String.eqb k tag); [discriminate|]. exact IH.
Qed.

Lemma dict_del_append (d : list (string * settings.callback)) (tag : string)
    (cb : settings.callback) :
  settings.dict_get d tag = None ->
  settings.dict_del (d ++ [(tag, cb)]) tag = d.
Proof.
  induction d as [|[k w] rest IH]; simpl.
  - rewrite String.eqb_refl. reflexivity.
  - destruct (String.eqb k tag); [discriminate|].
    intros H. rewrite (IH H). reflexivity.
Qed.

(** Registering a tag that is not registered yet. *)
Lemma add_on_change_new (st : settings.State) (tag : string)
    (cb : settings.callback) :
  ~ In tag (List.map fst (settings._callbacks (settings.self st))) ->
  settings.add_on_change tag cb st
  = (Ok tt,
     settings.mkState
       (settings.mkSingleSetting (settings._name (settings.self st))
          (settings._value (settings.self st))
          (settings._validator (settings.self st))
          (settings._callbacks (settings.self st) ++ [(tag, cb)]))
       (settings.log st
          ++ [logging.mk logging.DEBUG
                ("Adding callback '" ^^ tag ^^ "' for setting '"
                   ^^ settings._name (settings.self st) ^^ "'.")])
       (settings.calls st)).
Proof.
  intros Hout. apply dict_get_none in Hout.
  unfold settings.add_on_change. unfold bind at 1. unfold get.
  rewrite Hout. unfold bind at 1. unfold settings.debug, modify.
  unfold settings.set_callbacks, modify. simpl.
  rewrite (dict_set_fresh _ _ cb Hout). reflexivity.
Qed.

(** X4.  Registering a listener under a tag that is not registered and
    then unregistering the tag gives back the setting as it was, with its
    earlier registrations in their order; no listener is called on the
    way. *)
Theorem register_then_unregister (st : settings.State) (tag : string)
    (cb : settings.callback) :
  ~ In tag (List.map fst (settings._callbacks (settings.self st))) ->
  exists st1 st2,
    settings.add_on_change tag cb st = (Ok tt, st1)
    /\ settings.dict_get (settings._callbacks (settings.self st1)) tag
       = Some cb
    /\ settings.clear_on_change tag st1 = (Ok tt, st2)
    /\ settings.self st2 = settings.self st
    /\ settings.calls st2 = settings.calls st.
Proof.
  intros Hout. pose proof (proj2 (dict_get_none _ _) Hout) as Hget.
  eexists. eexists. split; [apply add_on_change_new; exact Hout|].
  simpl. split; [apply dict_get_append; exact Hget|].
  unfold settings.clear_on_change. unfold bind at 1. unfold get. simpl.
  rewrite (dict_get_append _ _ cb Hget).
  unfold bind at 1. unfold settings.debug, modify.
  unfold settings.set_callbacks, modify. simpl.
  rewrite (dict_del_append _ _ cb Hget).
  split; [reflexivity|]. split; [|reflexivity].
  destruct st as [[n v val c] l cs]. reflexivity.
Qed.

Lemma register_then_unregister_witness :
  let st :=
    settings.mkState
      (settings.mkSingleSetting "log_level" (VStr "warning")
         (validators.ListValidator ["debug"; "info"; "warning"; "error"])
         [("log", settings.mkCallback 1)]) [] [] in
  exists st1 st2,
    settings.add_on_change "view" (settings.mkCallback 2) st = (Ok tt, st1)
    /\ settings.dict_get (settings._callbacks (settings.self st1)) "view"
       = Some (settings.mkCallback 2)
    /\ settings.clear_on_change "view" st1 = (Ok tt, st2)
    /\ settings.self st2 = settings.self st
    /\ settings.calls st2 = settings.calls st.
Proof.
  cbv zeta.
  apply (register_then_unregister
           (settings.mkState
              (settings.mkSingleSetting "log_level" (VStr "warning")
                 (validators.ListValidator
                    ["debug"; "info"; "warning"; "error"])
                 [("log", settings.mkCallback 1)]) [] [])
           "view" (settings.mkCallback 2)).
  simpl. intros [H|[]]. discriminate H.
Defined.

(** X5.  A listener registered under a new tag is called after the
    listeners registered before it: on the next change of the value the
    earlier listeners are called in their order and the new one last. *)
Theorem new_listener_is_called_last (st : settings.State) (tag : string)
    (cb : settings.callback) (raw enc : pyval) :
  ~ In tag (List.map fst (settings._callbacks (settings.self st))) ->
  validators.validate (settings._validator (settings.self st)) raw
  = Ok (Some enc) ->
  pystr.lower (pystr.str enc)
  <> pystr.lower (pystr.str (settings._value (settings.self st))) ->
  let s := settings.self st in
  exists st1 st2,
    settings.add_on_change tag cb st = (Ok tt, st1)
    /\ settings._update raw st1 = (Ok tt, st2)
    /\ settings.calls st2
       = settings.calls st
           ++ notifications (settings._callbacks s) (settings._name s)
                (settings._value s) enc
           ++ [settings.mkInvocation tag cb (settings._name s)
                 (settings._value s) enc].
Proof.
  intros Hout Hvalid Hne s.
  eexists. eexists. split; [apply add_on_change_new; exact Hout|].
  match goal with |- settings._update raw ?st1 = _ /\ _ =>
    pose proof (update_cases raw st1) as Hu end.
  cbv zeta in Hu. simpl in Hu. rewrite Hvalid in Hu.
  pose proof (valid_same_string _ _ _ Hvalid) as Hsame.
  unfold differs in Hu. rewrite Hsame in Hu.
  apply String.eqb_neq in Hne. rewrite Hne in Hu. simpl in Hu.
  split; [exact Hu|]. simpl. unfold notifications. rewrite map_app.
  reflexivity.
Qed.

Lemma new_listener_is_called_last_witness :
  let st :=
    settings.mkState
      (settings.mkSingleSetting "wrap_line" (VBool false)
         validators.BooleanValidator [("view", settings.mkCallback 1)])
      [] [] in
  exists st1 st2,
    settings.add_on_change "log" (settings.mkCallback 2) st = (Ok tt, st1)
    /\ settings._update (VStr "true") st1 = (Ok tt, st2)
    /\ settings.calls st2
       = [settings.mkInvocation "view" (settings.mkCallback 1) "wrap_line"
            (VBool false) (VBool true);
          settings.mkInvocation "log" (settings.mkCallback 2) "wrap_line"
            (VBool false) (VBool true)].
Proof.
  cbv zeta.
  apply (new_listener_is_called_last
           (settings.mkState
              (settings.mkSingleSetting "wrap_line" (VBool false)
                 validators.BooleanValidator
                 [("view", settings.mkCallback 1)]) [] [])
           "log" (settings.mkCallback 2) (VStr "true") (VBool true)).
  - simpl. intros [H|[]]. discriminate H.
  - reflexivity.
  - vm_compute. discriminate.
Defined.

(** The state a constructor starts from. *)
Lemma init_cases (name : string) (value : pyval)
    (validator : validators.Validator) (st : settings.State) :
  settings.SingleSetting_init name value validator st
  = settings._update (VStr (pystr.str value))
      (settings.mkState (settings.mkSingleSetting name VNone validator [])
         (settings.log st) (settings.calls st)).
Proof. reflexivity. Qed.

(** The construction of a setting whose default the validator accepts. *)
Lemma construction_accepted (name : string) (value enc : pyval)
    (validator : validators.Validator) (st : settings.State) :
  pystr.lower (pystr.str value) <> "none" ->
  validators.validate validator (VStr (pystr.str value)) = Ok (Some enc) ->
  settings.SingleSetting_init name value validator st
  = (Ok tt,
     settings.mkState (settings.mkSingleSetting name enc validator [])
       (settings.log st ++ [changed_record name VNone enc])
       (settings.calls st)).
Proof.
  intros Hsome Hvalid. rewrite init_cases.
  match goal with |- settings._update ?r ?s0 = _ =>
    pose proof (update_cases r s0) as Hu end.
  cbv zeta in Hu. unfold differs in Hu.
  cbn [settings.self settings._value settings._name settings._validator
       settings._callbacks settings.log settings.calls pystr.str
       notifications List.map] in Hu.
  change (pystr.lower "None") with "none" in Hu.
  rewrite !app_nil_r in Hu. apply String.eqb_neq in Hsome.
  rewrite Hsome, Hvalid in Hu. exact Hu.
Qed.

Lemma level_name_is_not_none (s : string) :
  In (pystr.lower s) level_names -> pystr.lower (pystr.str (VStr s)) <> "none".
Proof.
  simpl. intros Hin Hnone. rewrite Hnone in Hin. simpl in Hin.
  intuition discriminate.
Qed.

(** X6.  The construction of a setting calls no listener and leaves the
    setting without registrations.  The default is stored, encoded, when
    the validator accepts its string form; the construction raises
    [ValueError] when the validator rejects it; and a default whose string
    form is "none" in any case is not validated at all: the setting is
    constructed holding [None]. *)
Theorem setting_construction (name : string) (value : pyval)
    (validator : validators.Validator) (st : settings.State) :
  let raw := VStr (pystr.str value) in
  let fresh (v : pyval) (records : list logging.record) :=
    settings.mkState (settings.mkSingleSetting name v validator [])
      (settings.log st ++ records) (settings.calls st) in
  (pystr.lower (pystr.str value) = "none" ->
   settings.SingleSetting_init name value validator st
   = (Ok tt, fresh VNone []))
  /\ (pystr.lower (pystr.str value) <> "none" ->
      forall enc, validators.validate validator raw = Ok (Some enc) ->
      settings.SingleSetting_init name value validator st
      = (Ok tt, fresh enc [changed_record name VNone enc]))
  /\ (pystr.lower (pystr.str value) <> "none" ->
      validators.validate validator raw = Ok None ->
      exists msg,
        settings.SingleSetting_init name value validator st
        = (Raise (ValueError msg), fresh VNone [])).
Proof.
  cbv zeta. rewrite init_cases.
  match goal with |- context [settings._update ?r ?s0] =>
    pose proof (update_cases r s0) as Hu end.
  cbv zeta in Hu. unfold differs in Hu.
  cbn [settings.self settings._value settings._name settings._validator
       settings._callbacks settings.log settings.calls pystr.str
       notifications List.map] in Hu.
  change (pystr.lower "None") with "none" in Hu.
  rewrite !app_nil_r in *.
  split; [|split].
  - intros Hnone. rewrite Hnone in Hu. exact Hu.
  - intros Hsome enc Hvalid. apply String.eqb_neq in Hsome.
    rewrite Hsome, Hvalid in Hu. exact Hu.
  - intros Hsome Hrej. apply String.eqb_neq in Hsome.
    rewrite Hsome, Hrej in Hu. eexists. exact Hu.
Qed.

Lemma setting_construction_witness :
  settings.SingleSetting_init "wrap_line" VNone validators.BooleanValidator
    (settings.mkState
       (settings.mkSingleSetting "" VNone validators.BooleanValidator [])
       [] [])
  = (Ok tt,
     settings.mkState
       (settings.mkSingleSetting "wrap_line" VNone
          validators.BooleanValidator []) [] []).
Proof.
  apply (proj1 (setting_construction "wrap_line" VNone
                  validators.BooleanValidator
                  (settings.mkState
                     (settings.mkSingleSetting "" VNone
                        validators.BooleanValidator []) [] []))).
  reflexivity.
Defined.

(** X7.  The typed constructors store the canonical value of their
    default: a boolean setting constructed with a Python boolean holds
    that boolean, and a log-level setting constructed with the name of a
    level in any case holds the name in lower case. *)
Theorem typed_setting_construction (name : string) (st : settings.State) :
  let fresh (validator : validators.Validator) (v : pyval) :=
    settings.mkState (settings.mkSingleSetting name v validator [])
      (settings.log st ++ [changed_record name VNone v])
      (settings.calls st) in
  (forall bv,
     settings.BooleanSetting_init name (VBool bv) st
     = (Ok tt, fresh validators.BooleanValidator (VBool bv)))
  /\ (forall s, In (pystr.lower s) level_names ->
      settings.LogLevelSetting_init name (VStr s) st
      = (Ok tt,
         fresh (validators.ListValidator level_names)
           (VStr (pystr.lower s)))).
Proof.
  cbv zeta. split.
  - intros bv. unfold settings.BooleanSetting_init, settings.with_validator,
      validators.BooleanValidator_init.
    apply construction_accepted;
      destruct bv; [discriminate|discriminate|reflexivity|reflexivity].
  - intros s Hin. unfold settings.LogLevelSetting_init,
      settings.EnumSetting_init, settings.with_validator,
      validators.ListValidator_init.
    apply construction_accepted.
    + apply level_name_is_not_none. exact Hin.
    + cbn [validators.validate pystr.str].
      rewrite (ListValidator_validate_complete _ _ Hin). reflexivity.
Qed.

(** ** settings.py: the registry *)

Lemma update_keeps_setup (raw : pyval) (st : settings.State) :
  same_setup (settings.self st)
    (settings.self (snd (settings._update raw st))).
Proof.
  pose proof (update_cases raw st) as Hu. cbv zeta in Hu. rewrite Hu.
  destruct (differs raw (settings._value (settings.self st)));
    [|repeat split].
  destruct (validators.validate (settings._validator (settings.self st)) raw)
    as [[enc|]|e]; repeat split.
Qed.

Lemma validate_raises_no_KeyError (v : validators.Validator) (raw : pyval)
    (msg : string) :
  validators.validate v raw <> Raise (KeyError msg).
Proof.
  destruct v as [[|val allowed]|lo hi|]; destruct raw; simpl; discriminate.
Qed.

Lemma update_raises_no_KeyError (raw : pyval) (st st' : settings.State)
    (msg : string) :
  settings._update raw st <> (Raise (KeyError msg), st').
Proof.
  pose proof (update_cases raw st) as Hu. cbv zeta in Hu. rewrite Hu.
  destruct (differs raw (settings._value (settings.self st)));
    [|discriminate].
  destruct (validators.validate (settings._validator (settings.self st)) raw)
    as [[enc|]|e] eqn:Hv; try discriminate.
  intros [= -> _]. apply (validate_raises_no_KeyError _ _ _ Hv).
Qed.

Lemma update_ok_settles (v : pyval) (st st' : settings.State) :
  settings._update v st = (Ok tt, st') ->
  differs v (settings._value (settings.self st')) = false.
Proof.
  intros H. pose proof (update_cases v st) as Hu. cbv zeta in Hu.
  rewrite H in Hu.
  destruct (differs v (settings._value (settings.self st))) eqn:Hd.
  - destruct (validators.validate (settings._validator (settings.self st)) v)
      as [[enc|]|e] eqn:Hv; try discriminate.
    injection Hu as ->. simpl. unfold differs.
    rewrite (valid_same_string _ _ _ Hv), String.eqb_refl. reflexivity.
  - injection Hu as ->. exact Hd.
Qed.

Lemma reloaded_refl (file : settings.SettingsFile)
    (items : settings.SettingsList) :
  Forall2 (reloaded file) items items.
Proof.
  induction items as [|[k s] rest IH]; constructor; [|exact IH].
  repeat split.
Qed.

(** The loop of the reload keeps the keys and the setup of every setting,
    and the settings the file does not name. *)
Lemma reload_items_frame (file : settings.SettingsFile)
    (items : settings.SettingsList) (log : list logging.record)
    (calls : list settings.invocation) :
  Forall2 (reloaded file) items
    (fst (fst (snd (settings.reload_items file items log calls)))).
Proof.
  revert log calls. induction items as [|[name s] rest IH]; intros log calls;
    simpl; [constructor|].
  destruct (file name) as [v|] eqn:Hfile.
  - pose proof (update_keeps_setup v (settings.mkState s log calls)) as Hset.
    destruct (settings._update v (settings.mkState s log calls))
      as [[u|e] st] eqn:Hu; simpl in Hset.
    + specialize (IH (settings.log st) (settings.calls st)).
      destruct (settings.reload_items file rest (settings.log st)
                  (settings.calls st)) as [r [[rest' l'] c']].
      simpl in *. constructor; [|exact IH].
      split; [reflexivity|]. split; [exact Hset|]. simpl. congruence.
    + assert (Hstop :
        Forall2 (reloaded file) ((name, s) :: rest)
          ((name, settings.self st) :: rest)).
      { constructor; [|apply reloaded_refl].
        split; [reflexivity|]. split; [exact Hset|]. simpl. congruence. }
      destruct e; try exact Hstop.
      exfalso. exact (update_raises_no_KeyError _ _ _ _ Hu).
  - specialize (IH log calls).
    destruct (settings.reload_items file rest log calls)
      as [r [[rest' l'] c']].
    simpl in *. constructor; [|exact IH]. repeat split.
Qed.

Lemma reloaded_get (file : settings.SettingsFile)
    (items items' : settings.SettingsList) (name : string)
    (s : settings.SingleSetting) :
  Forall2 (reloaded file) items items' ->
  settings.list_get items name = Some s ->
  exists s',
    settings.list_get items' name = Some s'
    /\ same_setup s s' /\ (file name = None -> s' = s).
Proof.
  induction 1 as [|[k x] [k' x'] rest rest' (Hk & Hset & Hnone) _ IH];
    simpl; [discriminate|].
  simpl in Hk, Hset, Hnone. subst k'.
  destruct (String.eqb k name) eqn:E; [|exact IH].
  apply String.eqb_eq in E. subst k. intros [= <-].
  exists x'. auto.
Qed.

(** X8.  A reload of the settings, whether it goes through or raises,
    keeps the names of the registry in their order and, for every
    setting, its name, validator and registrations; a setting the file
    holds no value for is left exactly as it was. *)
Theorem reload_keeps_the_registry (file : settings.SettingsFile)
    (r : settings.Registry) :
  let r' := snd (settings._on_settings_change file r) in
  List.map fst (settings._settings r') = List.map fst (settings._settings r)
  /\ (forall name s,
        settings.list_get (settings._settings r) name = Some s ->
        exists s',
          settings.list_get (settings._settings r') name = Some s'
          /\ same_setup s s' /\ (file name = None -> s' = s)).
Proof.
  cbv zeta. unfold settings._on_settings_change.
  pose proof (reload_items_frame file (settings._settings r)
                (settings.reg_log r ++ [reloading_record])
                (settings.reg_calls r)) as Hframe.
  unfold reloading_record in Hframe.
  destruct (settings.reload_items file (settings._settings r)
              (settings.reg_log r
                 ++ [logging.mk logging.DEBUG "Reloading settings."])
              (settings.reg_calls r)) as [res [[items l] c]].
  simpl in *. split.
  - clear -Hframe. induction Hframe as [|x y ? ? (Hk & _) _ IH]; simpl;
      [reflexivity|]. rewrite Hk, IH. reflexivity.
  - intros name s Hget. exact (reloaded_get _ _ _ _ _ Hframe Hget).
Qed.

(** The loop of the reload, when every item loads. *)
Lemma reload_items_loads (file : settings.SettingsFile)
    (items : settings.SettingsList) (log : list logging.record)
    (calls : list settings.invocation) :
  Forall (loads file) items ->
  exists items' log' calls',
    settings.reload_items file items log calls
    = (Ok tt, (items', log', calls'))
    /\ List.map (fun it => settings._value (snd it)) items'
       = List.map (loaded file) items.
Proof.
  intros Hall. revert log calls.
  induction Hall as [|[name s] rest Hhead _ IH]; intros log calls; simpl.
  - exists [], log, calls. split; reflexivity.
  - unfold loads in Hhead. unfold loaded at 1. simpl in Hhead |- *.
    destruct (file name) as [v|] eqn:Hfile.
    + pose proof (update_cases v (settings.mkState s log calls)) as Hu.
      cbv zeta in Hu. simpl in Hu.
      destruct (differs v (settings._value s)) eqn:Hd.
      * destruct Hhead as [|[enc Hv]]; [discriminate|].
        rewrite Hv in Hu |- *. rewrite Hu. simpl.
        match goal with |- context [settings.reload_items file rest ?l ?c] =>
          destruct (IH l c) as (items' & log' & calls' & Hrest & Hvals) end.
        rewrite Hrest. eexists. eexists. eexists.
        split; [reflexivity|]. simpl. rewrite Hvals. reflexivity.
      * rewrite Hu. simpl.
        destruct (IH log calls) as (items' & log' & calls' & Hrest & Hvals).
        rewrite Hrest. eexists. eexists. eexists.
        split; [reflexivity|]. simpl. rewrite Hvals. reflexivity.
    + destruct (IH log calls) as (items' & log' & calls' & Hrest & Hvals).
      rewrite Hrest. eexists. eexists. eexists.
      split; [reflexivity|]. simpl. rewrite Hvals. reflexivity.
Qed.

(** X9.  When, for every setting, the settings file holds nothing, or the
    stored value up to case, or a value the validator accepts, the reload
    returns normally and every setting holds the encoded value of the
    file, or its old value where the file has none or the same. *)
Theorem reload_loads_the_file (file : settings.SettingsFile)
    (r : settings.Registry) :
  Forall (loads file) (settings._settings r) ->
  exists r',
    settings._on_settings_change file r = (Ok tt, r')
    /\ List.map (fun it => settings._value (snd it)) (settings._settings r')
       = List.map (loaded file) (settings._settings r).
Proof.
  intros Hall. unfold settings._on_settings_change.
  destruct (reload_items_loads file (settings._settings r)
              (settings.reg_log r
                 ++ [logging.mk logging.DEBUG "Reloading settings."])
              (settings.reg_calls r) Hall)
    as (items' & log' & calls' & Hrun & Hvals).
  rewrite Hrun. eexists. split; [reflexivity|]. exact Hvals.
Qed.

Lemma reload_loads_the_file_witness :
  exists r',
    settings._on_settings_change (file_of "wrap_line" (VBool false))
      (two_settings (VBool true) (VBool true)) = (Ok tt, r')
    /\ List.map (fun it => settings._value (snd it)) (settings._settings r')
       = [VBool true; VBool false].
Proof.
  apply (reload_loads_the_file (file_of "wrap_line" (VBool false))
           (two_settings (VBool true) (VBool true))).
  constructor; [exact I|].
  constructor; [right; exists (VBool false); reflexivity|constructor].
Defined.

Lemma reload_items_app (file : settings.SettingsFile)
    (pre rest pre' : settings.SettingsList)
    (log log1 : list logging.record)
    (calls calls1 : list settings.invocation) :
  settings.reload_items file pre log calls = (Ok tt, (pre', log1, calls1)) ->
  settings.reload_items file (pre ++ rest) log calls
  = (fst (settings.reload_items file rest log1 calls1),
     (pre' ++ fst (fst (snd (settings.reload_items file rest log1 calls1))),
      snd (fst (snd (settings.reload_items file rest log1 calls1))),
      snd (snd (settings.reload_items file rest log1 calls1)))).
Proof.
  revert pre' log calls.
  induction pre as [|[name s] pre IH]; intros pre' log calls; simpl.
  - intros [= <- <- <-].
    destruct (settings.reload_items file rest log calls) as [r [[x l] c]].
    reflexivity.
  - assert (Hstep : forall s' l c,
      (let '(r, (rest', log'', calls'')) :=
         settings.reload_items file pre l c in
       (r, ((name, s') :: rest', log'', calls'')))
      = (Ok tt, (pre', log1, calls1)) ->
      (let '(r, (rest', log'', calls'')) :=
         settings.reload_items file (pre ++ rest) l c in
       (r, ((name, s') :: rest', log'', calls'')))
      = (fst (settings.reload_items file rest log1 calls1),
         (pre' ++ fst (fst (snd (settings.reload_items file rest log1
                                   calls1))),
          snd (fst (snd (settings.reload_items file rest log1 calls1))),
          snd (snd (settings.reload_items file rest log1 calls1))))).
    { intros s' l c.
      destruct (settings.reload_items file pre l c) as [r [[x l'] c']] eqn:E.
      intros [= -> <- <- <-]. rewrite (IH _ _ _ E). reflexivity. }
    destruct (file name) as [v|]; [|apply Hstep].
    destruct (settings._update v (settings.mkState s log calls))
      as [[u|e] st]; [apply Hstep|].
    destruct e; try discriminate. apply Hstep.
Qed.

(** X10.  A value of the settings file that the validator of its setting
    rejects stops the reload with [ValueError]: the settings before it in
    the registry are reloaded, that setting and every setting after it
    keep what they held, whatever the file holds for them. *)
Theorem reload_stops_at_a_rejected_value (file : settings.SettingsFile)
    (pre post : settings.SettingsList) (name : string)
    (s : settings.SingleSetting) (v : pyval)
    (log : list logging.record) (calls : list settings.invocation) :
  Forall (loads file) pre ->
  file name = Some v ->
  differs v (settings._value s) = true ->
  validators.validate (settings._validator s) v = Ok None ->
  exists msg pre' log' calls',
    settings._on_settings_change file
      (settings.mkRegistry (pre ++ (name, s) :: post) log calls)
    = (Raise (ValueError msg),
       settings.mkRegistry (pre' ++ (name, s) :: post) log' calls')
    /\ List.map fst pre' = List.map fst pre
    /\ List.map (fun it => settings._value (snd it)) pre'
       = List.map (loaded file) pre.
Proof.
  intros Hpre Hfile Hd Hrej. unfold settings._on_settings_change. simpl.
  destruct (reload_items_loads file pre
              (log ++ [logging.mk logging.DEBUG "Reloading settings."])
              calls Hpre) as (pre' & log1 & calls1 & Hrun & Hvals).
  rewrite (reload_items_app _ _ ((name, s) :: post) _ _ _ _ _ Hrun).
  pose proof (reload_items_frame file pre
                (log ++ [logging.mk logging.DEBUG "Reloading settings."])
                calls) as Hframe.
  rewrite Hrun in Hframe. simpl in Hframe.
  simpl. rewrite Hfile.
  pose proof (update_cases v (settings.mkState s log1 calls1)) as Hu.
  cbv zeta in Hu. simpl in Hu. rewrite Hd, Hrej in Hu. rewrite Hu.
  simpl. eexists. exists pre', log1, calls1.
  split; [reflexivity|]. split; [|exact Hvals].
  clear -Hframe. induction Hframe as [|x y ? ? (Hk & _) _ IH]; simpl;
    [reflexivity|]. rewrite Hk, IH. reflexivity.
Qed.

Lemma reload_stops_at_a_rejected_value_witness :
  let file : settings.SettingsFile :=
    fun k => if String.eqb k "wrap_buffer" then Some (VStr "maybe")
             else Some (VBool false) in
  let first :=
    settings.mkSingleSetting "wrap_buffer" (VBool true)
      validators.BooleanValidator [] in
  let second :=
    settings.mkSingleSetting "wrap_line" (VBool true)
      validators.BooleanValidator [("view", settings.mkCallback 1)] in
  exists msg pre' log' calls',
    settings._on_settings_change file
      (settings.mkRegistry
         ([] ++ [("wrap_buffer", first); ("wrap_line", second)]) [] [])
    = (Raise (ValueError msg),
       settings.mkRegistry
         (pre' ++ [("wrap_buffer", first); ("wrap_line", second)])
         log' calls')
    /\ List.map fst pre' = []
    /\ List.map (fun it => settings._value (snd it)) pre' = [].
Proof.
  cbv zeta.
  apply (reload_stops_at_a_rejected_value
           (fun k => if String.eqb k "wrap_buffer" then Some (VStr "maybe")
                     else Some (VBool false))
           []
           [("wrap_line",
             settings.mkSingleSetting "wrap_line" (VBool true)
               validators.BooleanValidator
               [("view", settings.mkCallback 1)])]
           "wrap_buffer"
           (settings.mkSingleSetting "wrap_buffer" (VBool true)
              validators.BooleanValidator [])
           (VStr "maybe") [] []
           (Forall_nil _) eq_refl eq_refl eq_refl).
Defined.

Lemma reload_items_ok_settles (file : settings.SettingsFile)
    (items items' : settings.SettingsList)
    (log log' : list logging.record)
    (calls calls' : list settings.invocation) :
  settings.reload_items file items log calls = (Ok tt, (items', log', calls'))
  -> Forall (settled file) items'.
Proof.
  revert items' log calls.
  induction items as [|[name s] rest IH]; intros items' log calls; simpl.
  - intros [= <- _ _]. constructor.
  - assert (Hstep : forall s' l c,
      (match file name with
       | None => True
       | Some v => differs v (settings._value s') = false
       end) ->
      (let '(r, (rest', log'', calls'')) :=
         settings.reload_items file rest l c in
       (r, ((name, s') :: rest', log'', calls'')))
      = (Ok tt, (items', log', calls')) ->
      Forall (settled file) items').
    { intros s' l c Hs.
      destruct (settings.reload_items file rest l c) as [r [[x l'] c']] eqn:E.
      intros [= -> <- <- <-]. constructor; [exact Hs|].
      exact (IH _ _ _ E). }
    destruct (file name) as [v|] eqn:Hfile; [|apply Hstep; exact I].
    destruct (settings._update v (settings.mkState s log calls))
      as [[[]|e] st] eqn:Hu.
    + apply Hstep. exact (update_ok_settles _ _ _ Hu).
    + destruct e; try discriminate.
      exfalso. exact (update_raises_no_KeyError _ _ _ _ Hu).
Qed.

Lemma reload_items_settled (file : settings.SettingsFile)
    (items : settings.SettingsList) (log : list logging.record)
    (calls : list settings.invocation) :
  Forall (settled file) items ->
  settings.reload_items file items log calls = (Ok tt, (items, log, calls)).
Proof.
  induction 1 as [|[name s] rest Hhead _ IH]; simpl; [reflexivity|].
  unfold settled in Hhead. simpl in Hhead.
  destruct (file name) as [v|].
  - pose proof (update_cases v (settings.mkState s log calls)) as Hu.
    cbv zeta in Hu. simpl in Hu. rewrite Hhead in Hu. rewrite Hu. simpl.
    rewrite IH. reflexivity.
  - rewrite IH. reflexivity.
Qed.

(** X11.  A reload that returned normally, made again from the same
    settings file, changes no setting and calls no listener; it only logs
    that it ran. *)
Theorem reload_twice (file : settings.SettingsFile)
    (r r' : settings.Registry) :
  settings._on_settings_change file r = (Ok tt, r') ->
  settings._on_settings_change file r'
  = (Ok tt,
     settings.mkRegistry (settings._settings r')
       (settings.reg_log r' ++ [reloading_record]) (settings.reg_calls r')).
Proof.
  unfold settings._on_settings_change.
  destruct (settings.reload_items file (settings._settings r)
              (settings.reg_log r
                 ++ [logging.mk logging.DEBUG "Reloading settings."])
              (settings.reg_calls r)) as [res [[items l] c]] eqn:Hrun.
  intros [= -> <-]. simpl.
  rewrite (reload_items_settled file items _ _
             (reload_items_ok_settles _ _ _ _ _ _ _ Hrun)).
  reflexivity.
Qed.

Lemma reload_twice_witness :
  let file := file_of "wrap_line" (VBool false) in
  let r' :=
    snd (settings._on_settings_change file
           (two_settings (VBool true) (VBool true))) in
  settings._on_settings_change file r'
  = (Ok tt,
     settings.mkRegistry (settings._settings r')
       (settings.reg_log r' ++ [reloading_record]) (settings.reg_calls r')).
Proof.
  cbv zeta.
  apply (reload_twice (file_of "wrap_line" (VBool false))
           (two_settings (VBool true) (VBool true))).
  vm_compute. reflexivity.
Defined.

Lemma list_get_set (d : settings.SettingsList) (name other : string)
    (s : settings.SingleSetting) :
  settings.list_get (settings.list_set d name s) other
  = if String.eqb name other then Some s else settings.list_get d other.
Proof.
  induction d as [|[k x] rest IH]; simpl.
  - reflexivity.
  - destruct (String.eqb k name) eqn:E; simpl.
    + apply String.eqb_eq in E. subst k.
      destruct (String.eqb name other); reflexivity.
    + destruct (String.eqb k other) eqn:E'; [|exact IH].
      apply String.eqb_eq in E'. subst k. rewrite String.eqb_sym, E.
      reflexivity.
Qed.

(** X12.  Reading a setting as an attribute of the settings object.  A
    setting added under a name that does not start with an underscore and
    is not [deinit] is read back under its name, in place of an earlier
    setting of that name, and the other names read as before.  Reading
    such a name when no setting has it raises [NameError].  A setting
    added under a name that starts with an underscore, or under the name
    [deinit], is not read back: [deinit] reads as the method, and no name
    that starts with an underscore reads as a setting. *)
Theorem setting_is_read_by_name (r : settings.Registry)
    (s : settings.SingleSetting) (name : string) :
  let added :=
    settings.mkRegistry
      (settings.SettingsList_add (settings._settings r) s)
      (settings.reg_log r) (settings.reg_calls r) in
  (pystr.prefix "_" (settings._name s) = false ->
   settings._name s <> "deinit" ->
   settings.Settings_read (settings._name s) added
   = (Ok (settings.Setting s), added))
  /\ (name <> settings._name s ->
      settings.Settings_read name added
      = (fst (settings.Settings_read name r), added))
  /\ (pystr.prefix "_" name = false -> name <> "deinit" ->
      settings.list_get (settings._settings r) name = None ->
      exists msg,
        settings.Settings_read name r = (Raise (NameError msg), r))
  /\ (pystr.prefix "_" name = true ->
      settings.Settings_read name added = (Ok settings.Private, added))
  /\ settings.Settings_read "deinit" added
     = (Ok (settings.BoundMethod "deinit"), added).
Proof.
  cbv zeta. unfold settings.Settings_read, settings.Settings_getattr,
    settings.SettingsList_add.
  split; [|split; [|split; [|split]]].
  - intros Hp Hd. apply String.eqb_neq in Hd. rewrite Hd, Hp.
    unfold bind, get.
    cbn [settings._settings settings.reg_log settings.reg_calls negb].
    rewrite list_get_set, String.eqb_refl. reflexivity.
  - intros Hne. destruct (String.eqb name "deinit"); [reflexivity|].
    destruct (pystr.prefix "_" name); [reflexivity|].
    unfold bind, get.
    cbn [settings._settings settings.reg_log settings.reg_calls negb].
    rewrite list_get_set.
    replace (String.eqb (settings._name s) name) with false
      by (symmetry; apply String.eqb_neq; congruence).
    destruct (settings.list_get (settings._settings r) name); reflexivity.
  - intros Hp Hd Hnone. apply String.eqb_neq in Hd. rewrite Hd, Hp.
    unfold bind, get. rewrite Hnone. cbn [negb]. unfold raise.
    eexists; reflexivity.
  - intros Hp. destruct (String.eqb name "deinit") eqn:Hd.
    + apply String.eqb_eq in Hd. subst name. discriminate Hp.
    + rewrite Hp. reflexivity.
  - reflexivity.
Qed.

Lemma setting_is_read_by_name_witness :
  let r := two_settings (VBool true) (VBool false) in
  let s :=
    settings.mkSingleSetting "wrap_line" (VBool true)
      validators.BooleanValidator [] in
  let added :=
    settings.mkRegistry
      (settings.SettingsList_add (settings._settings r) s)
      (settings.reg_log r) (settings.reg_calls r) in
  settings.Settings_read "wrap_line" added = (Ok (settings.Setting s), added)
  /\ List.map fst (settings._settings added) = ["wrap_buffer"; "wrap_line"].
Proof.
  cbv zeta. split; [|reflexivity].
  apply (proj1 (setting_is_read_by_name
                  (two_settings (VBool true) (VBool false))
                  (settings.mkSingleSetting "wrap_line" (VBool true)
                     validators.BooleanValidator []) "wrap_line")).
  - reflexivity.
  - discriminate.
Defined.

(** ** python/settings.py: the settings of the plugin *)

Lemma add_boolean (name : string) (bv : bool) (r : settings.Registry) :
  settings.add_new (settings.BooleanSetting_init name (VBool bv)) r
  = (Ok tt,
     settings.mkRegistry
       (settings.SettingsList_add (settings._settings r)
          (settings.mkSingleSetting name (VBool bv)
             validators.BooleanValidator []))
       (settings.reg_log r ++ [changed_record name VNone (VBool bv)])
       (settings.reg_calls r)).
Proof.
  unfold settings.add_new, settings.BooleanSetting_init,
    settings.with_validator, validators.BooleanValidator_init.
  rewrite (construction_accepted name (VBool bv) (VBool bv));
    [reflexivity|destruct bv; discriminate|destruct bv; reflexivity].
Qed.

Lemma add_level (name s : string) (r : settings.Registry) :
  In (pystr.lower s) level_names ->
  settings.add_new (settings.LogLevelSetting_init name (VStr s)) r
  = (Ok tt,
     settings.mkRegistry
       (settings.SettingsList_add (settings._settings r)
          (settings.mkSingleSetting name (VStr (pystr.lower s))
             (validators.ListValidator level_names) []))
       (settings.reg_log r
          ++ [changed_record name VNone (VStr (pystr.lower s))])
       (settings.reg_calls r)).
Proof.
  intros Hin. unfold settings.add_new, settings.LogLevelSetting_init,
    settings.EnumSetting_init, settings.with_validator,
    validators.ListValidator_init.
  rewrite (construction_accepted name (VStr s) (VStr (pystr.lower s)));
    [reflexivity|apply level_name_is_not_none; exact Hin|].
  exact (f_equal Ok (ListValidator_validate_complete level_names s Hin)).
Qed.

Lemma reload_nothing (file : settings.SettingsFile) (r : settings.Registry) :
  (forall name, In name (List.map fst (settings._settings r)) ->
                file name = None) ->
  settings._on_settings_change file r
  = (Ok tt,
     settings.mkRegistry (settings._settings r)
       (settings.reg_log r ++ [reloading_record]) (settings.reg_calls r)).
Proof.
  intros Hnone. unfold settings._on_settings_change.
  rewrite reload_items_settled; [reflexivity|].
  apply Forall_forall. intros [k s] Hin. unfold settled. simpl.
  rewrite (Hnone k); [exact I|]. apply (in_map fst) in Hin. exact Hin.
Qed.

Lemma add_constructed_by_the_module (constructor : string)
    (init : M settings.State unit) :
  plugin_settings.add_constructed plugin_settings.SettingsModule
    constructor init
  = settings.add_new init.
Proof. reflexivity. Qed.

(** X13.  While the global [settings] of the module is the imported
    module, the settings of the plugin, constructed with the name of a log
    level in any case over a settings file that names none of the seven
    settings, are the seven settings under their names in order, the log
    level in lower case and the booleans at their defaults, and no
    listener is called.  Once [init] has bound the global to that object,
    a further construction raises [NameError] at its first setting,
    whatever its arguments, and leaves the registry of the new object
    empty. *)
Theorem settings_are_constructed_once (s : string)
    (file : settings.SettingsFile) (r : settings.Registry) :
  In (pystr.lower s) level_names ->
  (forall name, In name setting_names -> file name = None) ->
  exists r',
    plugin_settings.Settings_init
      (plugin_settings.global_settings plugin_settings.imported)
      (VStr s) file r = (Ok tt, r')
    /\ List.map fst (settings._settings r') = setting_names
    /\ (exists level,
          settings.list_get (settings._settings r') "log_level" = Some level
          /\ settings._value level = VStr (pystr.lower s))
    /\ plugin_settings.navigation_settings r'
       = Some word_navigate.default_settings
    /\ settings.reg_calls r' = settings.reg_calls r
    /\ (forall g default_log_level file2 r2,
          plugin_settings.global_settings
            (snd (plugin_settings.init r' g))
          = plugin_settings.SettingsObject r'
          /\ exists msg,
               plugin_settings.Settings_init
                 (plugin_settings.global_settings
                    (snd (plugin_settings.init r' g)))
                 default_log_level file2 r2
               = (Raise (NameError msg),
                  settings.mkRegistry [] (settings.reg_log r2)
                    (settings.reg_calls r2))).
Proof.
  intros Hlevel Hfile. unfold plugin_settings.Settings_init.
  change (plugin_settings.global_settings plugin_settings.imported)
    with plugin_settings.SettingsModule.
  rewrite !add_constructed_by_the_module.
  unfold bind at 1. unfold modify.
  unfold bind at 1. rewrite (add_level _ _ _ Hlevel).
  do 6 (unfold bind at 1; rewrite add_boolean).
  rewrite reload_nothing; [|exact Hfile].
  eexists. split; [reflexivity|].
  split; [reflexivity|]. split; [eexists; split; reflexivity|].
  split; [reflexivity|]. split; [reflexivity|].
  intros g default_log_level file2 r2. split; [reflexivity|].
  eexists. reflexivity.
Qed.

Lemma settings_are_constructed_once_witness :
  exists r',
    plugin_settings.Settings_init plugin_settings.SettingsModule
      (VStr "WARNING") (fun _ => None) (settings.mkRegistry [] [] [])
    = (Ok tt, r')
    /\ plugin_settings.navigation_settings r'
       = Some word_navigate.default_settings
    /\ exists msg,
         plugin_settings.Settings_init (plugin_settings.SettingsObject r')
           (VStr "WARNING") (fun _ => None) (settings.mkRegistry [] [] [])
         = (Raise (NameError msg), settings.mkRegistry [] [] []).
Proof.
  destruct (settings_are_constructed_once "WARNING" (fun _ => None)
              (settings.mkRegistry [] [] []))
    as (r' & Hrun & _ & _ & Hnav & _ & Hagain).
  - simpl. tauto.
  - reflexivity.
  - exists r'. split; [exact Hrun|]. split; [exact Hnav|].
    exact (proj2 (Hagain plugin_settings.imported (VStr "WARNING")
                    (fun _ => None) (settings.mkRegistry [] [] []))).
Defined.

(** ** log.py: the listener of the log level *)

(** X14.  When the log level changes from one of the four level names to
    another and the package logger is at the old level, the listener
    leaves the package logger at the new level and the record that
    announces the change, logged at INFO, always passes the level test:
    also between two levels above INFO, for which the logger is lowered to
    INFO while the record is logged. *)
Theorem log_level_change_is_announced (name old new : string)
    (st : log.State) :
  In old level_names -> In new level_names ->
  log.package_level st = level_value old ->
  log._on_log_lvl_change name (VStr old) (VStr new) st
  = (Ok tt,
     log.mkState (level_value new) (log.root_level st)
       (log.emitted st ++ [level_change_record old new])).
Proof.
  intros Hold Hnew Hlevel. destruct st as [pl rl em]. simpl in Hlevel.
  subst pl. simpl in Hold, Hnew.
  destruct Hold as [<-|[<-|[<-|[<-|[]]]]];
    destruct Hnew as [<-|[<-|[<-|[<-|[]]]]]; reflexivity.
Qed.

Lemma log_level_change_is_announced_witness :
  log._on_log_lvl_change "log_level" (VStr "error") (VStr "warning")
    (log.mkState log.ERROR log.WARNING [])
  = (Ok tt,
     log.mkState log.WARNING log.WARNING
       [level_change_record "error" "warning"]).
Proof.
  apply (log_level_change_is_announced "log_level" "error" "warning"
           (log.mkState log.ERROR log.WARNING []));
    simpl; auto.
Defined.

(** ** word_navigate.py and view.py: the same-word navigation *)

Lemma log_adjacent_word_record (v : View) (forward : bool) (region : Region)
    (s : NavState) :
  view_util.log_adjacent_word v forward region s
  = (Ok tt, logged s [adjacent_record v forward region]).
Proof.
  unfold view_util.log_adjacent_word, adjacent_record.
  rewrite nav_log_logged. destruct forward; reflexivity.
Qed.

(** The same-word search, case by case. *)
Lemma same_word_cases (v : View) (settings : word_navigate.Settings)
    (w : Region) (forward : bool) (s : NavState) :
  view_util.get_region_of_closet_same_word v w forward
    (word_navigate.wrap_buffer settings)
    (word_navigate.case_sensitive settings) s
  = if empty (found_region v settings w forward) then (Ok None, s)
    else (Ok (Some (found_region v settings w forward)),
          logged s [adjacent_record v forward
                      (found_region v settings w forward)]).
Proof.
  unfold view_util.get_region_of_closet_same_word.
  fold (found_region v settings w forward).
  destruct (empty (found_region v settings w forward)); [reflexivity|].
  unfold bind at 1. rewrite log_adjacent_word_record. reflexivity.
Qed.

(** The part of the navigation below the branch chain, case by case. *)
Lemma search_cases (v : View) (settings : word_navigate.Settings)
    (get_index : Z -> index.lookup) (w : Region) (forward : bool)
    (st : NavState) :
  word_navigate.search_from_word_region v settings get_index w forward st
  = match fst (index_of v settings get_index) with
    | VNone =>
        view_util.get_region_of_closet_same_word v w forward
          (word_navigate.wrap_buffer settings)
          (word_navigate.case_sensitive settings)
          (logged st (snd (index_of v settings get_index)
                        ++ [no_index_record]))
    | _ =>
        (Ok None,
         logged st (snd (index_of v settings get_index)
                      ++ [not_implemented_record]))
    end.
Proof.
  unfold word_navigate.search_from_word_region, index_of.
  destruct (word_navigate.use_index settings).
  - destruct (get_index (buffer_id v)) as [msg|idx].
    + unfold bind at 1. unfold bind at 1. unfold word_navigate.warning.
      rewrite nav_log_logged. simpl. unfold bind at 1.
      unfold word_navigate.debug. rewrite nav_log_logged, logged_logged.
      reflexivity.
    + unfold bind at 1. simpl.
      destruct idx; unfold bind at 1;
        unfold word_navigate.debug, word_navigate.warning;
        rewrite nav_log_logged; reflexivity.
  - unfold bind at 1. simpl. unfold bind at 1.
    unfold word_navigate.debug. rewrite nav_log_logged. reflexivity.
Qed.

(** The navigation of a single selection whose classification hands a
    word region to the search. *)
Lemma navigate_from_word_region (v : View)
    (settings : word_navigate.Settings) (get_index : Z -> index.lookup)
    (forward : bool) (st st1 : NavState) (region w : Region) :
  sel st = [region] ->
  word_navigate.pivot_of_region v settings region forward st
  = (Ok (word_navigate.WordRegion w), st1) ->
  word_navigate._navigate v settings get_index forward st
  = (x <- word_navigate.search_from_word_region v settings get_index w
            forward ;;
     word_navigate.apply_region v x forward) st1.
Proof.
  intros Hsel Hpivot.
  unfold word_navigate._navigate,
    word_navigate._get_region_of_word_closest_to_selection.
  unfold bind at 1. unfold bind at 1.
  rewrite multiple_regions_selected, Hsel. simpl.
  unfold bind at 1. rewrite (single_selected_region st region Hsel).
  unfold word_navigate._get_region_of_word_closest_to_region.
  unfold bind at 1. rewrite Hpivot. unfold bind at 1. reflexivity.
Qed.

(** X15.  When the classification hands a word region to the search, no
    index is there and the host finds a match, the navigation selects
    exactly the host's match and asks the host to show it at the centre of
    the viewport. *)
Theorem search_hit_is_selected (v : View)
    (settings : word_navigate.Settings) (get_index : Z -> index.lookup)
    (forward : bool) (st st1 : NavState) (region w : Region) :
  sel st = [region] ->
  word_navigate.pivot_of_region v settings region forward st
  = (Ok (word_navigate.WordRegion w), st1) ->
  fst (index_of v settings get_index) = VNone ->
  empty (found_region v settings w forward) = false ->
  let found := found_region v settings w forward in
  word_navigate._navigate v settings get_index forward st
  = (Ok tt,
     mkNavState [found]
       (log st1 ++ snd (index_of v settings get_index)
          ++ [no_index_record; adjacent_record v forward found;
              applied_record v forward found])
       (effects st ++ [goto_line (fst (rowcol v (begin region)));
                       show_at_center found])).
Proof.
  intros Hsel Hpivot Hindex Hfound found.
  rewrite (navigate_from_word_region _ _ _ _ _ _ _ _ Hsel Hpivot).
  destruct (pivot_of_region_logs v settings region forward st)
    as [records Hlog].
  rewrite Hpivot in Hlog. simpl in Hlog. subst st1.
  unfold bind at 1. rewrite search_cases, Hindex, same_word_cases.
  rewrite Hfound. fold found. unfold word_navigate.apply_region.
  unfold bind at 1. unfold word_navigate.debug.
  assert (Hrec : forall s,
    (if forward then nav_log logging.DEBUG
                       ("Next word is '" ^^ substr v found ^^ "'.")
     else nav_log logging.DEBUG
            ("Previous word is '" ^^ substr v found ^^ "'.")) s
    = (Ok tt, logged s [applied_record v forward found])).
  { intros s. unfold applied_record. destruct forward; reflexivity. }
  rewrite Hrec, !logged_logged.
  rewrite (select_and_zoom v found region []) by exact Hsel.
  unfold logged. simpl. rewrite <- !app_assoc. reflexivity.
Qed.

Lemma search_hit_is_selected_witness :
  let v := TextHost.view "flagpole banana flagpole" in
  let st := mkNavState [mkRegion 0 8] [] [] in
  sel (snd (word_navigate.navigate_forward v word_navigate.default_settings
              (fun _ => index.raises_KeyError "1") st))
  = [mkRegion 16 24].
Proof.
  cbv zeta. unfold word_navigate.navigate_forward.
  rewrite (search_hit_is_selected
             (TextHost.view "flagpole banana flagpole")
             word_navigate.default_settings
             (fun _ => index.raises_KeyError "1") true
             (mkNavState [mkRegion 0 8] [] [])
             (snd (word_navigate.pivot_of_region
                     (TextHost.view "flagpole banana flagpole")
                     word_navigate.default_settings (mkRegion 0 8) true
                     (mkNavState [mkRegion 0 8] [] [])))
             (mkRegion 0 8) (mkRegion 0 8) eq_refl).
  - vm_compute. reflexivity.
  - vm_compute. reflexivity.
  - reflexivity.
  - vm_compute. reflexivity.
Defined.

(** X16.  When the index is used and the lookup returns an index, the
    navigation of a selection that reaches the search does not search: it
    logs the warning "Not implemented." and leaves the selection and the
    viewport as they were, whatever the buffer holds. *)
Theorem index_found_is_a_no_op (v : View)
    (settings : word_navigate.Settings) (get_index : Z -> index.lookup)
    (forward : bool) (st st1 : NavState) (region w : Region) :
  sel st = [region] ->
  word_navigate.pivot_of_region v settings region forward st
  = (Ok (word_navigate.WordRegion w), st1) ->
  fst (index_of v settings get_index) <> VNone ->
  word_navigate._navigate v settings get_index forward st
  = (Ok tt,
     mkNavState (sel st) (log st1 ++ [not_implemented_record]) (effects st)).
Proof.
  intros Hsel Hpivot Hindex.
  rewrite (navigate_from_word_region _ _ _ _ _ _ _ _ Hsel Hpivot).
  destruct (pivot_of_region_logs v settings region forward st)
    as [records Hlog].
  rewrite Hpivot in Hlog. simpl in Hlog. subst st1.
  unfold bind at 1. rewrite search_cases.
  assert (Hnolog : snd (index_of v settings get_index) = []).
  { unfold index_of in *. destruct (word_navigate.use_index settings);
      [|reflexivity]. destruct (get_index (buffer_id v)); [|reflexivity].
    simpl in Hindex. congruence. }
  rewrite Hnolog.
  destruct (fst (index_of v settings get_index)); try congruence;
    reflexivity.
Qed.

Lemma index_found_is_a_no_op_witness :
  let v := TextHost.view "flagpole banana flagpole" in
  let st := mkNavState [mkRegion 0 8] [] [] in
  sel (snd (word_navigate.navigate_forward v word_navigate.default_settings
              (fun _ => index.returns (VInt 7)) st))
  = [mkRegion 0 8].
Proof.
  cbv zeta. unfold word_navigate.navigate_forward.
  rewrite (index_found_is_a_no_op
             (TextHost.view "flagpole banana flagpole")
             word_navigate.default_settings
             (fun _ => index.returns (VInt 7)) true
             (mkNavState [mkRegion 0 8] [] [])
             (snd (word_navigate.pivot_of_region
                     (TextHost.view "flagpole banana flagpole")
                     word_navigate.default_settings (mkRegion 0 8) true
                     (mkNavState [mkRegion 0 8] [] [])))
             (mkRegion 0 8) (mkRegion 0 8) eq_refl).
  - reflexivity.
  - vm_compute. reflexivity.
  - vm_compute. discriminate.
Defined.

(** X17.  With an empty selection each of the four navigation functions
    raises [IndexError] and changes nothing: the exception of [sel[0]] is
    caught nowhere. *)
Theorem empty_selection_raises (v : View)
    (settings : word_navigate.Settings) (get_index : Z -> index.lookup)
    (st : NavState) :
  sel st = [] ->
  word_navigate.navigate_backward v settings get_index st
  = (Raise index_error, st)
  /\ word_navigate.navigate_forward v settings get_index st
     = (Raise index_error, st)
  /\ word_navigate.navigate_backward_in_line v settings st
     = (Raise index_error, st)
  /\ word_navigate.navigate_forward_in_line v settings st
     = (Raise index_error, st).
Proof.
  intros Hsel.
  assert (Hsingle : selection.get_single_selected_region st
                    = (Raise index_error, st)).
  { unfold selection.get_single_selected_region. unfold bind at 1.
    rewrite multiple_regions_selected, Hsel. simpl.
    unfold selection.get_first_selected_region, sel_item0.
    rewrite Hsel. reflexivity. }
  unfold word_navigate.navigate_backward, word_navigate.navigate_forward,
    word_navigate.navigate_backward_in_line,
    word_navigate.navigate_forward_in_line, word_navigate._navigate,
    word_navigate._navigate_in_line,
    word_navigate._get_region_of_word_closest_to_selection,
    word_navigate._get_region_of_closest_word_in_line.
  repeat split; unfold bind at 1; unfold bind at 1;
    rewrite multiple_regions_selected, Hsel; simpl;
    unfold bind at 1; rewrite Hsingle; reflexivity.
Qed.

Lemma empty_selection_raises_witness :
  word_navigate.navigate_forward (TextHost.view "foo bar")
    word_navigate.default_settings (fun _ => index.raises_KeyError "1")
    (mkNavState [] [] [])
  = (Raise index_error, mkNavState [] [] []).
Proof.
  apply (empty_selection_raises (TextHost.view "foo bar")
           word_navigate.default_settings
           (fun _ => index.raises_KeyError "1") (mkNavState [] [] [])).
  reflexivity.
Defined.

(** X18.  An in-line navigation from a single selection that does not
    classify as no-word raises [AttributeError], for the function
    [is_single_word] it asks for does not exist in view.py; nothing is
    selected, logged or scrolled, whatever [expand_first] says. *)
Theorem inline_navigation_of_a_word_raises (v : View)
    (settings : word_navigate.Settings) (forward : bool) (st : NavState)
    (region : Region) :
  sel st = [region] ->
  view_util.is_not_part_of_any_word v region = false ->
  word_navigate._navigate_in_line v settings forward st
  = (Raise is_single_word_error, st).
Proof.
  intros Hsel Hno.
  unfold word_navigate._navigate_in_line,
    word_navigate._get_region_of_closest_word_in_line.
  unfold bind at 1. unfold bind at 1.
  rewrite multiple_regions_selected, Hsel. simpl.
  unfold bind at 1. rewrite (single_selected_region st region Hsel).
  rewrite Hno. reflexivity.
Qed.

Lemma inline_navigation_of_a_word_raises_witness :
  word_navigate.navigate_forward_in_line (TextHost.view "foo bar")
    word_navigate.default_settings (mkNavState [mkRegion 0 3] [] [])
  = (Raise is_single_word_error, mkNavState [mkRegion 0 3] [] []).
Proof.
  apply (inline_navigation_of_a_word_raises (TextHost.view "foo bar")
           word_navigate.default_settings true
           (mkNavState [mkRegion 0 3] [] []) (mkRegion 0 3)).
  - reflexivity.
  - vm_compute. reflexivity.
Defined.

(** *** What a navigation leaves alone *)

Lemma extends_logged (st : NavState) (records : list logging.record) :
  extends st (logged st records).
Proof.
  split; [exists records; reflexivity|].
  split; [exists []; simpl; rewrite app_nil_r; reflexivity|].
  left. reflexivity.
Qed.

Lemma single_region_state (st : NavState) :
  snd (selection.get_single_selected_region st) = st.
Proof.
  unfold selection.get_single_selected_region. unfold bind at 1.
  rewrite multiple_regions_selected.
  destruct (1 <? Z.of_nat (List.length (sel st))); [reflexivity|].
  unfold selection.get_first_selected_region, sel_item0.
  destruct (sel st); reflexivity.
Qed.

Lemma choose_region_logs (v : View) (forward : bool)
    (regions : list Region) (s : NavState) :
  exists records,
    snd (view_util.choose_region v forward regions s) = logged s records.
Proof.
  destruct regions as [|first rest]; unfold view_util.choose_region.
  - exists []. rewrite logged_nil. reflexivity.
  - unfold bind at 1. rewrite log_adjacent_word_record.
    eexists; reflexivity.
Qed.

Lemma closest_word_in_line_logs (v : View) (point : Z)
    (forward wrap : bool) (s : NavState) :
  exists records,
    snd (view_util.get_region_of_closest_word_in_line v point forward wrap s)
    = logged s records.
Proof.
  unfold view_util.get_region_of_closest_word_in_line.
  set (line := fst (rowcol v point)). set (col := snd (rowcol v point)).
  unfold bind at 1. rewrite nav_log_logged.
  unfold bind at 1. rewrite search_in_line, logged_logged.
  destruct (words_in_line v forward line col) as [|w0 ws].
  - unfold bind at 1. rewrite nav_log_logged, logged_logged.
    destruct wrap; [|eexists; reflexivity].
    destruct (if forward then (line, 0)
              else rowcol v (text_point v (line + 1) 0 - 1)) as [l c].
    change (negb true) with false. cbv beta iota.
    destruct (col =? c); [eexists; reflexivity|].
    unfold bind at 1. rewrite search_in_line, logged_logged.
    match goal with |- context [view_util.choose_region v forward ?rs ?s0] =>
      destruct (choose_region_logs v forward rs s0) as [records Hc] end.
    rewrite Hc, logged_logged. eexists; reflexivity.
  - match goal with |- context [view_util.choose_region v forward ?rs ?s0] =>
      destruct (choose_region_logs v forward rs s0) as [records Hc] end.
    rewrite Hc, logged_logged. eexists; reflexivity.
Qed.

Lemma search_from_word_region_logs (v : View)
    (settings : word_navigate.Settings) (get_index : Z -> index.lookup)
    (w : Region) (forward : bool) (st : NavState) :
  exists records,
    snd (word_navigate.search_from_word_region v settings get_index w
           forward st)
    = logged st records.
Proof.
  rewrite search_cases.
  destruct (fst (index_of v settings get_index));
    try (eexists; reflexivity).
  rewrite same_word_cases.
  destruct (empty (found_region v settings w forward)); simpl;
    rewrite ?logged_logged; eexists; reflexivity.
Qed.

Lemma apply_region_extends (v : View) (x : option Region) (forward : bool)
    (s : NavState) :
  extends s (snd (word_navigate.apply_region v x forward s)).
Proof.
  destruct x as [r|]; unfold word_navigate.apply_region;
    [|pose proof (extends_logged s []) as H; rewrite logged_nil in H;
      exact H].
  unfold bind at 1. unfold word_navigate.debug.
  assert (Hrec : forall s0,
    (if forward then nav_log logging.DEBUG
                       ("Next word is '" ^^ substr v r ^^ "'.")
     else nav_log logging.DEBUG
            ("Previous word is '" ^^ substr v r ^^ "'.")) s0
    = (Ok tt, logged s0 [applied_record v forward r])).
  { intros s0. unfold applied_record. destruct forward; reflexivity. }
  rewrite Hrec. destruct (sel s) as [|r0 rest] eqn:Hsel.
  - unfold selection.select_and_zoom_to_region. unfold bind at 1.
    unfold sel_item0. simpl. rewrite Hsel. simpl.
    apply extends_logged.
  - rewrite (select_and_zoom v r r0 rest) by exact Hsel. simpl.
    split; [eexists; reflexivity|]. split; [eexists; reflexivity|].
    right. exists r. reflexivity.
Qed.

Lemma extends_after_logged (s s' : NavState) (records : list logging.record) :
  extends (logged s records) s' -> extends s s'.
Proof.
  intros ((r2 & Hlog) & Heff & Hsel). split; [|split].
  - exists (records ++ r2). rewrite Hlog. simpl. rewrite app_assoc.
    reflexivity.
  - exact Heff.
  - exact Hsel.
Qed.

Lemma same_word_policy_logs (v : View) (settings : word_navigate.Settings)
    (get_index : Z -> index.lookup) (forward : bool) (st : NavState) :
  exists records,
    snd (word_navigate._get_region_of_word_closest_to_selection
           v settings get_index forward st)
    = logged st records.
Proof.
  unfold word_navigate._get_region_of_word_closest_to_selection.
  unfold bind at 1. rewrite multiple_regions_selected.
  destruct (1 <? Z.of_nat (List.length (sel st))).
  - unfold bind at 1. unfold word_navigate.warning. rewrite nav_log_logged.
    eexists; reflexivity.
  - unfold bind at 1. pose proof (single_region_state st) as Hs.
    destruct (selection.get_single_selected_region st) as [[region|e] s0].
    + simpl in Hs. subst s0.
      unfold word_navigate._get_region_of_word_closest_to_region.
      unfold bind at 1.
      destruct (pivot_of_region_logs v settings region forward st)
        as [records Hp].
      destruct (word_navigate.pivot_of_region v settings region forward st)
        as [[[r|w]|e] s1]; simpl in Hp; subst s1;
        try (eexists; reflexivity).
      destruct (search_from_word_region_logs v settings get_index w forward
                  (logged st records)) as [records' Hs].
      rewrite Hs, logged_logged. eexists; reflexivity.
    + simpl in Hs. subst s0. exists []. rewrite logged_nil. reflexivity.
Qed.

Lemma inline_policy_logs (v : View) (settings : word_navigate.Settings)
    (forward : bool) (st : NavState) :
  exists records,
    snd (word_navigate._get_region_of_closest_word_in_line
           v settings forward st)
    = logged st records.
Proof.
  unfold word_navigate._get_region_of_closest_word_in_line.
  unfold bind at 1. rewrite multiple_regions_selected.
  destruct (1 <? Z.of_nat (List.length (sel st))).
  - unfold bind at 1. unfold word_navigate.warning. rewrite nav_log_logged.
    eexists; reflexivity.
  - unfold bind at 1. pose proof (single_region_state st) as Hs.
    destruct (selection.get_single_selected_region st) as [[region|e] s0];
      simpl in Hs; subst s0;
      [|exists []; rewrite logged_nil; reflexivity].
    destruct (view_util.is_not_part_of_any_word v region).
    + unfold bind at 1. unfold word_navigate.debug. rewrite nav_log_logged.
      unfold bind at 1.
      match goal with |- context [selection.get_caret_point ?s0] =>
        pose proof (caret_point_state s0) as Hc;
        destruct (selection.get_caret_point s0) as [[p|e] s1] end;
        simpl in Hc; subst s1; [|eexists; reflexivity].
      match goal with
      | |- context [view_util.get_region_of_closest_word_in_line
                      v ?p ?f ?w ?s0] =>
          destruct (closest_word_in_line_logs v p f w s0) as [records Hl]
      end.
      rewrite Hl, logged_logged. eexists; reflexivity.
    + unfold bind at 1. unfold word_navigate.is_single_word, raise.
      exists []. rewrite logged_nil. reflexivity.
Qed.

(** X19.  Whatever a navigation does and however it ends, the records
    that were in the log stay, the requests that were made to the viewport
    stay, and the selection is as it was or is one region. *)
Theorem navigation_extends_the_state (v : View)
    (settings : word_navigate.Settings) (get_index : Z -> index.lookup)
    (forward : bool) (st : NavState) :
  extends st
    (snd (word_navigate._navigate v settings get_index forward st))
  /\ extends st
       (snd (word_navigate._navigate_in_line v settings forward st)).
Proof.
  split.
  - unfold word_navigate._navigate. unfold bind at 1.
    destruct (same_word_policy_logs v settings get_index forward st)
      as [records Hp].
    destruct (word_navigate._get_region_of_word_closest_to_selection
                v settings get_index forward st) as [[x|e] s1];
      simpl in Hp; subst s1; [|apply extends_logged].
    apply (extends_after_logged st _ records), apply_region_extends.
  - unfold word_navigate._navigate_in_line. unfold bind at 1.
    destruct (inline_policy_logs v settings forward st) as [records Hp].
    destruct (word_navigate._get_region_of_closest_word_in_line
                v settings forward st) as [[x|e] s1];
      simpl in Hp; subst s1; [|apply extends_logged].
    apply (extends_after_logged st _ records), apply_region_extends.
Qed.

(** ** view.py: the classifier and the searches *)

(** X20.  On a host that obeys the word-class laws, an empty region inside
    the buffer, a bare caret, is never a single complete word, never
    several complete words and never part of several words: the policy
    treats it as no-word or as part of a single word. *)
Theorem caret_is_no_selection_of_words (v : View) (laws : WordClassLaws v)
    (r : Region) :
  empty r = true -> end_ r <= size v ->
  view_util.is_single_complete_word v r = false
  /\ view_util.is_multiple_complete_words v r = false
  /\ view_util.is_part_of_multiple_words v r = false.
Proof.
  intros Hemp Hin. apply empty_begin_end in Hemp.
  assert (Hsingle : view_util.is_single_complete_word v r = false).
  { destruct (view_util.is_single_complete_word v r) eqn:Hs;
      [exfalso|reflexivity].
    apply single_cases in Hs. destruct Hs as [Hb He].
    pose proof (start_inside v laws _ Hb) as Hbs.
    pose proof (forward_progress v laws (begin r) WORD_END Hbs). lia. }
  split; [exact Hsingle|]. split.
  - destruct (view_util.is_multiple_complete_words v r) eqn:Hm;
      [exfalso|reflexivity].
    apply multiple_cases in Hm. destruct Hm as (Hb & He & _).
    rewrite Hemp in He. unfold starts_word, ends_word in *.
    rewrite (start_excludes_end v laws _ Hb) in He. discriminate.
  - destruct (view_util.is_part_of_multiple_words v r) eqn:Hp;
      [exfalso|reflexivity].
    apply part_cases in Hp.
    pose proof (forward_le_size v laws (begin r) WORD_END) as Hep.
    pose proof (forward_ge v laws _ WORD_START Hep) as Hsp.
    assert (Hbe : begin r <= find_by_class v (begin r) true WORD_END)
      by (apply (forward_ge v laws); lia).
    lia.
Qed.

Lemma caret_is_no_selection_of_words_witness :
  let v := TextHost.view "flagpole banana" in
  categories v (mkRegion 3 3) = [false; false; false; false].
Proof.
  cbv zeta. unfold categories.
  destruct (caret_is_no_selection_of_words
              (TextHost.view "flagpole banana")
              (TextHost_laws "flagpole banana") (mkRegion 3 3) eq_refl)
    as (H1 & H2 & H3).
  - vm_compute. discriminate.
  - rewrite H1, H2, H3. vm_compute. reflexivity.
Defined.

(** Between a point that holds no word character and a later point that
    holds one, a word starts. *)
Lemma word_start_between (buf : list ascii) (p q : Z) :
  TextHost.word_at buf p = false -> TextHost.word_at buf q = true ->
  p < q ->
  exists s, p < s <= q /\ has (TextHost.classify buf s) WORD_START = true.
Proof.
  intros Hp. remember (Z.to_nat (q - p)) as n eqn:Hn. revert q Hn.
  induction n as [|n IH]; intros q Hn Hq Hlt; [lia|].
  destruct (TextHost.word_at buf (q - 1)) eqn:Hprev.
  - assert (Hne : q - 1 <> p)
      by (intros Heq; rewrite Heq in Hprev; congruence).
    destruct (IH (q - 1)) as (s & Hs & Hstart); try assumption; try lia.
    exists s. split; [lia|exact Hstart].
  - exists q. split; [lia|].
    unfold TextHost.classify. rewrite Hprev, Hq. reflexivity.
Qed.

(** X21.  On a text buffer every region of several complete words also
    passes the test for part of several words, which is why the policy
    asks for the complete words first. *)
Theorem complete_words_are_part_of_words (text : string) (r : Region) :
  view_util.is_multiple_complete_words (TextHost.view text) r = true ->
  view_util.is_part_of_multiple_words (TextHost.view text) r = true.
Proof.
  intros Hm. pose proof (TextHost_laws text) as laws.
  set (v := TextHost.view text) in *.
  set (buf := list_ascii_of_string text).
  pose proof (multiple_cases v r Hm) as (Hb & He & Hsingle).
  unfold starts_word, ends_word in Hb, He.
  pose proof (start_excludes_end v laws _ Hb) as Hbe.
  assert (Hlt : begin r < end_ r).
  { pose proof (begin_le_end r).
    destruct (Z.eq_dec (begin r) (end_ r)) as [Heq|]; [|lia].
    rewrite <- Heq in He. congruence. }
  set (ep := find_by_class v (begin r) true WORD_END).
  assert (Hep : ep <= end_ r) by (apply (forward_bounded v laws); assumption).
  assert (Hne : ep <> end_ r).
  { intros Heq. unfold view_util.is_single_complete_word in Hsingle.
    rewrite Hb in Hsingle. fold ep in Hsingle. apply Z.eqb_neq in Hsingle.
    contradiction. }
  pose proof (classify_end buf (end_ r) He) as [Hlast _].
  pose proof (word_at_inside buf _ Hlast) as Hinside.
  assert (Hend : has (classify v ep) WORD_END = true).
  { apply (forward_hit v laws). fold ep.
    change (size v) with (TextHost.size buf). lia. }
  pose proof (classify_end buf ep Hend) as [_ Hgap].
  assert (Hne' : ep <> end_ r - 1) by (intros Heq; congruence).
  destruct (word_start_between buf ep (end_ r - 1) Hgap Hlast)
    as (s & Hs & Hstart); [lia|].
  assert (Hsp : find_by_class v ep true WORD_START <= s)
    by (apply (forward_bounded v laws); [lia|exact Hstart]).
  unfold view_util.is_part_of_multiple_words. fold ep.
  apply Z.geb_le. lia.
Qed.

Lemma complete_words_are_part_of_words_witness :
  view_util.is_part_of_multiple_words (TextHost.view "flagpole banana")
    (mkRegion 0 15) = true.
Proof.
  apply (complete_words_are_part_of_words "flagpole banana" (mkRegion 0 15)).
  vm_compute. reflexivity.
Defined.

(** X22.  When the in-line search finds words from the caret in the
    requested direction, it answers with the first of them going forward
    and with the reverse of the last of them going backward, after one
    search, whether wrapping is enabled or not. *)
Theorem inline_first_search (v : View) (point : Z) (forward wrap : bool)
    (st : NavState) (first : Region) (rest : list Region) :
  let line := fst (rowcol v point) in
  let col := snd (rowcol v point) in
  words_in_line v forward line col = first :: rest ->
  let region :=
    if forward then first
    else selection.reverse_region (List.last (first :: rest) first) in
  view_util.get_region_of_closest_word_in_line v point forward wrap st
  = (Ok (Some region),
     logged st [finding_record line col; searching_record v forward line col;
                adjacent_record v forward region]).
Proof.
  intros line col Hwords region.
  unfold view_util.get_region_of_closest_word_in_line.
  fold line col. unfold bind at 1. rewrite nav_log_logged.
  unfold bind at 1. rewrite search_in_line, Hwords, logged_logged.
  unfold view_util.choose_region. fold region.
  unfold bind at 1. rewrite log_adjacent_word_record, logged_logged.
  reflexivity.
Qed.

Lemma inline_first_search_witness :
  fst (view_util.get_region_of_closest_word_in_line
         (TextHost.view "foo   bar bar") 4 false false
         (mkNavState [mkRegion 4 4] [] []))
  = Ok (Some (mkRegion 3 0)).
Proof.
  rewrite (inline_first_search (TextHost.view "foo   bar bar") 4 false false
             (mkNavState [mkRegion 4 4] [] []) (mkRegion 0 3) []).
  - reflexivity.
  - vm_compute. reflexivity.
Defined.

(** X23.  The flags of both searches encode their arguments and nothing
    else: the reverse bit is set exactly when the search goes backward,
    the ignore-case bit exactly when it is not case sensitive, the wrap
    bit exactly when wrapping is asked for, and no other bit is set. *)
Theorem search_flags_decode (forward wrap case_sensitive : bool) :
  let flags := view_util.search_flags forward wrap case_sensitive in
  has flags REVERSE = negb forward
  /\ has flags IGNORECASE = negb case_sensitive
  /\ has flags WRAP = wrap
  /\ Z.land flags (Z.lnot (Z.lor REVERSE (Z.lor IGNORECASE WRAP))) = 0
  /\ view_util.line_flags forward = (if forward then 0 else REVERSE).
Proof.
  destruct forward, wrap, case_sensitive; repeat split.
Qed.

(** ** word_navigate.py: which selections are searched for *)

(** X24.  For a single selection that does not classify as no-word the
    classification returns normally.  With [expand_first] disabled it
    always hands a word region to the search; with [expand_first] enabled
    it does so exactly when the selection is a single complete word, or
    is several complete words while [allow_multiple_words] is enabled, and
    otherwise returns a region to select without any search. *)
Theorem searched_selections (v : View) (settings : word_navigate.Settings)
    (region : Region) (forward : bool) (st : NavState) :
  sel st = [region] ->
  view_util.is_not_part_of_any_word v region = false ->
  exists p records,
    word_navigate.pivot_of_region v settings region forward st
    = (Ok p, logged st records)
    /\ hands_to_search p
       = negb (word_navigate.expand_first settings)
         || view_util.is_single_complete_word v region
         || (word_navigate.allow_multiple_words settings
             && view_util.is_multiple_complete_words v region).
Proof.
  intros Hsel Hno. unfold word_navigate.pivot_of_region. rewrite Hno.
  assert (Hcaret : forall records,
            selection.get_caret_point (logged st records)
            = (Ok (b region), logged st records))
    by (intros records; apply caret_point_of_single; exact Hsel).
  destruct (view_util.is_single_complete_word v region),
    (view_util.is_multiple_complete_words v region),
    (view_util.is_part_of_multiple_words v region),
    (word_navigate.allow_multiple_words settings),
    (word_navigate.expand_first settings);
    cbn [negb];
    unfold bind at 1; unfold word_navigate.debug; rewrite nav_log_logged;
    try (unfold bind at 1; rewrite Hcaret);
    unfold ret; eexists; eexists; split; reflexivity.
Qed.

Lemma searched_selections_witness :
  let v := TextHost.view "flagpole banana" in
  let st := mkNavState [mkRegion 1 8] [] [] in
  exists p records,
    word_navigate.pivot_of_region v
      (word_navigate.mkSettings true true false true true false)
      (mkRegion 1 8) true st
    = (Ok p, logged st records)
    /\ hands_to_search p = true.
Proof.
  cbv zeta.
  destruct (searched_selections (TextHost.view "flagpole banana")
              (word_navigate.mkSettings true true false true true false)
              (mkRegion 1 8) true (mkNavState [mkRegion 1 8] [] []))
    as (p & records & Hrun & Hkind).
  - reflexivity.
  - vm_compute. reflexivity.
  - exists p, records. split; [exact Hrun|]. rewrite Hkind. reflexivity.
Defined.

(** ** view.py on a text buffer: what the classifier tells of the text *)

(** Between a point that holds a word character and a later point that
    holds none, a word ends. *)
Lemma word_end_between (buf : list ascii) (p q : Z) :
  TextHost.word_at buf p = true -> TextHost.word_at buf q = false ->
  p < q ->
  exists s, p < s <= q /\ has (TextHost.classify buf s) WORD_END = true.
Proof.
  intros Hp. remember (Z.to_nat (q - p)) as n eqn:Hn. revert q Hn.
  induction n as [|n IH]; intros q Hn Hq Hlt; [lia|].
  destruct (TextHost.word_at buf (q - 1)) eqn:Hprev.
  - exists q. split; [lia|].
    unfold TextHost.classify. rewrite Hprev, Hq. reflexivity.
  - assert (Hne : q - 1 <> p)
      by (intros Heq; rewrite Heq in Hprev; congruence).
    destruct (IH (q - 1)) as (s & Hs & Hend); try assumption; try lia.
    exists s. split; [lia|exact Hend].
Qed.

Lemma word_at_size (buf : list ascii) :
  TextHost.word_at buf (TextHost.size buf) = false.
Proof.
  destruct (TextHost.word_at buf (TextHost.size buf)) eqn:H; [|reflexivity].
  apply word_at_inside in H. lia.
Qed.

Lemma forward_word_end (text : string) (p : Z) :
  TextHost.word_at (list_ascii_of_string text)
    (find_by_class (TextHost.view text) p true WORD_END) = false.
Proof.
  set (buf := list_ascii_of_string text). set (v := TextHost.view text).
  pose proof (TextHost_laws text) as laws. fold v in laws.
  pose proof (forward_le_size v laws p WORD_END) as Hle.
  change (size v) with (TextHost.size buf) in Hle.
  destruct (Z.eq_dec (find_by_class v p true WORD_END) (TextHost.size buf))
    as [->|Hne]; [apply word_at_size|].
  assert (Hhit : has (classify v (find_by_class v p true WORD_END)) WORD_END
                 = true).
  { apply (forward_hit v laws). change (size v) with (TextHost.size buf).
    lia. }
  apply (classify_end buf) in Hhit. tauto.
Qed.

(** X25.  On a text buffer a region is a single complete word exactly
    when it is a maximal run of word characters: every character in it is
    a word character, and the characters before and after it, if any, are
    not. *)
Theorem single_complete_word_is_a_run (text : string) (r : Region) :
  view_util.is_single_complete_word (TextHost.view text) r = true
  <-> is_word_run (list_ascii_of_string text) r.
Proof.
  set (buf := list_ascii_of_string text). set (v := TextHost.view text).
  pose proof (TextHost_laws text) as laws. fold v in laws. split.
  - intros Hs. apply single_cases in Hs. destruct Hs as [Hb He].
    pose proof (classify_start buf _ Hb) as [Hbefore Hfirst].
    pose proof (start_inside v laws _ Hb) as Hbs.
    pose proof (forward_progress v laws (begin r) WORD_END Hbs) as Hp.
    rewrite He in Hp. split; [exact Hp|]. split; [|split].
    + intros p Hin.
      destruct (TextHost.word_at buf p) eqn:Hw; [reflexivity|exfalso].
      assert (Hne : p <> begin r) by (intros ->; congruence).
      destruct (word_end_between buf (begin r) p Hfirst Hw)
        as (s & Hs & Hend); [lia|].
      change (TextHost.classify buf s) with (classify v s) in Hend.
      rewrite (forward_first v laws (begin r) WORD_END s) in Hend
        by (rewrite He; lia).
      discriminate.
    + exact Hbefore.
    + rewrite <- He. apply (forward_word_end text).
  - intros (Hlt & Hall & Hbefore & Hafter).
    assert (Hfirst : TextHost.word_at buf (begin r) = true)
      by (apply Hall; lia).
    assert (Hlast : TextHost.word_at buf (end_ r - 1) = true)
      by (apply Hall; lia).
    assert (Hb : has (classify v (begin r)) WORD_START = true).
    { change (classify v) with (TextHost.classify buf).
      unfold TextHost.classify.
      rewrite Hbefore, Hfirst. reflexivity. }
    assert (He : has (classify v (end_ r)) WORD_END = true).
    { change (classify v) with (TextHost.classify buf).
      unfold TextHost.classify.
      rewrite Hlast, Hafter. reflexivity. }
    unfold view_util.is_single_complete_word. rewrite Hb.
    apply Z.eqb_eq.
    pose proof (forward_bounded v laws _ _ _ Hlt He) as Hle.
    pose proof (start_inside v laws _ Hb) as Hbs.
    pose proof (forward_progress v laws (begin r) WORD_END Hbs) as Hp.
    destruct (Z.eq_dec (find_by_class v (begin r) true WORD_END) (end_ r))
      as [|Hne]; [assumption|exfalso].
    pose proof (forward_word_end text (begin r)) as Hgap.
    fold buf v in Hgap.
    rewrite Hall in Hgap by lia. discriminate.
Qed.

(** X26.  On a text buffer a region that classifies as no-word holds no
    word character. *)
Theorem no_word_region_holds_no_word (text : string) (r : Region) (p : Z) :
  view_util.is_not_part_of_any_word (TextHost.view text) r = true ->
  begin r <= p < end_ r ->
  TextHost.word_at (list_ascii_of_string text) p = false.
Proof.
  set (buf := list_ascii_of_string text). set (v := TextHost.view text).
  pose proof (TextHost_laws text) as laws. fold v in laws.
  intros Hno Hin. apply no_word_cases in Hno.
  destruct Hno as [[_ Hemp]|[Hx Hge]];
    [apply empty_begin_end in Hemp; lia|].
  set (x := find_by_class v (begin r) true word_boundary) in *.
  unfold starts_word in Hx.
  pose proof (classify_start buf _ Hx) as [Hxprev Hxat].
  assert (Hboundary : forall s, has (classify v s) WORD_START = true
                                \/ has (classify v s) WORD_END = true ->
                                has (classify v s) word_boundary = true).
  { intros s Hs. unfold word_boundary. rewrite has_lor.
    destruct Hs as [-> | ->]; [reflexivity|apply orb_true_r]. }
  destruct (TextHost.word_at buf p) eqn:Hw; [exfalso|reflexivity].
  destruct (TextHost.word_at buf (begin r)) eqn:Hfirst.
  - (* a word runs from the start of the region: it ends before [x] *)
    pose proof (word_at_inside buf _ Hfirst) as Hbin.
    assert (Hbx : begin r < x)
      by (apply (forward_progress v laws);
          change (size v) with (TextHost.size buf); lia).
    assert (Hne : x - 1 <> begin r)
      by (intros Heq; rewrite Heq in Hxprev; congruence).
    destruct (word_end_between buf (begin r) (x - 1) Hfirst Hxprev)
      as (s & Hs & Hend); [lia|].
    change (TextHost.classify buf s) with (classify v s) in Hend.
    pose proof (Hboundary s (or_intror Hend)) as Hs'.
    rewrite (forward_first v laws (begin r) word_boundary s) in Hs'
      by (fold x; lia).
    discriminate.
  - (* a word starts inside the region: [x] lies before its end *)
    assert (Hne : p <> begin r) by (intros ->; congruence).
    destruct (word_start_between buf (begin r) p Hfirst Hw)
      as (s & Hs & Hstart); [lia|].
    change (TextHost.classify buf s) with (classify v s) in Hstart.
    assert (Hxs : x <= s).
    { apply (forward_bounded v laws); [lia|].
      apply Hboundary. left. exact Hstart. }
    lia.
Qed.


Lemma single_complete_word_is_a_run_witness :
  is_word_run (list_ascii_of_string "flagpole banana") (mkRegion 9 15).
Proof.
  apply (single_complete_word_is_a_run "flagpole banana" (mkRegion 9 15)).
  vm_compute. reflexivity.
Defined.

Lemma no_word_region_holds_no_word_witness :
  TextHost.word_at (list_ascii_of_string "foo  /? bar") 5 = false.
Proof.
  apply (no_word_region_holds_no_word "foo  /? bar" (mkRegion 4 7) 5).
  - vm_compute. reflexivity.
  - unfold begin, end_. simpl. lia.
Defined.
